(** * go-requests: the fluent request builder of [request.go]

    A shallow embedding of package [requests] (file [src/request.go]) and of
    the parts of Go's standard library that the builder calls
    ([net/url], [net/http], [strconv]), followed by the properties of the
    builder stated in its specification.

    Conventions.
    - A Go [string] and a Go [[]byte] are byte sequences: [string] here is
      Rocq's list of 8-bit characters, [[]byte] is [list byte].
    - A Go [map[string]T] is a [gmap string T]; [url.Values] and
      [http.Header] are [gmap string (list string)].
    - A Go result pair [(x, err)] of a fallible function is [error + T]
      ([inl err] is the failure); a pair that the source assigns
      component-wise ([json.Marshal]) stays a pair.
    - [*Request] is a pointer: every method takes the builder's state and
      returns the state it leaves behind. *)

From Stdlib Require Import ZArith String Ascii List DecimalString.
From stdpp Require Import gmap strings list fin_maps sorting.

Open Scope string_scope.

(** ** Errors *)

(** The error values that can reach the caller: [net/url]'s own
    ([EscapeError], [InvalidHostError], the [*url.Error] wrapper of
    [url.Parse]), plain messages ([errors.New], and whatever
    [encoding/json] or the transport report), and the errors that
    [fmt.Errorf] makes from a format with one [%q] verb and its argument
    (the value stands for the formatted message, with the argument quoted
    as [%q] quotes it). *)
Inductive error : Type :=
  | EscapeError (s : string)
  | InvalidHostError (s : string)
  | errorString (msg : string)
  | url_Error (op : string) (url : string) (err : error)
  | fmt_Errorf (format : string) (arg : string).

(** A small error monad for the straight-line fallible code. *)
Definition bind {A B : Type} (x : error + A) (k : A -> error + B) : error + B :=
  match x with
  | inl e => inl e
  | inr a => k a
  end.

Notation "x <- e1 ;; e2" := (bind e1 (fun x => e2))
  (at level 100, e1 at next level, right associativity).

(** ** Byte-string helpers ([strings] package) *)

Module strings.

Definition code (c : ascii) : nat := nat_of_ascii c.

(** [lo <= c && c <= hi] on bytes. *)
Definition between (lo hi c : ascii) : bool :=
  (code lo <=? code c)%nat && (code c <=? code hi)%nat.

Definition is_byte (a c : ascii) : bool := Ascii.eqb a c.

(** [c] is one of the bytes of [set]. *)
Fixpoint one_of (set : string) (c : ascii) : bool :=
  match set with
  | EmptyString => false
  | String a rest => Ascii.eqb a c || one_of rest c
  end.

(** [strings.Contains(s, string(c))] for a single byte. *)
Definition ContainsByte (s : string) (c : ascii) : bool := one_of s c.

(** [strings.Cut(s, string(sep))]: the text before and after the first
    [sep], and whether [sep] was found. *)
Fixpoint Cut (s : string) (sep : ascii) : string * string * bool :=
  match s with
  | EmptyString => (EmptyString, EmptyString, false)
  | String c rest =>
      if Ascii.eqb c sep then (EmptyString, rest, true)
      else let '(b, a, f) := Cut rest sep in (String c b, a, f)
  end.

(** [s[:i+1]] for [i = strings.LastIndex(s, string(sep))]: everything up
    to and including the last [sep] (empty when there is none). *)
Fixpoint UpToLast (s : string) (sep : ascii) : string :=
  match s with
  | EmptyString => EmptyString
  | String c rest =>
      if ContainsByte rest sep then String c (UpToLast rest sep)
      else if Ascii.eqb c sep then String c EmptyString
      else EmptyString
  end.

(** [s[:i]] for [i = strings.LastIndexByte(s, sep)], or [None] when
    [sep] does not occur ([i = -1]). *)
Fixpoint BeforeLast (s : string) (sep : ascii) : option string :=
  match s with
  | EmptyString => None
  | String c rest =>
      match BeforeLast rest sep with
      | Some b => Some (String c b)
      | None => if Ascii.eqb c sep then Some EmptyString else None
      end
  end.

Definition HasPrefix (s p : string) : bool := String.prefix p s.

Fixpoint Count (s : string) (c : ascii) : nat :=
  match s with
  | EmptyString => 0
  | String a rest => (if Ascii.eqb a c then 1 else 0) + Count rest c
  end.

Fixpoint last_byte (s : string) : option ascii :=
  match s with
  | EmptyString => None
  | String c EmptyString => Some c
  | String _ rest => last_byte rest
  end.

Fixpoint drop_last (s : string) : string :=
  match s with
  | EmptyString => EmptyString
  | String _ EmptyString => EmptyString
  | String c rest => String c (drop_last rest)
  end.

Definition is_empty (s : string) : bool :=
  match s with EmptyString => true | _ => false end.

(** [strings.LastIndex(s, string(sep))], counted from [from]; [-1] when
    [sep] does not occur. *)
Fixpoint LastIndex_from (s : string) (sep : ascii) (from : Z) : Z :=
  match s with
  | EmptyString => (-1)%Z
  | String c rest =>
      let i := LastIndex_from rest sep (from + 1)%Z in
      if (0 <=? i)%Z then i else if Ascii.eqb c sep then from else (-1)%Z
  end.

Definition LastIndex (s : string) (sep : ascii) : Z := LastIndex_from s sep 0%Z.

Definition ToLowerByte (c : ascii) : ascii :=
  if between "A" "Z" c then ascii_of_nat (code c + 32) else c.

Fixpoint ToLower (s : string) : string :=
  match s with
  | EmptyString => EmptyString
  | String c rest => String (ToLowerByte c) (ToLower rest)
  end.

(** [strings.Join(l, string(sep))]. *)
Fixpoint Join (l : list string) (sep : string) : string :=
  match l with
  | [] => EmptyString
  | [x] => x
  | x :: rest => x ++ sep ++ Join rest sep
  end.

End strings.

(** ** [strconv.Itoa] *)

Module strconv.

(** Decimal text of an [int]: ["0"], ["17"], ["-5"]. *)
Definition Itoa (i : Z) : string := NilEmpty.string_of_int (Z.to_int i).

End strconv.

(** ** [net/url]

    The functions of Go's [net/url] that [request.go] calls, directly or
    through [http.NewRequestWithContext]: [Values.Add], [Values.Encode],
    [QueryUnescape], [URL.ResolveReference], [URL.String] and [Parse]. They
    are standard-library code, written here after the library's source. *)

Module neturl.
Import strings.

Inductive encoding : Type :=
  | encodePath
  | encodePathSegment
  | encodeHost
  | encodeZone
  | encodeUserPassword
  | encodeQueryComponent
  | encodeFragment.

Definition is_host_mode (mode : encoding) : bool :=
  match mode with encodeHost | encodeZone => true | _ => false end.

Definition is_query_mode (mode : encoding) : bool :=
  match mode with encodeQueryComponent => true | _ => false end.

Definition ishex (c : ascii) : bool :=
  between "0" "9" c || between "a" "f" c || between "A" "F" c.

Definition unhex (c : ascii) : nat :=
  if between "0" "9" c then code c - code "0"
  else if between "a" "f" c then code c - code "a" + 10
  else if between "A" "F" c then code c - code "A" + 10
  else 0.

(** ["0123456789ABCDEF"[n]] *)
Definition upperhex (n : nat) : ascii :=
  match String.get n "0123456789ABCDEF" with
  | Some c => c
  | None => "0"%char
  end.

(** [shouldEscape]: whether byte [c] must be written as [%XX] in the part
    of a URL that [mode] names. *)
Definition shouldEscape (c : ascii) (mode : encoding) : bool :=
  if between "a" "z" c || between "A" "Z" c || between "0" "9" c then false
  else if is_host_mode mode
          && (one_of "!$&'()*+,;=:[]<>" c || (code c =? 34)%nat) then false
  else if one_of "-_.~" c then false
  else if one_of "$&+,/:;=?@" c then
    match mode with
    | encodePath => is_byte "?" c
    | encodePathSegment => one_of "/;,?" c
    | encodeUserPassword => one_of "@/?:" c
    | encodeQueryComponent => true
    | encodeFragment => false
    | encodeHost | encodeZone => true
    end
  else if match mode with encodeFragment => one_of "!()*" c | _ => false end
  then false
  else true.

(** [escape]: a space becomes [+] in a query component, every other byte
    that [shouldEscape] becomes [%XX] with upper-case digits. *)
Fixpoint escape (s : string) (mode : encoding) : string :=
  match s with
  | EmptyString => EmptyString
  | String c rest =>
      if is_byte " " c && is_query_mode mode then
        String "+" (escape rest mode)
      else if shouldEscape c mode then
        String "%" (String (upperhex (code c / 16))
                      (String (upperhex (code c mod 16)) (escape rest mode)))
      else String c (escape rest mode)
  end.

(** [s[:3]] when [len(s) > 3], else [s]. *)
Definition first3 (s : string) : string := String.substring 0 3 s.

(** First loop of [unescape]: every [%] must be followed by two hex
    digits; a host admits few escapes and few raw bytes. *)
Fixpoint unescape_check (s : string) (mode : encoding) : option error :=
  match s with
  | EmptyString => None
  | String c rest =>
      if is_byte "%" c then
        match rest with
        | String a (String b rest') =>
            if ishex a && ishex b then
              let v := ascii_of_nat (unhex a * 16 + unhex b) in
              let is25 := is_byte "2" a && is_byte "5" b in
              match mode with
              | encodeHost =>
                  if (unhex a <? 8)%nat && negb is25
                  then Some (EscapeError (first3 s))
                  else unescape_check rest' mode
              | encodeZone =>
                  if negb is25 && negb (is_byte " " v) && shouldEscape v encodeHost
                  then Some (EscapeError (first3 s))
                  else unescape_check rest' mode
              | _ => unescape_check rest' mode
              end
            else Some (EscapeError (first3 s))
        | _ => Some (EscapeError (first3 s))
        end
      else if is_byte "+" c then unescape_check rest mode
      else if is_host_mode mode && (code c <? 128)%nat && shouldEscape c encodeHost
      then Some (InvalidHostError (String c EmptyString))
      else unescape_check rest mode
  end.

(** Second loop of [unescape], on a checked string: [%XX] becomes the
    byte, [+] a space in a query component. *)
Fixpoint unescape_build (s : string) (mode : encoding) : string :=
  match s with
  | EmptyString => EmptyString
  | String c rest =>
      if is_byte "%" c then
        match rest with
        | String a (String b rest') =>
            String (ascii_of_nat (unhex a * 16 + unhex b)) (unescape_build rest' mode)
        | _ => EmptyString
        end
      else if is_byte "+" c && is_query_mode mode then
        String " " (unescape_build rest mode)
      else String c (unescape_build rest mode)
  end.

Definition unescape (s : string) (mode : encoding) : error + string :=
  match unescape_check s mode with
  | Some e => inl e
  | None => inr (unescape_build s mode)
  end.

Definition QueryEscape (s : string) : string := escape s encodeQueryComponent.

Definition QueryUnescape (s : string) : error + string :=
  unescape s encodeQueryComponent.

(** *** [url.Values] *)

(** [v[key] = append(v[key], value)] *)
Definition Values_Add (v : gmap string (list string)) (key value : string)
  : gmap string (list string) :=
  <[key := (default [] (v !! key) ++ [value])%list]> v.

(** The keys of a map in increasing byte order ([slices.Sort] of the
    collected keys; the keys are distinct, so the order in which [range]
    collects them does not show in the result). *)
Definition sorted_keys {V : Type} (v : gmap string V) : list string :=
  merge_sort String.le (map_to_list v).*1.

(** The [key=value] pairs of one key, both sides escaped. *)
Definition encode_key (k : string) (vs : list string) : list string :=
  List.map (fun v => QueryEscape k ++ "=" ++ QueryEscape v) vs.

(** [Values.Encode]: the pairs of all keys, keys sorted, joined by [&]. *)
Definition Values_Encode (v : gmap string (list string)) : string :=
  Join (List.concat
          (List.map (fun k => encode_key k (default [] (v !! k))) (sorted_keys v)))
       "&".

(** *** [url.URL] *)

Record Userinfo : Type := mkUserinfo {
  username : string;
  password : string;
  passwordSet : bool
}.

Record URL : Type := mkURL {
  Scheme : string;
  Opaque : string;
  User : option Userinfo;
  Host : string;
  Path : string;
  RawPath : string;
  OmitHost : bool;
  ForceQuery : bool;
  RawQuery : string;
  Fragment : string;
  RawFragment : string
}.

(** [new(URL)]: every field zero. *)
Definition zeroURL : URL :=
  mkURL "" "" None "" "" "" false false "" "" "".

Definition set_Scheme (x : string) (u : URL) : URL :=
  mkURL x (Opaque u) (User u) (Host u) (Path u) (RawPath u) (OmitHost u)
        (ForceQuery u) (RawQuery u) (Fragment u) (RawFragment u).
Definition set_Opaque (x : string) (u : URL) : URL :=
  mkURL (Scheme u) x (User u) (Host u) (Path u) (RawPath u) (OmitHost u)
        (ForceQuery u) (RawQuery u) (Fragment u) (RawFragment u).
Definition set_User (x : option Userinfo) (u : URL) : URL :=
  mkURL (Scheme u) (Opaque u) x (Host u) (Path u) (RawPath u) (OmitHost u)
        (ForceQuery u) (RawQuery u) (Fragment u) (RawFragment u).
Definition set_Host (x : string) (u : URL) : URL :=
  mkURL (Scheme u) (Opaque u) (User u) x (Path u) (RawPath u) (OmitHost u)
        (ForceQuery u) (RawQuery u) (Fragment u) (RawFragment u).
Definition set_Path (x : string) (u : URL) : URL :=
  mkURL (Scheme u) (Opaque u) (User u) (Host u) x (RawPath u) (OmitHost u)
        (ForceQuery u) (RawQuery u) (Fragment u) (RawFragment u).
Definition set_RawPath (x : string) (u : URL) : URL :=
  mkURL (Scheme u) (Opaque u) (User u) (Host u) (Path u) x (OmitHost u)
        (ForceQuery u) (RawQuery u) (Fragment u) (RawFragment u).
Definition set_OmitHost (x : bool) (u : URL) : URL :=
  mkURL (Scheme u) (Opaque u) (User u) (Host u) (Path u) (RawPath u) x
        (ForceQuery u) (RawQuery u) (Fragment u) (RawFragment u).
Definition set_ForceQuery (x : bool) (u : URL) : URL :=
  mkURL (Scheme u) (Opaque u) (User u) (Host u) (Path u) (RawPath u) (OmitHost u)
        x (RawQuery u) (Fragment u) (RawFragment u).
Definition set_RawQuery (x : string) (u : URL) : URL :=
  mkURL (Scheme u) (Opaque u) (User u) (Host u) (Path u) (RawPath u) (OmitHost u)
        (ForceQuery u) x (Fragment u) (RawFragment u).
Definition set_Fragment (x : string) (u : URL) : URL :=
  mkURL (Scheme u) (Opaque u) (User u) (Host u) (Path u) (RawPath u) (OmitHost u)
        (ForceQuery u) (RawQuery u) x (RawFragment u).
Definition set_RawFragment (x : string) (u : URL) : URL :=
  mkURL (Scheme u) (Opaque u) (User u) (Host u) (Path u) (RawPath u) (OmitHost u)
        (ForceQuery u) (RawQuery u) (Fragment u) x.

(** [validEncoded]: [s] could be the escaped form of something. *)
Fixpoint validEncoded (s : string) (mode : encoding) : bool :=
  match s with
  | EmptyString => true
  | String c rest =>
      if one_of "!$&'()*+,;=:@[]%" c then validEncoded rest mode
      else if shouldEscape c mode then false
      else validEncoded rest mode
  end.

(** [URL.setPath]: [Path] is the decoded path; [RawPath] is kept only
    when it differs from the default encoding of [Path]. *)
Definition setPath (p : string) (u : URL) : error + URL :=
  path <- unescape p encodePath ;;
  inr (set_RawPath (if String.eqb p (escape path encodePath) then "" else p)
         (set_Path path u)).

(** [URL.setFragment], the same for the fragment. *)
Definition setFragment (f : string) (u : URL) : error + URL :=
  frag <- unescape f encodeFragment ;;
  inr (set_RawFragment (if String.eqb f (escape frag encodeFragment) then "" else f)
         (set_Fragment frag u)).

(** [URL.EscapedPath] *)
Definition EscapedPath (u : URL) : string :=
  let dflt := if String.eqb (Path u) "*" then "*" else escape (Path u) encodePath in
  if negb (is_empty (RawPath u)) && validEncoded (RawPath u) encodePath then
    match unescape (RawPath u) encodePath with
    | inr p => if String.eqb p (Path u) then RawPath u else dflt
    | inl _ => dflt
    end
  else dflt.

(** [URL.EscapedFragment] *)
Definition EscapedFragment (u : URL) : string :=
  let dflt := escape (Fragment u) encodeFragment in
  if negb (is_empty (RawFragment u)) && validEncoded (RawFragment u) encodeFragment then
    match unescape (RawFragment u) encodeFragment with
    | inr f => if String.eqb f (Fragment u) then RawFragment u else dflt
    | inl _ => dflt
    end
  else dflt.

(** [Userinfo.String] *)
Definition Userinfo_String (ui : Userinfo) : string :=
  escape (username ui) encodeUserPassword
  ++ (if passwordSet ui then ":" ++ escape (password ui) encodeUserPassword else "").

(** *** Reference resolution *)

(** The loop of [resolvePath] over the [/]-separated elements of the
    path: [dst] is the text written after the leading [/], [first] says
    that no [/] is due before the next element. [.] is dropped, [..]
    removes the last element written. *)
Fixpoint resolve_elems (elems : list string) (dst : string) (first : bool) : string :=
  match elems with
  | [] => dst
  | elem :: rest =>
      if String.eqb elem "." then resolve_elems rest dst false
      else if String.eqb elem ".." then
        match BeforeLast dst "/" with
        | None => resolve_elems rest "" true
        | Some kept => resolve_elems rest kept first
        end
      else
        resolve_elems rest (dst ++ (if first then "" else "/") ++ elem) false
  end.

(** The elements that repeated [strings.Cut(remaining, "/")] yields. *)
Fixpoint split_slash (s : string) : list string :=
  match s with
  | EmptyString => [EmptyString]
  | String c rest =>
      if is_byte "/" c then EmptyString :: split_slash rest
      else match split_slash rest with
           | e :: es => String c e :: es
           | [] => [String c EmptyString]
           end
  end.

(** [resolvePath(base, ref)]: merge [ref] into [base] and remove the dot
    segments (RFC 3986, 5.2). *)
Definition resolvePath (base ref : string) : string :=
  let full :=
    match ref with
    | EmptyString => base
    | String c _ => if is_byte "/" c then ref else UpToLast base "/" ++ ref
    end in
  if is_empty full then ""
  else
    let elems := split_slash full in
    let elem := List.last elems "" in
    let r := "/" ++ resolve_elems elems "" true
                 ++ (if String.eqb elem "." || String.eqb elem ".." then "/" else "") in
    match r with
    | String _ (String c rest) => if is_byte "/" c then String c rest else r
    | _ => r
    end.

(** [setPath] where the source ignores its error ([url.setPath(...)] as
    a statement): the URL is left as it was when unescaping fails. *)
Definition setPath_ignore (p : string) (u : URL) : URL :=
  match setPath p u with
  | inr u' => u'
  | inl _ => u
  end.

(** [URL.ResolveReference] *)
Definition ResolveReference (u ref : URL) : URL :=
  let url := ref in
  let url := if is_empty (Scheme ref) then set_Scheme (Scheme u) url else url in
  if negb (is_empty (Scheme ref)) || negb (is_empty (Host ref)) || bool_decide (User ref <> None)
  then setPath_ignore (resolvePath (EscapedPath ref) "") url
  else if negb (is_empty (Opaque ref)) then
    set_Path "" (set_Host "" (set_User None url))
  else
    let url :=
      if is_empty (Path ref) && negb (ForceQuery ref) && is_empty (RawQuery ref) then
        let url := set_RawQuery (RawQuery u) url in
        if is_empty (Fragment ref)
        then set_RawFragment (RawFragment u) (set_Fragment (Fragment u) url)
        else url
      else url in
    if is_empty (Path ref) && negb (is_empty (Opaque u)) then
      set_Path "" (set_Host "" (set_User None (set_Opaque (Opaque u) url)))
    else
      setPath_ignore (resolvePath (EscapedPath u) (EscapedPath ref))
        (set_User (User u) (set_Host (Host u) url)).

(** *** [URL.String] *)

(** The first path segment contains a colon. *)
Definition first_segment_has_colon (path : string) : bool :=
  ContainsByte (Cut path "/").1.1 ":".

Definition URL_String (u : URL) : string :=
  let scheme := if is_empty (Scheme u) then "" else Scheme u ++ ":" in
  let rest :=
    if negb (is_empty (Opaque u)) then Opaque u
    else
      let authority :=
        if negb (is_empty (Scheme u)) || negb (is_empty (Host u))
           || bool_decide (User u <> None) then
          if OmitHost u && is_empty (Host u) && bool_decide (User u = None) then ""
          else
            (if negb (is_empty (Host u)) || negb (is_empty (Path u))
                || bool_decide (User u <> None) then "//" else "")
            ++ match User u with
               | Some ui => Userinfo_String ui ++ "@"
               | None => ""
               end
            ++ (if is_empty (Host u) then "" else escape (Host u) encodeHost)
        else "" in
      let path := EscapedPath u in
      let slash :=
        match path with
        | String c _ =>
            if negb (is_byte "/" c) && negb (is_empty (Host u)) then "/" else ""
        | EmptyString => ""
        end in
      let dot :=
        if is_empty (scheme ++ authority ++ slash) && first_segment_has_colon path
        then "./" else "" in
      authority ++ slash ++ dot ++ path in
  scheme ++ rest
  ++ (if ForceQuery u || negb (is_empty (RawQuery u)) then "?" ++ RawQuery u else "")
  ++ (if is_empty (Fragment u) then "" else "#" ++ EscapedFragment u).

(** *** [Parse] *)

(** [fmt.Errorf("invalid port %q after host", port)] *)
Definition invalidPortError (port : string) : error :=
  fmt_Errorf "invalid port %q after host" port.

Fixpoint stringContainsCTLByte (s : string) : bool :=
  match s with
  | EmptyString => false
  | String c rest =>
      (code c <? 32)%nat || (code c =? 127)%nat || stringContainsCTLByte rest
  end.

(** The scan of [getScheme]: [pre] is the text read so far, [s] what is
    left of [rawURL]. *)
Fixpoint getScheme_from (rawURL : string) (pre : string) (s : string)
  : error + (string * string) :=
  match s with
  | EmptyString => inr ("", rawURL)
  | String c rest =>
      if between "a" "z" c || between "A" "Z" c then
        getScheme_from rawURL (pre ++ String c "") rest
      else if between "0" "9" c || one_of "+-." c then
        if is_empty pre then inr ("", rawURL)
        else getScheme_from rawURL (pre ++ String c "") rest
      else if is_byte ":" c then
        if is_empty pre then inl (errorString "missing protocol scheme")
        else inr (pre, rest)
      else inr ("", rawURL)
  end.

(** [getScheme]: split a leading [scheme:] off, when there is one. *)
Definition getScheme (rawURL : string) : error + (string * string) :=
  getScheme_from rawURL "" rawURL.

Fixpoint all_digits (s : string) : bool :=
  match s with
  | EmptyString => true
  | String c rest => between "0" "9" c && all_digits rest
  end.

Definition validOptionalPort (port : string) : bool :=
  match port with
  | EmptyString => true
  | String c rest => is_byte ":" c && all_digits rest
  end.

(** [host[i:]] for [i = strings.LastIndex(host, ":")], when there is a
    colon. *)
Fixpoint FromLast (s : string) (sep : ascii) : option string :=
  match s with
  | EmptyString => None
  | String c rest =>
      match FromLast rest sep with
      | Some t => Some t
      | None => if Ascii.eqb c sep then Some s else None
      end
  end.

(** [parseHost] for a host that is not an IP literal in brackets. *)
Definition parseHost_name (host : string) : error + string :=
  match FromLast host ":" with
  | Some colonPort =>
      if validOptionalPort colonPort then unescape host encodeHost
      else inl (invalidPortError colonPort)
  | None => unescape host encodeHost
  end.

(** [parse(rawURL, false)]. The authority of a URL is read when it is a
    host name with an optional port; an authority with user information
    ([@]) or an IP literal ([[...]]) is outside this model, and the
    result is then [None]. *)
Definition parse (rawURL : string) : option (error + URL) :=
  if stringContainsCTLByte rawURL then
    Some (inl (errorString "net/url: invalid control character in URL"))
  else if String.eqb rawURL "*" then Some (inr (set_Path "*" zeroURL))
  else
    match getScheme rawURL with
    | inl e => Some (inl e)
    | inr (scheme, rest) =>
        let url := set_Scheme (ToLower scheme) zeroURL in
        let '(rest, url) :=
          if bool_decide (last_byte rest = Some "?"%char) && (Count rest "?" =? 1)%nat
          then (drop_last rest, set_ForceQuery true url)
          else let '(r, q, _) := Cut rest "?" in (r, set_RawQuery q url) in
        if negb (HasPrefix rest "/") && negb (is_empty (Scheme url)) then
          Some (inr (set_Opaque rest url))
        else if negb (HasPrefix rest "/") && first_segment_has_colon rest then
          Some (inl (errorString "first path segment in URL cannot contain colon"))
        else if (negb (is_empty (Scheme url)) || negb (HasPrefix rest "///"))
                && HasPrefix rest "//" then
          let after := String.substring 2 (String.length rest) rest in
          let '(authority, tail, found) := Cut after "/" in
          let rest := if found then "/" ++ tail else "" in
          if ContainsByte authority "@" || HasPrefix authority "[" then None
          else
            match parseHost_name authority with
            | inl e => Some (inl e)
            | inr host => Some (setPath rest (set_Host host url))
            end
        else
          let url :=
            if negb (is_empty (Scheme url)) && HasPrefix rest "/"
            then set_OmitHost true url else url in
          Some (setPath rest url)
    end.

(** [url.Parse]: the fragment is cut off first; errors are wrapped in a
    [*url.Error] with operation ["parse"]. *)
Definition Parse (rawURL : string) : option (error + URL) :=
  let '(u, frag, _) := Cut rawURL "#" in
  match parse u with
  | None => None
  | Some (inl e) => Some (inl (url_Error "parse" u e))
  | Some (inr url) =>
      if is_empty frag then Some (inr url)
      else match setFragment frag url with
           | inl e => Some (inl (url_Error "parse" rawURL e))
           | inr url' => Some (inr url')
           end
  end.

End neturl.

(** ** [net/textproto] and [net/http] *)

Module http.
Import strings.

(** [validHeaderFieldByte]: the token bytes of RFC 7230. *)
Definition validHeaderFieldByte (c : ascii) : bool :=
  between "a" "z" c || between "A" "Z" c || between "0" "9" c
  || one_of "!#$%&'*+-.^_`|~" c.

Fixpoint all_valid (s : string) : bool :=
  match s with
  | EmptyString => true
  | String c rest => validHeaderFieldByte c && all_valid rest
  end.

(** The rewriting loop of [canonicalMIMEHeaderKey]: upper case at the
    start and after each dash, lower case elsewhere. *)
Fixpoint canonical_from (s : string) (upper : bool) : string :=
  match s with
  | EmptyString => EmptyString
  | String c rest =>
      let c' :=
        if upper && between "a" "z" c then ascii_of_nat (code c - 32)
        else if negb upper && between "A" "Z" c then ascii_of_nat (code c + 32)
        else c in
      String c' (canonical_from rest (is_byte "-" c'))
  end.

(** [textproto.CanonicalMIMEHeaderKey]: a key with a byte that is not a
    token byte (a space included) is returned unchanged. *)
Definition CanonicalMIMEHeaderKey (s : string) : string :=
  if all_valid s then canonical_from s true else s.

(** [http.Header.Set]: [h[canonical(key)] = []string{value}] *)
Definition Header_Set (key value : string) (h : gmap string (list string))
  : gmap string (list string) :=
  <[CanonicalMIMEHeaderKey key := [value]]> h.

(** [http.Header.Add]: [h[k] = append(h[k], value)] for the canonical [k] *)
Definition Header_Add (key value : string) (h : gmap string (list string))
  : gmap string (list string) :=
  let k := CanonicalMIMEHeaderKey key in
  <[k := (default [] (h !! k) ++ [value])%list]> h.

(** [http.Header.Values] *)
Definition Header_Values (h : gmap string (list string)) (key : string) : list string :=
  default [] (h !! CanonicalMIMEHeaderKey key).

Definition MethodGet : string := "GET".
Definition MethodPost : string := "POST".
Definition MethodPut : string := "PUT".
Definition MethodPatch : string := "PATCH".
Definition MethodDelete : string := "DELETE".

(** [validMethod]: a non-empty token. *)
Definition validMethod (method : string) : bool :=
  negb (is_empty method) && all_valid method.

(** [removeEmptyPort]: ["host:"] becomes ["host"]. *)
Definition removeEmptyPort (host : string) : string :=
  if (LastIndex host "]" <? LastIndex host ":")%Z
     && bool_decide (last_byte host = Some ":"%char)
  then drop_last host else host.

(** [http.Request], the fields that the builder and its callers see.
    [Body] holds the bytes that the body reader will yield. *)
Record Request (Ctx : Type) : Type := mkRequest {
  ctx : Ctx;
  Method : string;
  URL : neturl.URL;
  Header : gmap string (list string);
  Body : list Byte.byte;
  ContentLength : Z;
  Host : string
}.
Arguments mkRequest {Ctx}.
Arguments ctx {Ctx}.
Arguments Method {Ctx}.
Arguments URL {Ctx}.
Arguments Header {Ctx}.
Arguments Body {Ctx}.
Arguments ContentLength {Ctx}.
Arguments Host {Ctx}.

Definition set_Header {Ctx : Type} (h : gmap string (list string)) (req : Request Ctx)
  : Request Ctx :=
  mkRequest (ctx req) (Method req) (URL req) h (Body req) (ContentLength req) (Host req).

(** [http.Response]: the status and the bytes of the body stream. *)
Record Response : Type := mkResponse {
  StatusCode : Z;
  RespBody : list Byte.byte
}.

(** [http.NewRequestWithContext(ctx, method, url, bytes.NewReader(body))],
    for the URL parser [Parse]. A [nil] context is [None]. *)
Definition NewRequestWithContext {Ctx : Type}
    (Parse : string -> error + neturl.URL)
    (c : option Ctx) (method url : string) (body : list Byte.byte)
  : error + Request Ctx :=
  let method := if is_empty method then "GET" else method in
  if negb (validMethod method) then
    inl (fmt_Errorf "net/http: invalid method %q" method)
  else
    match c with
    | None => inl (errorString "net/http: nil Context")
    | Some c =>
        u <- Parse url ;;
        let u := neturl.set_Host (removeEmptyPort (neturl.Host u)) u in
        inr (mkRequest c method u ∅ body (Z.of_nat (List.length body)) (neturl.Host u))
    end.

End http.

(** ** The environment of the builder

    What the builder takes from outside the repository and this file does
    not fix: the dynamic values behind [interface{}], [encoding/json] on
    them, the contexts, the network behind the transport, the order in
    which [range] visits a map, and the URL parser (of which [neturl.Parse]
    models all but two kinds of authority). *)

Record Env : Type := mkEnv {
  (** values held in an [interface{}]: JSON bodies and decode targets *)
  Any : Type;
  (** non-nil [context.Context] values *)
  Ctx : Type;
  (** the state of the world behind [http.Client] *)
  Net : Type;
  (** [url.Parse] *)
  Parse : string -> error + neturl.URL;
  (** [json.Marshal]: the bytes and the error it returns *)
  Marshal : Any -> list Byte.byte * option error;
  (** [json.NewDecoder(body).Decode(target)]: what the target holds
      afterwards and the error *)
  Decode : list Byte.byte -> Any -> Any * option error;
  (** the order in which a [for k, v := range m] visits [m] *)
  range : forall V : Type, gmap string V -> list (string * V)
}.
Arguments range _ {V}.

(** [range] visits every entry of the map once, in some order. *)
Definition range_visits_all (E : Env) : Prop :=
  forall (V : Type) (m : gmap string V), range E m ≡ₚ map_to_list m.

(** [Parse] agrees with the model of [url.Parse] wherever the model is
    defined. *)
Definition Parse_as_modelled (E : Env) : Prop :=
  forall s r, neturl.Parse s = Some r -> Parse E s = r.

(** ** Package [requests] *)

Section requests.
Context (E : Env).

(** [*http.Client], by what [Do] does: it takes the request to the
    network and comes back with a response or an error. *)
Definition Client : Type :=
  Net E -> http.Request (Ctx E) -> Net E * (error + http.Response).

Record Request : Type := mkRequest {
  client : Client;
  url : neturl.URL;
  headers : gmap string string;
  queryParams : gmap string (list string);
  body : option (Any E);
  bodyBytes : list Byte.byte;
  result : option (Any E)
}.

Definition set_headers (h : gmap string string) (r : Request) : Request :=
  mkRequest (client r) (url r) h (queryParams r) (body r) (bodyBytes r) (result r).
Definition set_queryParams (q : gmap string (list string)) (r : Request) : Request :=
  mkRequest (client r) (url r) (headers r) q (body r) (bodyBytes r) (result r).
Definition set_body (b : option (Any E)) (r : Request) : Request :=
  mkRequest (client r) (url r) (headers r) (queryParams r) b (bodyBytes r) (result r).
Definition set_bodyBytes (b : list Byte.byte) (r : Request) : Request :=
  mkRequest (client r) (url r) (headers r) (queryParams r) (body r) b (result r).
Definition set_result (x : option (Any E)) (r : Request) : Request :=
  mkRequest (client r) (url r) (headers r) (queryParams r) (body r) (bodyBytes r) x.

(** What a call does outside the builder, in the order it happens. *)
Inductive Event : Type :=
  | EvMarshal (v : Any E)                     (* json.Marshal(v) *)
  | EvDo (req : http.Request (Ctx E))         (* client.Do(req) *)
  | EvDecode (target : Any E)                 (* Decode into the target *)
  | EvClose.                                  (* resp.Body.Close() *)

(** The world a call runs in: the network and the log of events. *)
Record World : Type := mkWorld {
  net : Net E;
  trace : list Event
}.

Definition log (ev : Event) (w : World) : World :=
  mkWorld (net w) (trace w ++ [ev])%list.

(** *** Construction and configuration *)

Definition New (requestURL : neturl.URL) (httpClient : Client) (accepts : string)
  : Request :=
  mkRequest httpClient requestURL {["Accept" := accepts]} ∅ None [] None.

Definition WithHeader (key value : string) (r : Request) : Request :=
  set_headers (<[key := value]> (headers r)) r.

Definition WithQueryParam (key value : string) (r : Request) : Request :=
  set_queryParams (neturl.Values_Add (queryParams r) key value) r.

Definition WithJSONBody (b : option (Any E)) (r : Request) : Request :=
  set_body b (set_headers (<["Content-Type" := "application/json"]> (headers r)) r).

Definition WithBodyBytes (b : list Byte.byte) (r : Request) : Request :=
  set_bodyBytes b r.

Definition WithAuthorization (token : string) (r : Request) : Request :=
  set_headers (<["Authorization" := "Bearer " ++ token]> (headers r)) r.

(** [for key, value := range m { dst[key] = value }] *)
Definition assign_all {V : Type} (m dst : gmap string V) : gmap string V :=
  foldl (fun acc kv => <[kv.1 := kv.2]> acc) dst (range E m).

Definition WithHeaders (hs : gmap string string) (r : Request) : Request :=
  set_headers (assign_all hs (headers r)) r.

Definition WithQueryParams (qs : gmap string (list string)) (r : Request) : Request :=
  set_queryParams (assign_all qs (queryParams r)) r.

Definition WithResult (x : option (Any E)) (r : Request) : Request :=
  set_result x r.

(** *** Building the request *)

(** [for k, v := range r.headers { req.Header.Set(k, v) }] *)
Definition apply_headers (hs : gmap string string) (h : gmap string (list string))
  : gmap string (list string) :=
  foldl (fun acc kv => http.Header_Set kv.1 kv.2 acc) h (range E hs).

(** The URL of the request: the reference resolved against the base,
    with the query [q] in place of its own. *)
Definition request_url (r : Request) (ref : neturl.URL) (q : string) : neturl.URL :=
  neturl.set_RawQuery q (neturl.ResolveReference (url r) ref).

(** The header of the request: every header of the builder, then
    [Content-Length] when there are body bytes. *)
Definition request_header (r : Request) (h : gmap string (list string))
  : gmap string (list string) :=
  let h := apply_headers (headers r) h in
  if (0 <? Z.of_nat (List.length (bodyBytes r)))%Z then
    http.Header_Add "Content-Length"
      (strconv.Itoa (Z.of_nat (List.length (bodyBytes r)))) h
  else h.

(** [Request.Request] *)
Definition Request_Request (r : Request) (c : option (Ctx E)) (method path : string)
  : error + http.Request (Ctx E) :=
  ref <- Parse E path ;;
  q <- neturl.QueryUnescape (neturl.Values_Encode (queryParams r)) ;;
  let refURL := request_url r ref q in
  req <- http.NewRequestWithContext (Parse E) c method
           (neturl.URL_String refURL) (bodyBytes r) ;;
  inr (http.set_Header (request_header r (http.Header req)) req).

(** *** Sending *)

(** [Request.do]: build, send, close the response body on the way out,
    decode into the target when there is one. *)
Definition do (r : Request) (w : World) (c : option (Ctx E)) (method path : string)
  : Request * World * (error + option (Any E)) :=
  match Request_Request r c method path with
  | inl err => (r, w, inl err)
  | inr req =>
      let '(n, resp) := client r (net w) req in
      let w := log (EvDo req) (mkWorld n (trace w)) in
      match resp with
      | inl err => (r, w, inl err)
      | inr resp =>
          match result r with
          | Some target =>
              let '(target', err) := Decode E (http.RespBody resp) target in
              let r := set_result (Some target') r in
              let w := log EvClose (log (EvDecode target) w) in
              match err with
              | Some err => (r, w, inl err)
              | None => (r, w, inr (result r))
              end
          | None => (r, log EvClose w, inr (result r))
          end
      end
  end.

Definition Get (r : Request) (w : World) (c : option (Ctx E)) (path : string)
  : Request * World * (error + option (Any E)) :=
  do r w c http.MethodGet path.

Definition Post (r : Request) (w : World) (c : option (Ctx E)) (path : string)
  : Request * World * (error + option (Any E)) :=
  match body r with
  | Some b =>
      let '(bytes, err) := Marshal E b in
      let r := set_bodyBytes bytes r in
      let w := log (EvMarshal b) w in
      match err with
      | Some err => (r, w, inl err)
      | None => do r w c http.MethodPost path
      end
  | None => do r w c http.MethodPost path
  end.

Definition Put (r : Request) (w : World) (c : option (Ctx E)) (path : string)
  : Request * World * (error + option (Any E)) :=
  match body r with
  | Some b =>
      let '(bytes, err) := Marshal E b in
      let r := set_bodyBytes bytes r in
      let w := log (EvMarshal b) w in
      match err with
      | Some err => (r, w, inl err)
      | None => do r w c http.MethodPut path
      end
  | None => do r w c http.MethodPut path
  end.

Definition Patch (r : Request) (w : World) (c : option (Ctx E)) (path : string)
  : Request * World * (error + option (Any E)) :=
  match body r with
  | Some b =>
      let '(bytes, err) := Marshal E b in
      let r := set_bodyBytes bytes r in
      let w := log (EvMarshal b) w in
      match err with
      | Some err => (r, w, inl err)
      | None => do r w c http.MethodPatch path
      end
  | None => do r w c http.MethodPatch path
  end.

Definition Delete (r : Request) (w : World) (c : option (Ctx E)) (path : string)
  : Request * World * (error + option (Any E)) :=
  do r w c http.MethodDelete path.

End requests.

Arguments mkRequest {E}.
Arguments client {E}.
Arguments url {E}.
Arguments headers {E}.
Arguments queryParams {E}.
Arguments body {E}.
Arguments bodyBytes {E}.
Arguments result {E}.
Arguments set_headers {E}.
Arguments set_queryParams {E}.
Arguments set_body {E}.
Arguments set_bodyBytes {E}.
Arguments set_result {E}.
Arguments EvMarshal {E}.
Arguments EvDo {E}.
Arguments EvDecode {E}.
Arguments EvClose {E}.
Arguments mkWorld {E}.
Arguments net {E}.
Arguments trace {E}.
Arguments log {E}.
Arguments WithHeader {E}.
Arguments WithQueryParam {E}.
Arguments WithJSONBody {E}.
Arguments WithBodyBytes {E}.
Arguments WithAuthorization {E}.
Arguments assign_all E {V}.
Arguments WithHeaders {E}.
Arguments WithQueryParams {E}.
Arguments WithResult {E}.
Arguments request_url {E}.
Arguments request_header {E}.
Arguments Request_Request {E}.
Arguments do {E}.
Arguments Get {E}.
Arguments Post {E}.
Arguments Put {E}.
Arguments Patch {E}.
Arguments Delete {E}.

(** The five verb methods, to speak of "every verb call". *)
Inductive Verb : Type := VGet | VPost | VPut | VPatch | VDelete.

Definition call {E : Env} (v : Verb) (r : Request E) (w : World E)
    (c : option (Ctx E)) (path : string)
  : Request E * World E * (error + option (Any E)) :=
  match v with
  | VGet => Get r w c path
  | VPost => Post r w c path
  | VPut => Put r w c path
  | VPatch => Patch r w c path
  | VDelete => Delete r w c path
  end.

(** The method that each verb passes to [do]. *)
Definition method_of (v : Verb) : string :=
  match v with
  | VGet => http.MethodGet
  | VPost => http.MethodPost
  | VPut => http.MethodPut
  | VPatch => http.MethodPatch
  | VDelete => http.MethodDelete
  end.

(** The verbs that serialize a pending JSON body. *)
Definition serializes (v : Verb) : bool :=
  match v with
  | VPost | VPut | VPatch => true
  | VGet | VDelete => false
  end.

(** The requests that a log says were handed to the transport. *)
Fixpoint sent {E : Env} (evs : list (Event E)) : list (http.Request (Ctx E)) :=
  match evs with
  | [] => []
  | EvDo req :: rest => req :: sent rest
  | _ :: rest => sent rest
  end.

(** The values that a log says were serialized. *)
Fixpoint marshalled {E : Env} (evs : list (Event E)) : list (Any E) :=
  match evs with
  | [] => []
  | EvMarshal v :: rest => v :: marshalled rest
  | _ :: rest => marshalled rest
  end.

(** [n] additions of values to one key, in order. *)
Definition add_each {E : Env} (key : string) (values : list string) (r : Request E)
  : Request E :=
  foldl (fun r v => WithQueryParam key v r) r values.

(** ** An environment to run the builder in

    As a test of the package would set it up: JSON values are [null],
    booleans, integers and a channel (which [encoding/json] refuses to
    serialize); the transport is a stub that counts its calls and answers
    [200] with the body [true]; [range] visits a map in the order of
    [map_to_list]; the URL parser is the model of [url.Parse]. *)

Module stub.

Inductive value : Type :=
  | Null
  | Bool (b : bool)
  | Number (n : Z)
  | Chan.

Definition text (s : string) : list Byte.byte := list_byte_of_string s.

Definition Marshal (v : value) : list Byte.byte * option error :=
  match v with
  | Null => (text "null", None)
  | Bool true => (text "true", None)
  | Bool false => (text "false", None)
  | Number n => (text (strconv.Itoa n), None)
  | Chan => ([], Some (errorString "json: unsupported type: chan int"))
  end.

Definition Decode (b : list Byte.byte) (target : value) : value * option error :=
  let s := string_of_list_byte b in
  if String.eqb s "true" then (Bool true, None)
  else if String.eqb s "false" then (Bool false, None)
  else if String.eqb s "null" then (target, None)
  else (target, Some (errorString "invalid character looking for beginning of value")).

Definition Parse (s : string) : error + neturl.URL :=
  match neturl.Parse s with
  | Some r => r
  | None => inl (errorString "net/url: authority outside the model")
  end.

Definition env : Env :=
  mkEnv value unit nat Parse Marshal Decode (fun V m => map_to_list m).

(** The transport stub: one more call, and [200 true]. *)
Definition transport : Client env :=
  fun n _ => (S n, inr (http.mkResponse 200 (text "true"))).

(** A transport that always fails to connect. *)
Definition refused : Client env :=
  fun n _ => (S n, inl (errorString "dial tcp: connection refused")).

(** [https://api.example.com/v1/] *)
Definition base : neturl.URL :=
  neturl.set_Path "/v1/"
    (neturl.set_Host "api.example.com" (neturl.set_Scheme "https" neturl.zeroURL)).

Definition world0 : World env := @mkWorld env 0%nat [].

Definition background : option (Ctx env) := Some tt.

End stub.

(** ** Statements about calls *)

(** What one verb call logs: the log it leaves when started on an empty
    one (a call only ever appends to the log it is given). *)
Definition events {E : Env} (v : Verb) (r : Request E) (n : Net E)
    (c : option (Ctx E)) (path : string) : list (Event E) :=
  trace (call v r (mkWorld n []) c path).1.2.

(** "Verb [v] never sends the pending JSON body": on no builder with a
    pending JSON value does a request of [v] carry the serialization of
    that value. *)
Definition never_sends_pending_body (E : Env) (v : Verb) : Prop :=
  forall (r : Request E) n c path b bytes,
    body r = Some b ->
    Marshal E b = (bytes, None) ->
    forall req, req ∈ sent (events v r n c path) -> http.Body req <> bytes.

(** "The query string of the constructed request is the unescaped
    encoding of the query parameters." *)
Definition request_query_is_unescaped_encoding (E : Env) : Prop :=
  forall (r : Request E) c method path req,
    Request_Request r c method path = inr req ->
    neturl.QueryUnescape (neturl.Values_Encode (queryParams r))
    = inr (neturl.RawQuery (http.URL req)).

(** The query parameters as plain text: [key=value] pairs, keys sorted,
    joined by [&], nothing escaped. *)
Definition plain_query (v : gmap string (list string)) : string :=
  strings.Join
    (List.concat
       (List.map (fun k => List.map (fun x => k ++ "=" ++ x) (default [] (v !! k)))
                 (neturl.sorted_keys v)))
    "&".

(** The pairs of a query multimap in the order of [Values.Encode]. *)
Definition query_pairs (v : gmap string (list string)) : list (string * string) :=
  List.concat (List.map (fun k => List.map (fun x => (k, x)) (default [] (v !! k)))
                 (neturl.sorted_keys v)).

Definition escaped_pair (p : string * string) : string :=
  neturl.QueryEscape p.1 ++ "=" ++ neturl.QueryEscape p.2.

Definition plain_pair (p : string * string) : string := p.1 ++ "=" ++ p.2.

(** What [escape] writes for byte [c] in a query component is read back
    as [c] by [unescape]. *)
Definition byte_roundtrips (c : ascii) : bool :=
  if strings.is_byte " " c then true
  else if neturl.shouldEscape c neturl.encodeQueryComponent then
    let hi := neturl.upperhex (strings.code c / 16) in
    let lo := neturl.upperhex (strings.code c mod 16) in
    neturl.ishex hi && neturl.ishex lo
    && Ascii.eqb (ascii_of_nat (neturl.unhex hi * 16 + neturl.unhex lo)) c
  else negb (strings.is_byte "%" c) && negb (strings.is_byte "+" c).

(** The builder that enters [do] for a call of verb [v]: the serializing
    verbs have stored the bytes of the pending value by then. *)
Definition prepared {E : Env} (v : Verb) (r : Request E) : Request E :=
  match serializes v, body r with
  | true, Some b => set_bodyBytes (Marshal E b).1 r
  | _, _ => r
  end.

(** ** Logs, outcomes and histories of use *)

(** How often a log says the response body was closed. *)
Fixpoint closes {E : Env} (evs : list (Event E)) : nat :=
  match evs with
  | [] => 0
  | EvClose :: rest => S (closes rest)
  | _ :: rest => closes rest
  end.

(** The targets that a log says were decoded into. *)
Fixpoint decoded {E : Env} (evs : list (Event E)) : list (Any E) :=
  match evs with
  | [] => []
  | EvDecode t :: rest => t :: decoded rest
  | _ :: rest => decoded rest
  end.

(** The log that enters [do] for a call of verb [v]: the serializing
    verbs have logged their [json.Marshal] by then. *)
Definition prelogged {E : Env} (v : Verb) (r : Request E) (w : World E) : World E :=
  match serializes v, body r with
  | true, Some b => log (EvMarshal b) w
  | _, _ => w
  end.

(** The error, if any, with which the [json.Marshal] of verb [v] stops the
    call before [do]. *)
Definition marshal_fails {E : Env} (v : Verb) (r : Request E) : option error :=
  match serializes v, body r with
  | true, Some b => (Marshal E b).2
  | _, _ => None
  end.

(** One use of the builder: a configuration method or a verb call. *)
Inductive Step {E : Env} : Type :=
  | SWithHeader (key value : string)
  | SWithQueryParam (key value : string)
  | SWithJSONBody (b : option (Any E))
  | SWithBodyBytes (b : list Byte.byte)
  | SWithAuthorization (token : string)
  | SWithHeaders (hs : gmap string string)
  | SWithQueryParams (qs : gmap string (list string))
  | SWithResult (x : option (Any E))
  | SCall (v : Verb) (c : option (Ctx E)) (path : string).
Arguments Step : clear implicits.

(** What one use does to the builder and the world. *)
Definition step {E : Env} (s : Step E) (st : Request E * World E)
  : Request E * World E :=
  match s with
  | SWithHeader key value => (WithHeader key value st.1, st.2)
  | SWithQueryParam key value => (WithQueryParam key value st.1, st.2)
  | SWithJSONBody b => (WithJSONBody b st.1, st.2)
  | SWithBodyBytes b => (WithBodyBytes b st.1, st.2)
  | SWithAuthorization token => (WithAuthorization token st.1, st.2)
  | SWithHeaders hs => (WithHeaders hs st.1, st.2)
  | SWithQueryParams qs => (WithQueryParams qs st.1, st.2)
  | SWithResult x => (WithResult x st.1, st.2)
  | SCall v c path => (call v st.1 st.2 c path).1
  end.

(** A history of uses, oldest first. *)
Definition run {E : Env} (steps : list (Step E)) (st : Request E * World E)
  : Request E * World E :=
  foldl (fun st s => step s st) st steps.

(** No header name of [hs] other than [k] itself is a spelling of [k]. *)
Definition only_spelling (hs : gmap string string) (k : string) : bool :=
  forallb (fun k' =>
             implb (String.eqb (http.CanonicalMIMEHeaderKey k')
                               (http.CanonicalMIMEHeaderKey k))
                   (String.eqb k' k))
          (map_to_list hs).*1.

(** A transport stub that answers [200] with a body that is not JSON. *)
Definition garbled : Client stub.env :=
  fun n _ => (S n, inr (http.mkResponse 200 (stub.text "tru"))).

(** Builders for the examples, all on the stub environment. *)
Module sample.

Definition fresh : Request stub.env :=
  New stub.env stub.base stub.transport "application/json".

Definition traced : Request stub.env := WithHeader "x-trace-id" "7" fresh.

Definition authorized : Request stub.env := WithAuthorization "abc" fresh.

Definition seventeen : list Byte.byte := stub.text "12345678901234567".

Definition sized : Request stub.env :=
  WithBodyBytes seventeen (WithHeader "Content-Length" "5" fresh).

Definition with_target : Request stub.env := @WithResult stub.env (Some stub.Null) fresh.

Definition unreachable : Request stub.env :=
  New stub.env stub.base stub.refused "application/json".

Definition misanswered : Request stub.env :=
  @WithResult stub.env (Some stub.Null)
    (New stub.env stub.base garbled "application/json").

Definition with_JSON : Request stub.env := @WithJSONBody stub.env (Some (stub.Number 42)) fresh.

(** A history of uses: configuration, a [Post], a merge of headers, a
    [Get] that fails on its path, one more query parameter. *)
Definition history : list (Step stub.env) :=
  [SWithHeader "X-Trace" "1"; @SWithJSONBody stub.env (Some (stub.Number 42));
   SCall VPost stub.background "widgets"; SWithHeaders {["Accept" := "text/xml"]};
   SCall VGet stub.background "%zz"; SWithQueryParam "page" "2"].

End sample.

(** ** Shapes of URLs and of their texts *)

(** Neither [?] nor [#] occurs in [s]. *)
Definition no_marks (s : string) : bool :=
  negb (strings.ContainsByte s "?") && negb (strings.ContainsByte s "#").

(** [s] up to its first [#]. *)
Definition before_hash (s : string) : string := (strings.Cut s "#").1.1.

(** The scheme and the opaque part of [u] hold neither [?] nor [#], as in
    every URL that [url.Parse] returns. *)
Definition well_formed (u : neturl.URL) : bool :=
  no_marks (neturl.Scheme u) && no_marks (neturl.Opaque u).

(** The query part of a URL text: nothing, or [?] and the query. *)
Definition query_text (hasq : bool) (q : string) : string :=
  if hasq then String "?" q else "".

(** The parts of a URL in which [?] and [#] are always escaped: the host,
    the user information and the path. *)
Definition escapes_marks (mode : neturl.encoding) : bool :=
  match mode with
  | neturl.encodePath | neturl.encodeHost | neturl.encodeUserPassword => true
  | _ => false
  end.

(** Every byte of [s] stands for itself in a path: none is escaped. *)
Fixpoint plain_path (s : string) : bool :=
  match s with
  | EmptyString => true
  | String c rest => negb (neturl.shouldEscape c neturl.encodePath) && plain_path rest
  end.

(** No element of the path [s] is [.] or [..]. *)
Definition dot_free (s : string) : bool :=
  forallb (fun e => negb (String.eqb e ".") && negb (String.eqb e ".."))
          (neturl.split_slash s).

(** The path [ref] merged into the path [base] (RFC 3986, 5.2.3): [ref]
    itself when it is absolute, else [base] up to its last [/] followed by
    [ref]. *)
Definition merged (base ref : string) : string :=
  if strings.HasPrefix ref "/" then ref else strings.UpToLast base "/" ++ ref.

(** A call path that is just a path: not empty, of plain bytes, without a
    colon, and not starting with [//]. *)
Definition simple_path (s : string) : bool :=
  negb (strings.is_empty s) && plain_path s
  && negb (strings.ContainsByte s ":") && negb (strings.HasPrefix s "//").

(** A URL made of a scheme, user information, a host and a path. *)
Definition hierarchical (scheme : string) (user : option neturl.Userinfo)
    (host path : string) : neturl.URL :=
  neturl.mkURL scheme "" user host path "" false false "" "" "".

(** The elements written one after the other, a [/] before each but, when
    [first], the first. *)
Fixpoint written (first : bool) (elems : list string) : string :=
  match elems with
  | [] => ""
  | e :: es => (if first then "" else "/") ++ e ++ written false es
  end.

(** Every byte of [s] is a lower-case letter. *)
Fixpoint lower_letters (s : string) : bool :=
  match s with
  | EmptyString => true
  | String c rest => strings.between "a" "z" c && lower_letters rest
  end.

(** A byte of a plain host name: a letter, a digit, [-], [.], [_] or [~]. *)
Definition host_byte (c : ascii) : bool :=
  strings.between "a" "z" c || strings.between "A" "Z" c
  || strings.between "0" "9" c || strings.one_of "-._~" c.

Fixpoint host_bytes (s : string) : bool :=
  match s with
  | EmptyString => true
  | String c rest => host_byte c && host_bytes rest
  end.

(** A base URL made of a scheme in lower-case letters, a plain host name
    without a port and an absolute path of plain bytes (its query and
    fragment, if any, play no part in resolving a path against it). *)
Definition simple_base (u : neturl.URL) : bool :=
  negb (strings.is_empty (neturl.Scheme u)) && lower_letters (neturl.Scheme u)
  && strings.is_empty (neturl.Opaque u)
  && bool_decide (neturl.User u = None)
  && negb (strings.is_empty (neturl.Host u)) && host_bytes (neturl.Host u)
  && strings.HasPrefix (neturl.Path u) "/" && plain_path (neturl.Path u)
  && strings.is_empty (neturl.RawPath u).

(** ** Statements about resolution and later calls *)

(** The claim C7 as the specification words it: the URL of the request is
    the call path resolved, as a URL reference, against the base URL. *)
Definition request_URL_is_resolution (E : Env) : Prop :=
  forall (r : Request E) c method path ref req,
    Parse E path = inr ref ->
    Request_Request r c method path = inr req ->
    http.URL req = neturl.ResolveReference (url r) ref.

(** Verb calls one after the other, as a history of uses. *)
Definition verb_calls {E : Env} (l : list (Verb * option (Ctx E) * string))
  : list (Step E) :=
  List.map (fun x => SCall x.1.1 x.1.2 x.2) l.

(** * Properties *)

(** ** Maps written by a [range] loop *)

Section assign.
Context {V : Type}.

(** Assigning the entries of a list one after the other: an entry that
    comes later wins over an earlier one for the same key. *)
Lemma foldl_assign (l : list (string * V)) (dst : gmap string V) :
  foldl (fun acc kv => <[kv.1 := kv.2]> acc) dst l
  = list_to_map (reverse l) ∪ dst.
Proof.
  revert dst. induction l as [|[k v] l IH]; intros dst.
  - cbn. by rewrite (left_id_L ∅ (∪)).
  - cbn [foldl fst snd]. rewrite IH, reverse_cons, list_to_map_app.
    rewrite <- (assoc_L (∪)). f_equal. cbn.
    by rewrite insert_union_singleton_l, insert_empty.
Qed.

(** When the list enumerates a map, the order does not show. *)
Lemma foldl_assign_range (l : list (string * V)) (m dst : gmap string V) :
  l ≡ₚ map_to_list m ->
  foldl (fun acc kv => <[kv.1 := kv.2]> acc) dst l = m ∪ dst.
Proof.
  intros Hl. rewrite foldl_assign. f_equal.
  rewrite <- (list_to_map_to_list m).
  apply list_to_map_proper.
  - rewrite reverse_Permutation, Hl. apply NoDup_fst_map_to_list.
  - by rewrite reverse_Permutation.
Qed.

End assign.

Lemma assign_all_union (E : Env) {V : Type} (m dst : gmap string V) :
  range_visits_all E -> assign_all E m dst = m ∪ dst.
Proof. intros Hr. apply foldl_assign_range, Hr. Qed.

Lemma stub_range_visits_all : range_visits_all stub.env.
Proof. intros V m. reflexivity. Qed.

(** ** Query strings: unescaping undoes the encoding *)

Section query.
Import neturl strings.

Lemma all_bytes_roundtrip c : byte_roundtrips c = true.
Proof. destruct c as [[] [] [] [] [] [] [] []]; vm_compute; reflexivity. Qed.

Lemma append_String a x y : String a x ++ y = String a (x ++ y).
Proof. reflexivity. Qed.

Lemma escape_query_cons c rest :
  escape (String c rest) encodeQueryComponent
  = if is_byte " " c then String "+" (escape rest encodeQueryComponent)
    else if shouldEscape c encodeQueryComponent then
      String "%" (String (upperhex (code c / 16))
                    (String (upperhex (code c mod 16)) (escape rest encodeQueryComponent)))
    else String c (escape rest encodeQueryComponent).
Proof. cbn [escape is_query_mode]. by rewrite andb_true_r. Qed.

Lemma unescape_check_pct a b t :
  ishex a = true -> ishex b = true ->
  unescape_check (String "%" (String a (String b t))) encodeQueryComponent
  = unescape_check t encodeQueryComponent.
Proof. intros Ha Hb. cbn [unescape_check]. change (is_byte "%" "%") with true. cbn iota. by rewrite Ha, Hb. Qed.

Lemma unescape_check_plain c t :
  is_byte "%" c = false ->
  unescape_check (String c t) encodeQueryComponent = unescape_check t encodeQueryComponent.
Proof. intros Hc. cbn [unescape_check]. rewrite Hc. cbn [is_host_mode andb]. by destruct (is_byte "+" c). Qed.

Lemma unescape_build_pct a b t :
  unescape_build (String "%" (String a (String b t))) encodeQueryComponent
  = String (ascii_of_nat (unhex a * 16 + unhex b)) (unescape_build t encodeQueryComponent).
Proof. reflexivity. Qed.

Lemma unescape_build_plain c t :
  is_byte "%" c = false -> is_byte "+" c = false ->
  unescape_build (String c t) encodeQueryComponent = String c (unescape_build t encodeQueryComponent).
Proof. intros H1 H2. cbn [unescape_build]. by rewrite H1, H2. Qed.

Lemma unescape_escape s t :
  unescape_check (escape s encodeQueryComponent ++ t) encodeQueryComponent
  = unescape_check t encodeQueryComponent
  /\ unescape_build (escape s encodeQueryComponent ++ t) encodeQueryComponent
     = s ++ unescape_build t encodeQueryComponent.
Proof.
  induction s as [|c s [IH1 IH2]]; [done|].
  rewrite escape_query_cons.
  pose proof (all_bytes_roundtrip c) as Hc. unfold byte_roundtrips in Hc.
  destruct (is_byte " " c) eqn:Hsp.
  - apply Ascii.eqb_eq in Hsp as <-. rewrite !append_String.
    rewrite unescape_check_plain by done. split; [done|].
    change (unescape_build (String "+" ?x) _) with (String " " (unescape_build x encodeQueryComponent)).
    by rewrite IH2.
  - destruct (shouldEscape c encodeQueryComponent).
    + apply andb_prop in Hc as [[Hhi Hlo]%andb_prop Heq]. apply Ascii.eqb_eq in Heq.
      rewrite !append_String. rewrite unescape_check_pct, unescape_build_pct by done.
      cbn zeta in Heq. rewrite Heq. split; [done|]. by rewrite IH2.
    + apply andb_prop in Hc as [Hp Hq]. apply negb_true_iff in Hp, Hq.
      rewrite !append_String. rewrite unescape_check_plain, unescape_build_plain by done.
      split; [done|]. by rewrite IH2.
Qed.

Lemma unescape_pair k x t :
  unescape_check (QueryEscape k ++ "=" ++ QueryEscape x ++ t) encodeQueryComponent
  = unescape_check t encodeQueryComponent
  /\ unescape_build (QueryEscape k ++ "=" ++ QueryEscape x ++ t) encodeQueryComponent
     = k ++ "=" ++ x ++ unescape_build t encodeQueryComponent.
Proof.
  unfold QueryEscape.
  destruct (unescape_escape k ("=" ++ escape x encodeQueryComponent ++ t)) as [-> ->].
  change ("=" ++ ?y) with (String "=" y).
  rewrite unescape_check_plain, unescape_build_plain by done.
  by destruct (unescape_escape x t) as [-> ->].
Qed.

Lemma append_assoc (a b c : string) : (a ++ b) ++ c = a ++ b ++ c.
Proof. induction a; [done|]. rewrite !append_String. by f_equal. Qed.

Lemma append_nil_r (s : string) : s ++ "" = s.
Proof. induction s; cbn; [done|]. rewrite append_String. by f_equal. Qed.

Lemma unescape_Join (l : list (string * string)) :
  unescape_check (Join (List.map escaped_pair l) "&") encodeQueryComponent = None
  /\ unescape_build (Join (List.map escaped_pair l) "&") encodeQueryComponent
     = Join (List.map plain_pair l) "&".
Proof.
  induction l as [|[k x] l [IH1 IH2]]; [done|].
  destruct l as [|p l].
  - cbn [List.map Join]. unfold escaped_pair, plain_pair. cbn [fst snd].
    rewrite <- (append_nil_r (QueryEscape x)).
    destruct (unescape_pair k x "") as [-> ->]. rewrite !append_nil_r. done.
  - change (Join (List.map escaped_pair ((k, x) :: p :: l)) "&")
      with (escaped_pair (k, x) ++ "&" ++ Join (List.map escaped_pair (p :: l)) "&").
    change (Join (List.map plain_pair ((k, x) :: p :: l)) "&")
      with (plain_pair (k, x) ++ "&" ++ Join (List.map plain_pair (p :: l)) "&").
    unfold escaped_pair at 1 3, plain_pair at 1. cbn [fst snd].
    rewrite !append_assoc.
    destruct (unescape_pair k x ("&" ++ Join (List.map escaped_pair (p :: l)) "&"))
      as [-> ->].
    change ("&" ++ ?y) with (String "&" y).
    rewrite unescape_check_plain, unescape_build_plain by done.
    rewrite IH1, IH2. done.
Qed.

Lemma Values_Encode_pairs v :
  Values_Encode v = Join (List.map escaped_pair (query_pairs v)) "&".
Proof.
  unfold Values_Encode, query_pairs. f_equal.
  induction (sorted_keys v) as [|k ks IH]; [done|].
  cbn [List.map List.concat]. rewrite List.map_app, IH. f_equal.
  unfold encode_key. by rewrite List.map_map.
Qed.

Lemma plain_query_pairs v :
  plain_query v = Join (List.map plain_pair (query_pairs v)) "&".
Proof.
  unfold plain_query, query_pairs. f_equal.
  induction (sorted_keys v) as [|k ks IH]; [done|].
  cbn [List.map List.concat]. rewrite List.map_app, IH. f_equal.
  by rewrite List.map_map.
Qed.

Lemma QueryUnescape_Values_Encode v :
  QueryUnescape (Values_Encode v) = inr (plain_query v).
Proof.
  unfold QueryUnescape, unescape. rewrite Values_Encode_pairs, plain_query_pairs.
  by destruct (unescape_Join (query_pairs v)) as [-> ->].
Qed.

End query.

(** ** Configuration *)

(** C8. Setting a header with [WithHeader] and then setting the same key
    again leaves the later value under that key, and only it: the header
    map is the original one with the key bound to the later value, every
    other key reads as before, and no other field of the builder moves. *)
Theorem WithHeader_last_write_wins (E : Env) (r : Request E) (key v1 v2 : string) :
  let r' := WithHeader key v2 (WithHeader key v1 r) in
  headers r' !! key = Some v2
  /\ headers r' = <[key := v2]> (headers r)
  /\ (forall k, headers r' !! k = if decide (key = k) then Some v2 else headers r !! k)
  /\ r' = WithHeader key v2 r.
Proof.
  cbn. unfold WithHeader. cbn. rewrite insert_insert_eq.
  repeat split.
  - apply lookup_insert_eq.
  - intros k. apply lookup_insert.
Qed.

(** One addition appends one value to the sequence of the key. *)
Lemma WithQueryParam_lookup (E : Env) (r : Request E) (key value k : string) :
  queryParams (WithQueryParam key value r) !! k
  = if decide (key = k) then Some (default [] (queryParams r !! key) ++ [value])%list
    else queryParams r !! k.
Proof. unfold WithQueryParam, neturl.Values_Add. cbn. apply lookup_insert. Qed.

Lemma add_each_queryParams (E : Env) (key : string) (values : list string) (r : Request E) :
  queryParams (add_each key values r)
  = match values with
    | [] => queryParams r
    | _ => <[key := (default [] (queryParams r !! key) ++ values)%list]> (queryParams r)
    end.
Proof.
  unfold add_each. revert r. induction values as [|v vs IH]; intros r; [done|].
  cbn [foldl]. destruct vs as [|v' vs].
  - reflexivity.
  - rewrite IH. unfold WithQueryParam, neturl.Values_Add. cbn.
    rewrite lookup_insert_eq, insert_insert_eq. cbn.
    by rewrite <- (assoc_L (++)).
Qed.

(** C9. Each [WithQueryParam] appends one value to the sequence of its key
    and clears nothing: after adding [v :: vs] to a key, in that order, the
    key holds its earlier values followed by [v :: vs]; every other key
    reads as before; on a new builder the key holds exactly the [n] values
    added, in the order of the additions. *)
Theorem WithQueryParam_accumulates (E : Env) (r : Request E) (key v : string)
    (vs : list string) :
  queryParams (WithQueryParam key v r) !! key
    = Some (default [] (queryParams r !! key) ++ [v])%list
  /\ (forall k, queryParams (add_each key (v :: vs) r) !! k
        = if decide (key = k)
          then Some (default [] (queryParams r !! key) ++ v :: vs)%list
          else queryParams r !! k)
  /\ (forall u cl accepts,
        queryParams (add_each key (v :: vs) (New E u cl accepts)) !! key = Some (v :: vs))
  /\ (forall u cl accepts,
        List.length <$> queryParams (add_each key (v :: vs) (New E u cl accepts)) !! key
        = Some (S (List.length vs))).
Proof.
  assert (H : forall r0 : Request E, forall k,
             queryParams (add_each key (v :: vs) r0) !! k
             = if decide (key = k)
               then Some (default [] (queryParams r0 !! key) ++ v :: vs)%list
               else queryParams r0 !! k).
  { intros r0 k. rewrite add_each_queryParams. apply lookup_insert. }
  split; [|split; [|split]].
  - rewrite WithQueryParam_lookup. by rewrite decide_True.
  - apply H.
  - intros u cl accepts. rewrite H, decide_True by done. reflexivity.
  - intros u cl accepts. rewrite H, decide_True by done. reflexivity.
Qed.

(** C3. [WithQueryParams] overwrites by key: a key of the incoming multimap
    gets the incoming value list in place of whatever the builder held for
    it, and a key that the incoming multimap lacks keeps its list. *)
Theorem WithQueryParams_overwrites_by_key (E : Env) (r : Request E)
    (qs : gmap string (list string)) (Hrange : range_visits_all E) :
  queryParams (WithQueryParams qs r) = qs ∪ queryParams r
  /\ forall k, queryParams (WithQueryParams qs r) !! k
       = match qs !! k with
         | Some incoming => Some incoming
         | None => queryParams r !! k
         end.
Proof.
  assert (Heq : queryParams (WithQueryParams qs r) = qs ∪ queryParams r).
  { unfold WithQueryParams. cbn. by apply assign_all_union. }
  split; [done|]. intros k. rewrite Heq, lookup_union.
  destruct (qs !! k), (queryParams r !! k); reflexivity.
Qed.

(** On a builder that holds [a = 1, 2] and [b = 9], merging [a = 3] leaves
    [a = 3] and [b = 9]. *)
Lemma WithQueryParams_overwrites_by_key_witness :
  let r := WithQueryParam "b" "9" (add_each "a" ["1"; "2"]
             (New stub.env stub.base stub.transport "application/json")) in
  range_visits_all stub.env
  /\ queryParams r !! "a" = Some ["1"; "2"]
  /\ queryParams (WithQueryParams {["a" := ["3"]]} r) !! "a" = Some ["3"]
  /\ queryParams (WithQueryParams {["a" := ["3"]]} r) !! "b" = Some ["9"].
Proof.
  cbn zeta. split; [exact stub_range_visits_all|]. split; [reflexivity|].
  pose proof (WithQueryParams_overwrites_by_key stub.env
                (WithQueryParam "b" "9" (add_each "a" ["1"; "2"]
                   (New stub.env stub.base stub.transport "application/json")))
                {["a" := ["3"]]} stub_range_visits_all) as [_ H].
  split; rewrite H; reflexivity.
Defined.

(** ** Building and sending *)

Section calls.
Context {E : Env}.
Implicit Types (r : Request E) (w : World E) (c : option (Ctx E)).

Lemma NewRequestWithContext_inr c method urlstr (b : list Byte.byte) req :
  http.NewRequestWithContext (Parse E) c method urlstr b = inr req ->
  exists cx u,
    c = Some cx /\ Parse E urlstr = inr u
    /\ req = http.mkRequest cx (if strings.is_empty method then "GET" else method)
               (neturl.set_Host (http.removeEmptyPort (neturl.Host u)) u) ∅ b
               (Z.of_nat (List.length b))
               (neturl.Host (neturl.set_Host (http.removeEmptyPort (neturl.Host u)) u)).
Proof.
  unfold http.NewRequestWithContext.
  destruct (negb _); [discriminate|].
  destruct c as [cx|]; [|discriminate].
  destruct (Parse E urlstr) as [e|u] eqn:Hu; cbn; [discriminate|].
  intros [= <-]. exists cx, u. auto.
Qed.

(** A request that [Request.Request] returns was built in the four
    steps of the source. *)
Lemma Request_Request_inr r c method path req :
  Request_Request r c method path = inr req ->
  exists ref q req0,
    Parse E path = inr ref
    /\ neturl.QueryUnescape (neturl.Values_Encode (queryParams r)) = inr q
    /\ http.NewRequestWithContext (Parse E) c method
         (neturl.URL_String (request_url r ref q)) (bodyBytes r) = inr req0
    /\ req = http.set_Header (request_header r (http.Header req0)) req0.
Proof.
  unfold Request_Request.
  destruct (Parse E path) as [e|ref]; cbn; [discriminate|].
  destruct (neturl.QueryUnescape _) as [e|q]; cbn; [discriminate|].
  destruct (http.NewRequestWithContext _ _ _ _ _) as [e|req0] eqn:Hreq; cbn;
    [discriminate|].
  intros [= <-]. exists ref, q, req0. auto.
Qed.

(** The body of a built request is the stored byte body, and its header
    is [request_header] from an empty one. *)
Lemma Request_Request_Body r c method path req :
  Request_Request r c method path = inr req ->
  http.Body req = bodyBytes r /\ http.Header req = request_header r ∅.
Proof.
  intros (ref & q & req0 & _ & _ & Hnew & ->)%Request_Request_inr.
  apply NewRequestWithContext_inr in Hnew as (cx & u & _ & _ & ->). done.
Qed.

(** The pending JSON value and the decode target play no part in
    building a request. *)
Lemma Request_Request_set_body r b c method path :
  Request_Request (set_body b r) c method path = Request_Request r c method path.
Proof. reflexivity. Qed.

(** [do] changes nothing in the builder but what the decode target
    holds, serializes nothing, and hands at most one request to the
    transport: the one that [Request.Request] built. *)
Lemma do_frame r w c method path r' w' res :
  do r w c method path = (r', w', res) ->
  r' = set_result (result r') r
  /\ exists evs,
       trace w' = (trace w ++ evs)%list
       /\ marshalled evs = []
       /\ (match Request_Request r c method path with
           | inl e => evs = [] /\ res = inl e /\ w' = w
           | inr req => sent evs = [req]
           end).
Proof.
  unfold do. destruct r as [cl u hs qs b bs tgt].
  destruct (Request_Request _ c method path) as [e|req] eqn:Hreq.
  - intros [= <- <- <-]. split; [done|]. exists []. by rewrite app_nil_r.
  - cbn [client net result]. destruct (cl (net w) req) as [n [e|resp]].
    + intros [= <- <- <-]. split; [done|]. by exists [EvDo req].
    + destruct tgt as [target|].
      * destruct (Decode E _ target) as [target' [e|]].
        -- intros [= <- <- <-]. split; [done|].
           exists [EvDo req; EvDecode target; EvClose]. cbn.
           by rewrite <- !(assoc_L (++)).
        -- intros [= <- <- <-]. split; [done|].
           exists [EvDo req; EvDecode target; EvClose]. cbn.
           by rewrite <- !(assoc_L (++)).
      * intros [= <- <- <-]. split; [done|].
        exists [EvDo req; EvClose]. cbn. by rewrite <- !(assoc_L (++)).
Qed.

(** Every verb call: the state left behind is the prepared builder up to
    the content of the decode target; every request handed to the
    transport carries the byte body stored at that moment. *)
Lemma call_frame v r w c path r' w' res :
  call v r w c path = (r', w', res) ->
  r' = set_result (result r') (prepared v r)
  /\ exists evs,
       trace w' = (trace w ++ evs)%list
       /\ (forall req, req ∈ sent evs -> http.Body req = bodyBytes r')
       /\ (serializes v = false -> marshalled evs = []).
Proof.
  assert (Hdo : forall method r0 w0,
             do r0 w0 c method path = (r', w', res) ->
             r' = set_result (result r') r0
             /\ exists evs,
                  trace w' = (trace w0 ++ evs)%list
                  /\ (forall req, req ∈ sent evs -> http.Body req = bodyBytes r')
                  /\ marshalled evs = []).
  { intros method r0 w0 Hcall.
    apply do_frame in Hcall as (Hr & evs & Htr & Hm & Hsent).
    split; [done|]. exists evs. split; [done|]. split; [|done].
    intros req Hin. rewrite Hr. cbn.
    destruct (Request_Request r0 c method path) as [e|req0] eqn:Hreq.
    - destruct Hsent as (-> & _). by apply elem_of_nil in Hin.
    - rewrite Hsent in Hin. apply list_elem_of_singleton in Hin as ->.
      by apply Request_Request_Body in Hreq as [-> _]. }
  assert (Hser : forall method,
             match body r with
             | Some b =>
                 let '(bytes, err) := Marshal E b in
                 match err with
                 | Some err => (set_bodyBytes bytes r, log (EvMarshal b) w, inl err)
                 | None => do (set_bodyBytes bytes r) (log (EvMarshal b) w) c method path
                 end
             | None => do r w c method path
             end = (r', w', res) ->
             r' = set_result (result r')
                    (match body r with
                     | Some b => set_bodyBytes (Marshal E b).1 r
                     | None => r
                     end)
             /\ exists evs,
                  trace w' = (trace w ++ evs)%list
                  /\ (forall req, req ∈ sent evs -> http.Body req = bodyBytes r')
                  /\ (true = false -> marshalled evs = [])).
  { intros method. destruct (body r) as [b|] eqn:Hb.
    - destruct (Marshal E b) as [bytes [e|]] eqn:Hm; cbn [fst].
      + intros [= <- <- <-]. split; [done|]. exists [EvMarshal b].
        split; [done|]. split; [|done]. intros req Hin. by apply elem_of_nil in Hin.
      + intros (Hr & evs & Htr & Hbody & _)%Hdo. split; [done|].
        exists (EvMarshal b :: evs). split; [|split; [done|done]].
        rewrite Htr. cbn. by rewrite <- (assoc_L (++)).
    - intros (Hr & evs & Htr & Hbody & _)%Hdo. split; [done|].
      exists evs. done. }
  unfold prepared.
  destruct v; cbn [call serializes Get Post Put Patch Delete];
    first [ apply Hser
          | intros (Hr & evs & Htr & Hbody & Hm)%Hdo; split; [done|];
            exists evs; done ].
Qed.

End calls.

(** ** The verbs *)

Section verbs.
Context {E : Env}.
Implicit Types (r : Request E) (w : World E) (c : option (Ctx E)).

Lemma sent_app (l1 l2 : list (Event E)) : sent (l1 ++ l2) = (sent l1 ++ sent l2)%list.
Proof.
  induction l1 as [|ev l1 IH]; [done|]. destruct ev; cbn; by rewrite ?IH.
Qed.

Lemma marshalled_app (l1 l2 : list (Event E)) :
  marshalled (l1 ++ l2) = (marshalled l1 ++ marshalled l2)%list.
Proof.
  induction l1 as [|ev l1 IH]; [done|]. destruct ev; cbn; by rewrite ?IH.
Qed.

(** A serializing verb whose [json.Marshal] fails stops there. *)
Lemma call_marshal_failure v r w c path b bytes e :
  serializes v = true ->
  body r = Some b ->
  Marshal E b = (bytes, Some e) ->
  call v r w c path = (set_bodyBytes bytes r, log (EvMarshal b) w, inl e).
Proof.
  intros Hv Hb Hm.
  destruct v; try discriminate; cbn [call]; unfold Post, Put, Patch;
    by rewrite Hb, Hm.
Qed.

(** A serializing verb whose [json.Marshal] succeeds goes on to [do]
    with the bytes stored. *)
Lemma call_marshal_success v r w c path b bytes :
  serializes v = true ->
  body r = Some b ->
  Marshal E b = (bytes, None) ->
  call v r w c path
  = do (set_bodyBytes bytes r) (log (EvMarshal b) w) c (method_of v) path.
Proof.
  intros Hv Hb Hm.
  destruct v; try discriminate; cbn [call]; unfold Post, Put, Patch;
    by rewrite Hb, Hm.
Qed.

(** [Get] and [Delete] are [do]. *)
Lemma call_not_serializing v r w c path :
  serializes v = false ->
  call v r w c path = do r w c (method_of v) path.
Proof. by destruct v. Qed.

(** The pending JSON value rides through [do] untouched and unread. *)
Lemma do_set_body r b w c method path :
  do (set_body b r) w c method path
  = let '(r', w', res) := do r w c method path in (set_body b r', w', res).
Proof.
  unfold do. rewrite Request_Request_set_body.
  destruct (Request_Request r c method path) as [e|req]; [done|].
  cbn [client set_body result]. destruct (client r (net w) req) as [n [e|resp]]; [done|].
  destruct (result r) as [target|]; [|done].
  destruct (Decode E _ target) as [target' [e|]]; done.
Qed.

End verbs.

(** C4. When [json.Marshal] fails on the pending JSON body, [Post] (and
    likewise [Put] and [Patch]) returns that very error and the transport
    is not invoked: the call logs the serialization attempt and nothing
    else, and the network is as it was. *)
Theorem marshal_failure_sends_nothing (E : Env) (v : Verb) (r : Request E) (w : World E)
    (c : option (Ctx E)) (path : string) (b : Any E) (bytes : list Byte.byte) (e : error)
    (Hverb : serializes v = true)
    (Hbody : body r = Some b)
    (Hfail : Marshal E b = (bytes, Some e)) :
  let '(r', w', res) := call v r w c path in
  res = inl e
  /\ trace w' = (trace w ++ [EvMarshal b])%list
  /\ sent (trace w') = sent (trace w)
  /\ net w' = net w.
Proof.
  rewrite (call_marshal_failure v r w c path b bytes e) by done.
  cbn. rewrite sent_app. cbn. by rewrite app_nil_r.
Qed.

(** [Post] with a channel as JSON body: the error of [json.Marshal] comes
    back and the transport stub has not been called. *)
Lemma marshal_failure_sends_nothing_witness :
  let r := @WithJSONBody stub.env (Some stub.Chan)
             (New stub.env stub.base stub.transport "application/json") in
  let '(r', w', res) := call VPost r stub.world0 stub.background "widgets" in
  res = inl (errorString "json: unsupported type: chan int")
  /\ trace w' = ([] ++ [@EvMarshal stub.env stub.Chan])%list
  /\ sent (trace w') = []
  /\ net w' = 0%nat.
Proof.
  exact (marshal_failure_sends_nothing stub.env VPost
           (@WithJSONBody stub.env (Some stub.Chan)
              (New stub.env stub.base stub.transport "application/json"))
           stub.world0 stub.background "widgets" stub.Chan []
           (errorString "json: unsupported type: chan int")
           eq_refl eq_refl eq_refl).
Defined.

(** C5. A verb call that fails, at whatever step, leaves the header map
    and the query parameters of the builder as they were (and the base URL,
    the transport and the pending JSON value): the builder differs from
    the one before the call at most in the stored byte body and in what the
    decode target holds. It remains usable: a later call builds its
    request from the same configuration. *)
Theorem failed_call_keeps_configuration (E : Env) (v : Verb) (r r' : Request E)
    (w w' : World E) (c : option (Ctx E)) (path : string) (e : error)
    (Hfail : call v r w c path = (r', w', inl e)) :
  headers r' = headers r
  /\ queryParams r' = queryParams r
  /\ url r' = url r
  /\ body r' = body r
  /\ r' = set_result (result r') (set_bodyBytes (bodyBytes r') r)
  /\ forall c2 method path2,
       Request_Request r' c2 method path2
       = Request_Request (set_bodyBytes (bodyBytes r') r) c2 method path2.
Proof.
  apply call_frame in Hfail as [Hr _].
  assert (Hp : prepared v r = set_bodyBytes (bodyBytes (prepared v r)) r).
  { unfold prepared. destruct (serializes v), (body r); by destruct r. }
  rewrite Hr. cbn. rewrite Hp. cbn. repeat split; done.
Qed.

(** A [Get] through a transport that fails to connect; the builder keeps
    its two headers and its query parameter. *)
Lemma failed_call_keeps_configuration_witness :
  let r := WithQueryParam "page" "2" (WithHeader "X-Trace" "1"
             (New stub.env stub.base stub.refused "application/json")) in
  let '(r', w', res) := call VGet r stub.world0 stub.background "widgets" in
  res = inl (errorString "dial tcp: connection refused")
  /\ headers r' = headers r
  /\ queryParams r' = queryParams r.
Proof.
  cbn zeta.
  destruct (call VGet _ stub.world0 stub.background "widgets") as [[r' w'] res] eqn:Hcall.
  assert (Hres : res = inl (errorString "dial tcp: connection refused")).
  { apply (f_equal snd) in Hcall. cbn [snd] in Hcall. rewrite <- Hcall. reflexivity. }
  split; [exact Hres|]. subst res.
  pose proof (failed_call_keeps_configuration stub.env VGet _ r' stub.world0 w'
                stub.background "widgets" _ Hcall) as (Hh & Hq & _).
  split; [exact Hh|exact Hq].
Defined.

(** C1, as amended. [Get] and [Delete] never serialize: they log no
    [json.Marshal], leave the pending JSON value and the stored byte body
    as they are, and run exactly as they would with any other pending
    value, or none. The body of the request they send is the byte body
    that the builder stored before the call. So the JSON value is not sent
    unless its bytes were stored earlier, by [WithBodyBytes] or by a
    [Post], [Put] or [Patch] on the same builder. *)
Theorem Get_Delete_do_not_serialize (E : Env) (v : Verb) (r r' : Request E)
    (w w' : World E) (c : option (Ctx E)) (path : string)
    (res : error + option (Any E))
    (Hverb : serializes v = false)
    (Hcall : call v r w c path = (r', w', res)) :
  body r' = body r
  /\ bodyBytes r' = bodyBytes r
  /\ (exists evs,
        trace w' = (trace w ++ evs)%list
        /\ marshalled evs = []
        /\ forall req, req ∈ sent evs -> http.Body req = bodyBytes r)
  /\ forall b, call v (set_body b r) w c path = (set_body b r', w', res).
Proof.
  pose proof Hcall as (Hr & evs & Htr & Hsent & Hm)%call_frame.
  assert (Hp : prepared v r = r) by (unfold prepared; by rewrite Hverb).
  rewrite Hp in Hr.
  assert (Hbytes : bodyBytes r' = bodyBytes r) by (by rewrite Hr).
  split; [by rewrite Hr|]. split; [done|]. split.
  - exists evs. rewrite <- Hbytes. auto.
  - intros b. rewrite call_not_serializing in Hcall |- * by done.
    by rewrite do_set_body, Hcall.
Qed.

(** [Get] on a new builder with a pending JSON value: nothing is
    serialized and the request goes out with an empty body. *)
Lemma Get_Delete_do_not_serialize_witness :
  let r := @WithJSONBody stub.env (Some (stub.Number 42))
             (New stub.env stub.base stub.transport "application/json") in
  let '(r', w', res) := call VGet r stub.world0 stub.background "widgets" in
  body r' = Some (stub.Number 42)
  /\ bodyBytes r' = []
  /\ marshalled (trace w') = []
  /\ List.map http.Body (sent (trace w')) = [[]].
Proof.
  cbn zeta.
  destruct (call VGet _ stub.world0 stub.background "widgets") as [[r' w'] res] eqn:Hcall.
  pose proof (Get_Delete_do_not_serialize stub.env VGet _ r' stub.world0 w'
                stub.background "widgets" res eq_refl Hcall) as (Hb & Hbb & _ & _).
  split; [exact Hb|]. split; [exact Hbb|].
  apply (f_equal (fun x => trace x.1.2)) in Hcall. cbn [fst snd] in Hcall.
  rewrite <- Hcall. split; reflexivity.
Defined.

(** C1, as stated, fails: after a [Post] has serialized the pending JSON
    value [42] and stored its bytes, a [Get] on the same builder sends
    those bytes as its request body. *)
Lemma Get_sends_body_serialized_by_Post :
  let r1 := @WithJSONBody stub.env (Some (stub.Number 42))
              (New stub.env stub.base stub.transport "application/json") in
  let r2 := (Post r1 stub.world0 stub.background "widgets").1.1 in
  body r2 = Some (stub.Number 42)
  /\ Marshal stub.env (stub.Number 42) = (stub.text "42", None)
  /\ List.map http.Body (sent (events VGet r2 1%nat stub.background "widgets"))
     = [stub.text "42"]
  /\ ~ never_sends_pending_body stub.env VGet.
Proof.
  cbn zeta. split; [reflexivity|]. split; [reflexivity|]. split; [reflexivity|].
  intros H.
  set (r2 := (Post (@WithJSONBody stub.env (Some (stub.Number 42))
                      (New stub.env stub.base stub.transport "application/json"))
                stub.world0 stub.background "widgets").1.1).
  destruct (sent (events VGet r2 1%nat stub.background "widgets")) as [|req l] eqn:Hs.
  - apply (f_equal (@List.length _)) in Hs. vm_compute in Hs. discriminate.
  - apply (H r2 1%nat stub.background "widgets" (stub.Number 42) (stub.text "42")
             eq_refl eq_refl req).
    + rewrite Hs. apply list_elem_of_here.
    + apply (f_equal (fun x => List.map http.Body x)) in Hs.
      vm_compute in Hs. injection Hs as Hb _. symmetry. exact Hb.
Qed.

(** ** Later calls on the same builder *)

Section later_calls.
Context {E : Env}.
Implicit Types (r : Request E) (w : World E).

Lemma Request_Request_same_fields r1 r2 c method path :
  url r1 = url r2 -> headers r1 = headers r2 -> queryParams r1 = queryParams r2 ->
  bodyBytes r1 = bodyBytes r2 ->
  Request_Request r1 c method path = Request_Request r2 c method path.
Proof.
  intros Hu Hh Hq Hb. unfold Request_Request, request_url, request_header.
  by rewrite Hu, Hh, Hq, Hb.
Qed.

(** A builder that holds a JSON value and its serialization keeps both
    through any call, and the call sends the request it builds. *)
Lemma call_keeps_serialized v r w c path b bytes :
  Marshal E b = (bytes, None) ->
  body r = Some b -> bodyBytes r = bytes ->
  let out := call v r w c path in
  body out.1.1 = Some b /\ bodyBytes out.1.1 = bytes
  /\ exists evs,
       trace out.1.2 = (trace w ++ evs)%list
       /\ match Request_Request r c (method_of v) path with
          | inr req => sent evs = [req] /\ http.Body req = bytes
          | inl _ => sent evs = []
          end.
Proof.
  intros Hm Hb Hbytes. cbn zeta.
  assert (Hdo : exists pre,
             call v r w c path
             = do (set_bodyBytes bytes r) (mkWorld (net w) (trace w ++ pre)) c
                 (method_of v) path
             /\ sent pre = []).
  { destruct (serializes v) eqn:Hv.
    - exists [EvMarshal b]. by rewrite (call_marshal_success v r w c path b bytes).
    - exists []. rewrite call_not_serializing, app_nil_r by done.
      rewrite <- Hbytes. by destruct r, w. }
  destruct Hdo as (pre & -> & Hpre).
  destruct (do _ _ c (method_of v) path) as [[r' w'] res] eqn:Hcall.
  apply do_frame in Hcall as (-> & evs & Htr & _ & Hsent).
  cbn [fst snd body bodyBytes set_result set_bodyBytes trace] in *.
  split; [done|]. split; [done|].
  exists (pre ++ evs)%list. split; [by rewrite Htr, app_assoc|].
  rewrite sent_app, Hpre.
  rewrite (Request_Request_same_fields (set_bodyBytes bytes r) r) in Hsent by done.
  destruct (Request_Request r c (method_of v) path) as [e|req] eqn:Hreq.
  - by destruct Hsent as (-> & _).
  - split; [done|]. apply Request_Request_Body in Hreq as [-> _]. done.
Qed.

Lemma run_keeps_serialized (later : list (Verb * option (Ctx E) * string)) r w b bytes :
  Marshal E b = (bytes, None) ->
  body r = Some b -> bodyBytes r = bytes ->
  body (run (verb_calls later) (r, w)).1 = Some b
  /\ bodyBytes (run (verb_calls later) (r, w)).1 = bytes.
Proof.
  intros Hm. revert r w. induction later as [|[[v c] path] later IH]; intros r w Hb Hbytes.
  - done.
  - unfold run, verb_calls. cbn [List.map foldl step fst snd].
    destruct (call_keeps_serialized v r w c path b bytes Hm Hb Hbytes) as (Hb' & Hbytes' & _).
    destruct (call v r w c path) as [[r' w'] res]. cbn [fst snd] in *.
    by apply IH.
Qed.

End later_calls.

(** C10. A successful [Post], [Put] or [Patch] with a pending JSON value
    leaves the serialized bytes as the stored byte body of the builder.
    They stay there through any number of later calls of any verbs, and
    each of those calls, [Get] and [Delete] included, leaves them stored and,
    whenever it builds its request, hands exactly that one request to the
    transport, with those bytes as its body (a call that cannot build its
    request sends nothing). *)
Theorem serialized_body_sent_by_later_calls (E : Env) (v : Verb) (r r' : Request E)
    (w w' : World E) (c : option (Ctx E)) (path : string) (b : Any E)
    (res : option (Any E))
    (Hverb : serializes v = true)
    (Hbody : body r = Some b)
    (Hcall : call v r w c path = (r', w', inr res)) :
  Marshal E b = (bodyBytes r', None)
  /\ body r' = Some b
  /\ forall (later : list (Verb * option (Ctx E) * string)) (w1 : World E),
       let st := run (verb_calls later) (r', w1) in
       bodyBytes st.1 = bodyBytes r'
       /\ forall v2 c2 path2,
            let out := call v2 st.1 st.2 c2 path2 in
            bodyBytes out.1.1 = bodyBytes r'
            /\ exists evs,
                 trace out.1.2 = (trace st.2 ++ evs)%list
                 /\ match Request_Request st.1 c2 (method_of v2) path2 with
                    | inr req => sent evs = [req] /\ http.Body req = bodyBytes r'
                    | inl _ => sent evs = []
                    end.
Proof.
  pose proof Hcall as (Hr & _)%call_frame.
  unfold prepared in Hr. rewrite Hverb, Hbody in Hr.
  assert (Hbytes : bodyBytes r' = (Marshal E b).1) by (by rewrite Hr).
  assert (Hb' : body r' = Some b) by (by rewrite Hr).
  assert (Hm : Marshal E b = (bodyBytes r', None)).
  { destruct (Marshal E b) as [bytes [e|]] eqn:Hm.
    - rewrite (call_marshal_failure v r w c path b bytes e) in Hcall by done.
      discriminate.
    - by rewrite Hbytes. }
  split; [done|]. split; [done|].
  intros later w1. cbn zeta.
  destruct (run_keeps_serialized later r' w1 b (bodyBytes r') Hm Hb' eq_refl) as [Hb2 Hbytes2].
  split; [done|]. intros v2 c2 path2.
  destruct (call_keeps_serialized v2 _ (run (verb_calls later) (r', w1)).2 c2 path2
              b (bodyBytes r') Hm Hb2 Hbytes2) as (_ & Hbytes3 & Hsent).
  done.
Qed.

(** [Post] of the JSON value [42], then [Get] and then [Delete] on the same
    builder: each of the three requests carries the two bytes [42]. *)
Lemma serialized_body_sent_by_later_calls_witness :
  let posted := call VPost sample.with_JSON stub.world0 stub.background "widgets" in
  let st := run (verb_calls [(VGet, stub.background, "widgets/42")])
                (posted.1.1, posted.1.2) in
  let out := call VDelete st.1 st.2 stub.background "widgets/42" in
  posted.2 = inr None
  /\ bodyBytes posted.1.1 = stub.text "42"
  /\ bodyBytes out.1.1 = stub.text "42"
  /\ List.map http.Method (sent (trace out.1.2)) = ["POST"; "GET"; "DELETE"]
  /\ List.map http.Body (sent (trace out.1.2))
     = [stub.text "42"; stub.text "42"; stub.text "42"].
Proof.
  cbn zeta.
  destruct (call VPost sample.with_JSON stub.world0 stub.background "widgets")
    as [[r' w'] res] eqn:Hcall.
  assert (Hres : res = inr None).
  { apply (f_equal snd) in Hcall. cbn [snd] in Hcall. by rewrite <- Hcall. }
  subst res. cbn [fst snd]. split; [done|].
  pose proof (serialized_body_sent_by_later_calls stub.env VPost sample.with_JSON
                r' stub.world0 w' stub.background "widgets" (stub.Number 42) None
                eq_refl eq_refl Hcall) as (Hm & _ & Hlater).
  assert (Hbytes : bodyBytes r' = stub.text "42") by (by injection Hm as <-).
  split; [exact Hbytes|].
  destruct (Hlater [(VGet, stub.background, "widgets/42")] w') as [_ Hnext].
  destruct (Hnext VDelete stub.background "widgets/42") as [Hkept _].
  split; [by rewrite Hkept|].
  assert (Hr : r' = (call VPost sample.with_JSON stub.world0 stub.background "widgets").1.1)
    by (by rewrite Hcall).
  assert (Hw : w' = (call VPost sample.with_JSON stub.world0 stub.background "widgets").1.2)
    by (by rewrite Hcall).
  rewrite Hr, Hw. split; reflexivity.
Defined.

(** ** The request that is built *)

Section built.
Context {E : Env}.
Implicit Types (r : Request E).

(** Setting headers under other keys leaves a key alone. *)
Lemma foldl_Header_Set_other (l : list (string * string))
    (h : gmap string (list string)) (K : string) :
  (forall kv, kv ∈ l -> http.CanonicalMIMEHeaderKey kv.1 <> K) ->
  foldl (fun acc kv => http.Header_Set kv.1 kv.2 acc) h l !! K = h !! K.
Proof.
  revert h. induction l as [|kv l IH]; intros h Hl; [done|].
  cbn [foldl]. rewrite IH.
  - unfold http.Header_Set. apply lookup_insert_ne, Hl, list_elem_of_here.
  - intros kv' Hin. apply Hl. by apply list_elem_of_further.
Qed.

(** A builder none of whose header names is a spelling of [K] puts no
    header [K] on the request. *)
Lemma apply_headers_other (hs : gmap string string) (K : string) :
  range_visits_all E ->
  (forall k, is_Some (hs !! k) -> http.CanonicalMIMEHeaderKey k <> K) ->
  apply_headers E hs ∅ !! K = None.
Proof.
  intros Hr Hk. unfold apply_headers. rewrite foldl_Header_Set_other; [done|].
  intros [k v] Hin. apply Hk. exists v.
  rewrite (Hr _ hs) in Hin. by apply elem_of_map_to_list in Hin.
Qed.

Lemma request_header_nil r (h : gmap string (list string)) :
  bodyBytes r = [] -> request_header r h = apply_headers E (headers r) h.
Proof. unfold request_header. by intros ->. Qed.

Lemma request_header_cons r (h : gmap string (list string)) :
  bodyBytes r <> [] ->
  request_header r h
  = http.Header_Add "Content-Length"
      (strconv.Itoa (Z.of_nat (List.length (bodyBytes r))))
      (apply_headers E (headers r) h).
Proof.
  unfold request_header. destruct (bodyBytes r) as [|x l]; [done|]. intros _.
  by destruct (Z.ltb_spec 0 (Z.of_nat (List.length (x :: l)))) as [|Hle];
    [|cbn in Hle; lia].
Qed.

Lemma Header_Values_Add (h : gmap string (list string)) (key value : string) :
  http.Header_Values (http.Header_Add key value h) key
  = (http.Header_Values h key ++ [value])%list.
Proof. unfold http.Header_Values, http.Header_Add. by rewrite lookup_insert_eq. Qed.

End built.

(** C6. When the stored byte body is not empty, the request that is built
    carries a [Content-Length] header with the decimal text of the number
    of body bytes: the builder adds that value after whatever its own
    headers put under the name, so on a builder without a header of that
    name it is the one value, and 17 bytes give ["17"]. When the byte body
    is empty the builder adds nothing to the headers it applies. *)
Theorem Content_Length_is_body_length (E : Env) (r : Request E) (c : option (Ctx E))
    (method path : string) (req : http.Request (Ctx E))
    (Hreq : Request_Request r c method path = inr req) :
  let own := http.Header_Values (apply_headers E (headers r) ∅) "Content-Length" in
  let len := strconv.Itoa (Z.of_nat (List.length (bodyBytes r))) in
  (bodyBytes r <> [] ->
     http.Header_Values (http.Header req) "Content-Length" = (own ++ [len])%list)
  /\ (bodyBytes r = [] -> http.Header req = apply_headers E (headers r) ∅)
  /\ (range_visits_all E ->
      (forall k, is_Some (headers r !! k) ->
                 http.CanonicalMIMEHeaderKey k <> "Content-Length") ->
      http.Header_Values (http.Header req) "Content-Length"
      = match bodyBytes r with [] => [] | _ => [len] end)
  /\ (List.length (bodyBytes r) = 17%nat -> len = "17").
Proof.
  cbn zeta. apply Request_Request_Body in Hreq as [_ ->].
  assert (Hne : bodyBytes r <> [] ->
                http.Header_Values (request_header r ∅) "Content-Length"
                = (http.Header_Values (apply_headers E (headers r) ∅) "Content-Length"
                   ++ [strconv.Itoa (Z.of_nat (List.length (bodyBytes r)))])%list).
  { intros Hb. by rewrite request_header_cons, Header_Values_Add. }
  split; [exact Hne|]. split; [apply request_header_nil|]. split.
  - intros Hr Hk.
    assert (Hown : http.Header_Values (apply_headers E (headers r) ∅) "Content-Length" = []).
    { unfold http.Header_Values. by rewrite apply_headers_other. }
    destruct (bodyBytes r) as [|x l] eqn:Hb.
    + by rewrite request_header_nil.
    + rewrite <- Hb in *. rewrite Hne, Hown by (by rewrite Hb). done.
  - by intros ->.
Qed.

(** A raw body of 17 bytes on a new builder: the request carries
    [Content-Length: 17], once. *)
Lemma Content_Length_is_body_length_witness :
  let r := WithBodyBytes (stub.text "12345678901234567")
             (New stub.env stub.base stub.transport "application/json") in
  exists req,
    Request_Request r stub.background "POST" "widgets" = inr req
    /\ bodyBytes r <> []
    /\ http.Header_Values (http.Header req) "Content-Length" = ["17"].
Proof.
  cbn zeta.
  destruct (Request_Request
              (WithBodyBytes (stub.text "12345678901234567")
                 (New stub.env stub.base stub.transport "application/json"))
              stub.background "POST" "widgets") as [e|req] eqn:Hreq;
    [vm_compute in Hreq; discriminate|].
  exists req. split; [reflexivity|]. split; [discriminate|].
  pose proof (Content_Length_is_body_length stub.env _ _ _ _ req Hreq) as (H & _).
  rewrite H by discriminate. reflexivity.
Defined.

(** ** The query of the request *)

Section url_text.
Import neturl strings.

Lemma ContainsByte_app (a b : string) (c : ascii) :
  ContainsByte (a ++ b) c = ContainsByte a c || ContainsByte b c.
Proof.
  unfold ContainsByte. induction a as [|x a IH]; [done|].
  rewrite append_String. cbn. by rewrite IH, orb_assoc.
Qed.

Lemma no_marks_app (a b : string) : no_marks (a ++ b) = no_marks a && no_marks b.
Proof.
  unfold no_marks. rewrite !ContainsByte_app.
  by destruct (ContainsByte a "?"), (ContainsByte a "#"),
       (ContainsByte b "?"), (ContainsByte b "#").
Qed.

Lemma Cut_absent (s : string) (sep : ascii) :
  ContainsByte s sep = false -> Cut s sep = (s, "", false).
Proof.
  unfold ContainsByte. induction s as [|c s IH]; [done|]. cbn.
  intros [Hc Hs]%orb_false_elim. rewrite Hc, IH by done. done.
Qed.

Lemma Cut_app_absent (a b : string) (sep : ascii) :
  ContainsByte a sep = false ->
  Cut (a ++ b) sep = ((a ++ (Cut b sep).1.1), (Cut b sep).1.2, (Cut b sep).2).
Proof.
  unfold ContainsByte. induction a as [|c a IH].
  - intros _. change ("" ++ b) with b.
    change ("" ++ (Cut b sep).1.1) with (Cut b sep).1.1.
    by destruct (Cut b sep) as [[x y] f].
  - cbn. intros [Hc Hs]%orb_false_elim.
    rewrite append_String. cbn. rewrite Hc, IH by done. done.
Qed.

Lemma Cut_sep (s : string) (sep : ascii) : Cut (String sep s) sep = ("", s, true).
Proof. cbn. by rewrite Ascii.eqb_refl. Qed.

Lemma Cut_fst_absent (s : string) (sep : ascii) :
  ContainsByte (Cut s sep).1.1 sep = false.
Proof.
  unfold ContainsByte. induction s as [|c s IH]; [done|]. cbn.
  destruct (Ascii.eqb c sep) eqn:Hc; [done|].
  destruct (Cut s sep) as [[x y] f]. cbn in *.
  by rewrite Hc, IH.
Qed.

Lemma before_hash_tail (q f : string) :
  before_hash (q ++ String "#" f) = before_hash q.
Proof.
  unfold before_hash. induction q as [|c q IH]; [done|].
  rewrite append_String. cbn. destruct (Ascii.eqb c "#"); [done|].
  destruct (Cut (q ++ String "#" f) "#") as [[x y] g].
  destruct (Cut q "#") as [[x' y'] g']. cbn in *. by rewrite IH.
Qed.

Lemma before_hash_absent (q : string) :
  ContainsByte q "#" = false -> before_hash q = q.
Proof. intros H. unfold before_hash. by rewrite Cut_absent. Qed.


Lemma setPath_RawQuery (p : string) (u u' : URL) :
  setPath p u = inr u' -> RawQuery u' = RawQuery u.
Proof.
  unfold setPath. destruct (unescape p encodePath) as [e|path]; cbn; [done|].
  by intros [= <-].
Qed.

Lemma setFragment_RawQuery (f : string) (u u' : URL) :
  setFragment f u = inr u' -> RawQuery u' = RawQuery u.
Proof.
  unfold setFragment. destruct (unescape f encodeFragment) as [e|frag]; cbn; [done|].
  by intros [= <-].
Qed.

Lemma getScheme_from_rest (raw p : string) (hasq : bool) (q : string) :
  ContainsByte p "?" = false ->
  forall acc sch rest,
    getScheme_from raw acc (p ++ query_text hasq q) = inr (sch, rest) ->
    rest = raw
    \/ exists p', rest = p' ++ query_text hasq q /\ ContainsByte p' "?" = false.
Proof.
  induction p as [|c p IH]; intros Hp acc sch rest.
  - change ("" ++ query_text hasq q) with (query_text hasq q).
    destruct hasq; cbn; intros [= <- <-]; by left.
  - rewrite append_String. cbn [getScheme_from].
    unfold ContainsByte in Hp. cbn in Hp. apply orb_false_elim in Hp as [Hc Hp].
    destruct (between "a" "z" c || between "A" "Z" c); [by apply IH|].
    destruct (between "0" "9" c || one_of "+-." c).
    { destruct (is_empty acc); [intros [= <- <-]; by left|by apply IH]. }
    destruct (is_byte ":" c).
    { destruct (is_empty acc); [done|]. intros [= <- <-]. right.
      exists p. done. }
    intros [= <- <-]. by left.
Qed.

Lemma Count_app (a b : string) (c : ascii) : Count (a ++ b) c = Count a c + Count b c.
Proof.
  induction a as [|x a IH]; [done|]. rewrite append_String. cbn.
  rewrite IH. lia.
Qed.

Lemma Count_absent (s : string) (c : ascii) : ContainsByte s c = false -> Count s c = 0.
Proof.
  unfold ContainsByte. induction s as [|x s IH]; [done|]. cbn.
  intros [Hx Hs]%orb_false_elim. by rewrite Hx, IH.
Qed.

Lemma last_byte_app_cons (a : string) (c : ascii) (b : string) :
  last_byte (a ++ String c b) = last_byte (String c b).
Proof.
  induction a as [|x a IH]; [done|]. rewrite append_String.
  cbn [last_byte]. destruct (a ++ String c b) eqn:Ha.
  - destruct a as [|y a'];
      [change ("" ++ String c b) with (String c b) in Ha
      |rewrite append_String in Ha]; discriminate.
  - exact IH.
Qed.

Lemma last_byte_Count (s : string) (c : ascii) :
  last_byte s = Some c -> Count s c <> 0.
Proof.
  induction s as [|x s IH]; [done|]. cbn. destruct s as [|y s].
  - intros [= ->]. by rewrite Ascii.eqb_refl.
  - intros H. specialize (IH H). destruct (Ascii.eqb x c); lia.
Qed.

(** Reading the query off a text whose part before the query has no [?]. *)
Lemma split_query_RawQuery (p q : string) (hasq : bool) (url : URL) :
  ContainsByte p "?" = false ->
  (hasq = false -> q = "") ->
  RawQuery url = "" ->
  let rest := p ++ query_text hasq q in
  RawQuery
    (if bool_decide (last_byte rest = Some "?"%char) && (Count rest "?" =? 1)%nat
     then (drop_last rest, set_ForceQuery true url)
     else let '(r, q', _) := Cut rest "?" in (r, set_RawQuery q' url)).2 = q.
Proof.
  intros Hp Hq Hu. cbn zeta. rewrite Count_app, (Count_absent p) by done.
  destruct hasq; cbn [query_text].
  - cbn [Count]. rewrite Ascii.eqb_refl. cbn [Nat.add].
    destruct (bool_decide _ && _) eqn:Hcond.
    + apply andb_prop in Hcond as [Hlast Hcount].
      apply bool_decide_eq_true in Hlast. apply Nat.eqb_eq in Hcount.
      cbn. rewrite Hu. destruct q as [|c q]; [done|]. exfalso.
      rewrite last_byte_app_cons in Hlast.
      change (last_byte (String "?" (String c q))) with (last_byte (String c q)) in Hlast.
      apply last_byte_Count in Hlast. lia.
    + rewrite Cut_app_absent, Cut_sep by done. done.
  - rewrite Hq by done. cbn. rewrite andb_false_r.
    change (p ++ "") with (p ++ ""). rewrite append_nil_r.
    by rewrite Cut_absent.
Qed.


Lemma parse_RawQuery (p q : string) (hasq : bool) (u : URL) :
  ContainsByte p "?" = false ->
  (hasq = false -> q = "") ->
  parse (p ++ query_text hasq q) = Some (inr u) ->
  RawQuery u = q.
Proof.
  intros Hp Hq. unfold parse.
  destruct (stringContainsCTLByte _); [discriminate|].
  destruct (String.eqb_spec (p ++ query_text hasq q) "*") as [Hstar|_].
  { intros [= <-]. cbn. destruct hasq; [|by rewrite Hq].
    exfalso. assert (H : ContainsByte (p ++ query_text true q) "?" = true).
    { rewrite ContainsByte_app. cbn. by rewrite orb_true_r. }
    rewrite Hstar in H. discriminate H. }
  destruct (getScheme _) as [e|[sch rest]] eqn:Hg; [discriminate|].
  assert (Hrest : exists p', rest = p' ++ query_text hasq q
                             /\ ContainsByte p' "?" = false).
  { unfold getScheme in Hg.
    apply (getScheme_from_rest _ p hasq q Hp) in Hg as [->|H]; [by exists p|done]. }
  destruct Hrest as (p' & -> & Hp').
  pose proof (split_query_RawQuery p' q hasq (set_Scheme (ToLower sch) zeroURL)
                Hp' Hq eq_refl) as Hsplit.
  cbn zeta in Hsplit. revert Hsplit.
  destruct (if bool_decide _ && _ then _ else _) as [rest' url'].
  cbn [snd]. intros Hurl.
  repeat case_match; intros; simplify_eq; try done;
    try (match goal with
         | H : setPath _ _ = inr _ |- _ => apply setPath_RawQuery in H; by rewrite H
         end).
Qed.

Lemma Parse_RawQuery (p q f : string) (hasq hasf : bool) (u : URL) :
  no_marks p = true ->
  (hasq = false -> q = "") ->
  neturl.Parse (p ++ query_text hasq q ++ (if hasf then String "#" f else ""))
  = Some (inr u) ->
  RawQuery u = before_hash q.
Proof.
  intros [Hp1 Hp2]%andb_prop Hq. apply negb_true_iff in Hp1, Hp2.
  unfold neturl.Parse.
  assert (Hcut : (Cut (p ++ query_text hasq q ++ (if hasf then String "#" f else "")) "#").1.1
                 = p ++ query_text hasq (before_hash q)).
  { rewrite Cut_app_absent by done. cbn [fst]. f_equal.
    destruct hasq; cbn [query_text].
    - change (String "?" q ++ ?x) with (String "?" (q ++ x)).
      cbn [Cut]. change (Ascii.eqb "?" "#") with false. cbn iota.
      destruct hasf.
      + fold (before_hash (q ++ String "#" f)). 
        pose proof (before_hash_tail q f) as H. unfold before_hash in H.
        destruct (Cut (q ++ String "#" f) "#") as [[x y] g]. cbn in *. by rewrite H.
      + rewrite append_nil_r. unfold before_hash.
        by destruct (Cut q "#") as [[x y] g].
    - destruct hasf; [|reflexivity].
      change ("" ++ String "#" f) with (String "#" f). by rewrite Cut_sep. }
  revert Hcut.
  destruct (Cut _ "#") as [[x frag] g]. cbn [fst]. intros ->.
  destruct (parse _) as [[e|url]|] eqn:Hparse; try discriminate.
  apply parse_RawQuery in Hparse.
  - destruct (is_empty frag); [by intros [= <-]|].
    destruct (setFragment frag url) as [e|url'] eqn:Hf; [discriminate|].
    intros [= <-]. apply setFragment_RawQuery in Hf. by rewrite Hf.
  - done.
  - intros ->. rewrite Hq by done. done.
Qed.


Lemma no_marks_cons (c : ascii) (s : string) :
  no_marks (String c s) = negb (one_of "?#" c) && no_marks s.
Proof.
  unfold no_marks, ContainsByte. cbn [one_of].
  rewrite (Ascii.eqb_sym c "?"), (Ascii.eqb_sym c "#").
  destruct (Ascii.eqb "?" c), (Ascii.eqb "#" c), (one_of s "?"), (one_of s "#"); done.
Qed.

Lemma escaped_byte_is_no_mark (mode : encoding) (c : ascii) :
  escapes_marks mode = true ->
  (shouldEscape c mode = false -> one_of "?#" c = false)
  /\ one_of "?#" (upperhex (code c / 16)) = false
  /\ one_of "?#" (upperhex (code c mod 16)) = false.
Proof.
  destruct mode; try discriminate; intros _;
    destruct c as [[] [] [] [] [] [] [] []]; vm_compute; repeat split; congruence.
Qed.

Lemma escape_no_marks (mode : encoding) (s : string) :
  escapes_marks mode = true -> no_marks (escape s mode) = true.
Proof.
  intros Hmode. induction s as [|c s IH]; [done|]. cbn [escape].
  replace (is_query_mode mode) with false by (by destruct mode).
  rewrite andb_false_r.
  destruct (escaped_byte_is_no_mark mode c Hmode) as (Hc & Hhi & Hlo).
  destruct (shouldEscape c mode).
  - rewrite !no_marks_cons, Hhi, Hlo, IH. done.
  - rewrite no_marks_cons, Hc, IH by done. done.
Qed.

Lemma validEncoded_no_marks (s : string) :
  validEncoded s encodePath = true -> no_marks s = true.
Proof.
  induction s as [|c s IH]; [done|]. cbn [validEncoded]. rewrite no_marks_cons.
  assert (Hc : one_of "!$&'()*+,;=:@[]%" c = true \/ shouldEscape c encodePath = false
               -> one_of "?#" c = false).
  { destruct c as [[] [] [] [] [] [] [] []]; vm_compute; intros [?|?]; congruence. }
  destruct (one_of "!$&'()*+,;=:@[]%" c) eqn:H1.
  - intros H. rewrite Hc, IH by auto. done.
  - destruct (shouldEscape c encodePath) eqn:H2; [discriminate|].
    intros H. rewrite Hc, IH by auto. done.
Qed.

Lemma EscapedPath_no_marks (u : URL) : no_marks (EscapedPath u) = true.
Proof.
  unfold EscapedPath.
  assert (Hd : no_marks (if String.eqb (Path u) "*" then "*"
                         else escape (Path u) encodePath) = true).
  { destruct (String.eqb (Path u) "*"); [done|]. by apply escape_no_marks. }
  destruct (negb (is_empty (RawPath u)) && validEncoded (RawPath u) encodePath) eqn:Hc;
    [|done].
  apply andb_prop in Hc as [_ Hv].
  destruct (unescape (RawPath u) encodePath) as [e|p]; [done|].
  destruct (String.eqb p (Path u)); [by apply validEncoded_no_marks|done].
Qed.

Lemma Userinfo_String_no_marks (ui : Userinfo) : no_marks (Userinfo_String ui) = true.
Proof.
  unfold Userinfo_String. rewrite no_marks_app, escape_no_marks by done.
  destruct (passwordSet ui); [|done].
  change (":" ++ ?x) with (String ":" x). by rewrite no_marks_cons, escape_no_marks.
Qed.

(** The text of a URL: a part without [?] or [#] (when the scheme and the
    opaque part have none), then the query, then the fragment. *)
Lemma URL_String_shape (u : URL) :
  no_marks (Scheme u) = true ->
  no_marks (Opaque u) = true ->
  exists p,
    no_marks p = true
    /\ URL_String u
       = p ++ query_text (ForceQuery u || negb (is_empty (RawQuery u))) (RawQuery u)
           ++ (if negb (is_empty (Fragment u)) then String "#" (EscapedFragment u)
               else "").
Proof.
  intros Hs Ho. unfold URL_String.
  set (scheme := if is_empty (Scheme u) then "" else Scheme u ++ ":").
  set (rest := if negb (is_empty (Opaque u)) then Opaque u else _).
  exists (scheme ++ rest). split.
  - rewrite no_marks_app. apply andb_true_intro. split.
    + subst scheme. destruct (is_empty (Scheme u)); [done|].
      by rewrite no_marks_app, Hs.
    + subst rest. destruct (negb (is_empty (Opaque u))); [done|].
      rewrite !no_marks_app, EscapedPath_no_marks, !andb_true_iff. split_and!.
      * destruct (_ || _ || _); [|done].
        destruct (_ && _ && _); [done|].
        rewrite !no_marks_app, !andb_true_iff. split_and!.
        -- by destruct (_ || _ || _).
        -- destruct (User u) as [ui|]; [|done].
           by rewrite no_marks_app, Userinfo_String_no_marks.
        -- destruct (is_empty (Host u)); [done|]. by apply escape_no_marks.
      * destruct (EscapedPath u) as [|c p]; [done|]. by destruct (_ && _).
      * by destruct (_ && _).
      * done.
  - rewrite append_assoc. f_equal. f_equal. unfold query_text.
    destruct (ForceQuery u || negb (is_empty (RawQuery u))), (is_empty (Fragment u));
      reflexivity.
Qed.

End url_text.

Lemma ResolveReference_well_formed (base ref : neturl.URL) :
  well_formed base = true -> well_formed ref = true ->
  well_formed (neturl.ResolveReference base ref) = true.
Proof.
  unfold well_formed. intros [Hb1 Hb2]%andb_prop [Hr1 Hr2]%andb_prop.
  assert (Hset : forall p u, neturl.Scheme (neturl.setPath_ignore p u) = neturl.Scheme u
                             /\ neturl.Opaque (neturl.setPath_ignore p u) = neturl.Opaque u).
  { intros p u. unfold neturl.setPath_ignore, neturl.setPath.
    by destruct (neturl.unescape p neturl.encodePath). }
  unfold neturl.ResolveReference.
  repeat case_match;
    repeat match goal with
           | |- context [neturl.setPath_ignore ?p ?u] =>
               destruct (Hset p u) as [-> ->]
           end; cbn; by rewrite ?Hb1, ?Hb2, ?Hr1, ?Hr2.
Qed.

Lemma Request_RawQuery (E : Env) (r : Request E) (c : option (Ctx E))
    (method path : string) (req : http.Request (Ctx E)) (ref : neturl.URL) :
  Parse_as_modelled E ->
  Request_Request r c method path = inr req ->
  Parse E path = inr ref ->
  well_formed (url r) = true ->
  well_formed ref = true ->
  is_Some (neturl.Parse (neturl.URL_String
                           (request_url r ref (plain_query (queryParams r))))) ->
  neturl.RawQuery (http.URL req) = before_hash (plain_query (queryParams r)).
Proof.
  intros Hmodel Hreq Href Hbase Hwf [parsed Hparsed].
  apply Request_Request_inr in Hreq as (ref' & q & req0 & Href' & Hq & Hnew & ->).
  rewrite Href in Href'. injection Href' as <-.
  rewrite QueryUnescape_Values_Encode in Hq. injection Hq as <-.
  apply NewRequestWithContext_inr in Hnew as (cx & u0 & _ & Hu0 & ->).
  cbn [http.URL http.set_Header].
  rewrite (Hmodel _ _ Hparsed) in Hu0. subst parsed.
  change (neturl.RawQuery (neturl.set_Host ?h u0)) with (neturl.RawQuery u0).
  pose proof (ResolveReference_well_formed _ _ Hbase Hwf) as [Hs Ho]%andb_prop.
  destruct (URL_String_shape (request_url r ref (plain_query (queryParams r))) Hs Ho)
    as (p & Hp & Htext).
  rewrite Htext in Hparsed.
  apply Parse_RawQuery in Hparsed; [done|done|].
  cbn. intros [_ Hq]%orb_false_elim. apply negb_false_iff in Hq.
  by destruct (plain_query (queryParams r)).
Qed.


Lemma stub_Parse_as_modelled : Parse_as_modelled stub.env.
Proof. intros s r Hs. cbn. unfold stub.Parse. by rewrite Hs. Qed.



(** ** The URL of the request *)

Section resolution.
Import neturl strings.

Lemma plain_byte (c : ascii) :
  shouldEscape c encodePath = false ->
  is_byte "%" c = false /\ is_byte " " c = false
  /\ (code c <? 32)%nat = false /\ (code c =? 127)%nat = false
  /\ one_of "?#*" c = false.
Proof. destruct c as [[] [] [] [] [] [] [] []]; vm_compute; intros; repeat split; congruence. Qed.

Lemma escape_plain (s : string) : plain_path s = true -> escape s encodePath = s.
Proof.
  induction s as [|c s IH]; [done|]. cbn [plain_path escape is_query_mode].
  intros [Hc Hs]%andb_prop. apply negb_true_iff in Hc.
  rewrite andb_false_r, Hc, IH by done. done.
Qed.

Lemma unescape_plain (s : string) : plain_path s = true -> unescape s encodePath = inr s.
Proof.
  intros Hs. unfold unescape.
  assert (H : unescape_check s encodePath = None /\ unescape_build s encodePath = s).
  { induction s as [|c s IH]; [done|]. cbn [plain_path] in Hs.
    apply andb_prop in Hs as [Hc Hs]. apply negb_true_iff in Hc.
    destruct (plain_byte c Hc) as (Hp & _). destruct (IH Hs) as [IH1 IH2].
    cbn [unescape_check unescape_build is_host_mode is_query_mode].
    rewrite Hp, andb_false_r. cbn [andb]. rewrite IH1, IH2.
    by destruct (is_byte "+" c). }
  by destruct H as [-> ->].
Qed.

Lemma setPath_plain (p : string) (u : URL) :
  plain_path p = true -> setPath p u = inr (set_RawPath "" (set_Path p u)).
Proof.
  intros Hp. unfold setPath. rewrite unescape_plain by done. cbn.
  by rewrite escape_plain, String.eqb_refl.
Qed.

Lemma EscapedPath_plain (u : URL) :
  RawPath u = "" -> plain_path (Path u) = true -> EscapedPath u = Path u.
Proof.
  intros Hr Hp. unfold EscapedPath. rewrite Hr. cbn.
  destruct (String.eqb_spec (Path u) "*") as [->|_]; [done|]. by apply escape_plain.
Qed.

Lemma plain_path_app (a b : string) :
  plain_path (a ++ b) = plain_path a && plain_path b.
Proof.
  induction a as [|c a IH]; [done|]. rewrite append_String. cbn.
  by rewrite IH, andb_assoc.
Qed.

Lemma plain_path_UpToLast (s : string) :
  plain_path s = true -> plain_path (UpToLast s "/") = true.
Proof.
  induction s as [|c s IH]; [done|]. cbn [plain_path UpToLast].
  intros [Hc Hs]%andb_prop.
  destruct (ContainsByte s "/"); [cbn; by rewrite Hc, IH|].
  destruct (Ascii.eqb c "/"); [cbn; by rewrite Hc|done].
Qed.

Lemma resolve_elems_dot_free (elems : list string) (dst : string) (first : bool) :
  forallb (fun e => negb (String.eqb e ".") && negb (String.eqb e "..")) elems = true ->
  resolve_elems elems dst first = dst ++ written first elems.
Proof.
  revert dst first. induction elems as [|e es IH]; intros dst first.
  - intros _. cbn [resolve_elems written]. symmetry. apply append_nil_r.
  - cbn [forallb resolve_elems written]. intros [He Hes]%andb_prop.
    apply andb_prop in He as [H1 H2]. apply negb_true_iff in H1, H2.
    rewrite H1, H2, IH by done. by rewrite !append_assoc.
Qed.

Lemma split_slash_cons (s : string) : exists e es, split_slash s = e :: es.
Proof.
  induction s as [|c s (e & es & IH)]; [by exists "", []|]. cbn [split_slash].
  destruct (is_byte "/" c); [by exists "", (split_slash s)|].
  rewrite IH. exists (String c e), es. reflexivity.
Qed.

Lemma written_split_slash (s : string) : written true (split_slash s) = s.
Proof.
  induction s as [|c s IH]; [done|]. cbn [split_slash].
  destruct (is_byte "/" c) eqn:Hc.
  - apply Ascii.eqb_eq in Hc as <-. cbn [written].
    destruct (split_slash_cons s) as (e & es & He). rewrite He in IH |- *.
    cbn [written] in IH |- *. change ("" ++ ?x) with x in IH |- *.
    change ("/" ++ ?x) with (String "/" x). by rewrite IH.
  - destruct (split_slash_cons s) as (e & es & He). rewrite He in IH |- *.
    cbn [written] in IH |- *. change ("" ++ ?x) with x in IH |- *.
    rewrite append_String. by rewrite IH.
Qed.

Lemma last_in (elems : list string) (d : string) :
  elems <> [] -> In (List.last elems d) elems.
Proof.
  induction elems as [|e es IH]; [done|]. intros _. destruct es as [|e' es].
  - by left.
  - right. apply IH. done.
Qed.

Lemma HasPrefix_slash (c : ascii) (s : string) :
  HasPrefix (String c s) "/" = is_byte "/" c.
Proof.
  unfold HasPrefix, is_byte. cbn [String.prefix].
  destruct (ascii_dec "/" c) as [<-|Hne].
  - by destruct s.
  - symmetry. by apply Ascii.eqb_neq.
Qed.

(** Without dot segments, an absolute merged path resolves to itself. *)
Lemma resolvePath_dot_free (base ref : string) :
  is_empty ref = false ->
  HasPrefix (merged base ref) "/" = true ->
  dot_free (merged base ref) = true ->
  resolvePath base ref = merged base ref.
Proof.
  intros Hne Habs Hdots. unfold resolvePath.
  assert (Hfull : match ref with
                  | "" => base
                  | String c _ => if is_byte "/" c then ref else UpToLast base "/" ++ ref
                  end = merged base ref).
  { unfold merged. destruct ref as [|c ref]; [done|].
    by rewrite HasPrefix_slash. }
  rewrite Hfull. clear Hfull. set (full := merged base ref) in *.
  destruct full as [|c full'] eqn:Hf; [done|]. cbn [is_empty]. rewrite <- Hf in *.
  unfold dot_free in Hdots.
  rewrite resolve_elems_dot_free, written_split_slash by done.
  assert (Hlast : String.eqb (List.last (split_slash full) "") "." = false
                  /\ String.eqb (List.last (split_slash full) "") ".." = false).
  { rewrite forallb_forall in Hdots.
    destruct (split_slash_cons full) as (e & es & He).
    specialize (Hdots (List.last (split_slash full) "")).
    rewrite He in Hdots |- *.
    assert (Hcons : e :: es <> []) by discriminate.
    specialize (Hdots (last_in _ "" Hcons)).
    apply andb_prop in Hdots as [H1 H2]. by apply negb_true_iff in H1, H2. }
  destruct Hlast as [-> ->]. cbn [orb].
  change ("" ++ full) with full. rewrite append_nil_r.
  rewrite Hf in Habs |- *. rewrite HasPrefix_slash in Habs.
  apply Ascii.eqb_eq in Habs as <-. reflexivity.
Qed.

End resolution.

Section simple.
Import neturl strings.

Lemma plain_path_bytes (s : string) :
  plain_path s = true ->
  ContainsByte s "#" = false /\ ContainsByte s "?" = false
  /\ stringContainsCTLByte s = false /\ String.eqb s "*" = false.
Proof.
  induction s as [|c s IH]; [done|]. cbn [plain_path].
  intros [Hc Hs]%andb_prop. apply negb_true_iff in Hc.
  destruct (plain_byte c Hc) as (_ & _ & H1 & H2 & H3).
  destruct (IH Hs) as (I1 & I2 & I3 & _).
  unfold ContainsByte in *. cbn [one_of stringContainsCTLByte].
  rewrite I1, I2, I3, H1, H2.
  cbn [one_of] in H3. apply orb_false_elim in H3 as [Hq H3].
  apply orb_false_elim in H3 as [Hh H3]. apply orb_false_elim in H3 as [Hstar _].
  rewrite (Ascii.eqb_sym c "#"), (Ascii.eqb_sym c "?"), Hq, Hh.
  repeat split; try done.
  cbn. rewrite (Ascii.eqb_sym c "*"), Hstar. done.
Qed.

Lemma getScheme_no_colon (raw s : string) :
  ContainsByte s ":" = false ->
  forall acc, getScheme_from raw acc s = inr ("", raw).
Proof.
  unfold ContainsByte. induction s as [|c s IH]; [done|].
  intros H acc. cbn [one_of] in H. apply orb_false_elim in H as [Hc Hs].
  cbn [getScheme_from].
  destruct (between "a" "z" c || between "A" "Z" c); [by apply IH|].
  destruct (between "0" "9" c || one_of "+-." c).
  { destruct (is_empty acc); [done|by apply IH]. }
  unfold is_byte. rewrite (Ascii.eqb_sym ":" c), Hc. done.
Qed.

Lemma ContainsByte_Cut (s : string) (sep c : ascii) :
  ContainsByte s c = false -> ContainsByte (Cut s sep).1.1 c = false.
Proof.
  unfold ContainsByte. induction s as [|x s IH]; [done|]. cbn.
  intros [Hx Hs]%orb_false_elim. destruct (Ascii.eqb x sep); [done|].
  specialize (IH Hs). destruct (Cut s sep) as [[a b] f]. cbn in *.
  by rewrite Hx, IH.
Qed.

(** [url.Parse] of a simple path is the reference with that path and
    nothing else. *)
Lemma Parse_simple_path (rp : string) :
  simple_path rp = true -> neturl.Parse rp = Some (inr (set_Path rp zeroURL)).
Proof.
  unfold simple_path. intros [[[Hne Hplain]%andb_prop Hcolon]%andb_prop Hslash]%andb_prop.
  apply negb_true_iff in Hne, Hcolon, Hslash.
  destruct (plain_path_bytes rp Hplain) as (Hhash & Hq & Hctl & Hstar).
  unfold neturl.Parse. rewrite Cut_absent by done.
  unfold parse. rewrite Hctl, Hstar.
  unfold getScheme. rewrite getScheme_no_colon by done.
  rewrite (Count_absent rp "?") by done. cbn [Nat.eqb]. rewrite andb_false_r.
  rewrite Cut_absent by done. cbn [set_Scheme ToLower Scheme set_RawQuery zeroURL is_empty].
  rewrite andb_false_r. unfold first_segment_has_colon.
  rewrite ContainsByte_Cut by done. rewrite andb_false_r, Hslash, andb_false_r.
  cbn [negb andb]. rewrite setPath_plain by done. reflexivity.
Qed.

(** Resolving a simple path against a base with a plain path: scheme, user
    and host of the base, and the merged path. *)
Lemma ResolveReference_simple (base : URL) (rp : string) :
  is_empty rp = false ->
  plain_path rp = true ->
  RawPath base = "" ->
  plain_path (Path base) = true ->
  HasPrefix (merged (Path base) rp) "/" = true ->
  dot_free (merged (Path base) rp) = true ->
  ResolveReference base (set_Path rp zeroURL)
  = hierarchical (Scheme base) (User base) (Host base) (merged (Path base) rp).
Proof.
  intros Hne Hplain Hraw Hbase Habs Hdots. unfold ResolveReference.
  cbn [Scheme Host User Opaque Path ForceQuery RawQuery Fragment set_Path zeroURL
       is_empty negb orb andb].
  rewrite Hne. cbn [negb orb andb].
  rewrite (bool_decide_eq_false_2 (None <> None)) by (intros H; by apply H).
  rewrite (EscapedPath_plain base), (EscapedPath_plain (set_Path rp zeroURL))
    by done.
  change (Path (set_Path rp zeroURL)) with rp. rewrite resolvePath_dot_free by done.
  unfold setPath_ignore. rewrite setPath_plain; [reflexivity|].
  unfold merged. destruct (HasPrefix rp "/"); [done|].
  by rewrite plain_path_app, plain_path_UpToLast, Hplain.
Qed.

End simple.

Section hierarchical_text.
Import neturl strings.

Lemma lower_byte (c : ascii) :
  between "a" "z" c = true ->
  ToLowerByte c = c /\ host_byte c = true
  /\ (code c <? 32)%nat = false /\ (code c =? 127)%nat = false
  /\ one_of "?#*:" c = false.
Proof. destruct c as [[] [] [] [] [] [] [] []]; vm_compute; intros; repeat split; congruence. Qed.

Lemma host_byte_facts (c : ascii) :
  host_byte c = true ->
  shouldEscape c encodeHost = false
  /\ (code c <? 32)%nat = false /\ (code c =? 127)%nat = false
  /\ one_of "?#*:/@[]%+" c = false.
Proof. destruct c as [[] [] [] [] [] [] [] []]; vm_compute; intros; repeat split; congruence. Qed.

Lemma one_of_cons_false (a : ascii) (set : string) (c : ascii) :
  one_of (String a set) c = false -> Ascii.eqb c a = false /\ one_of set c = false.
Proof.
  cbn [one_of]. intros [H1 H2]%orb_false_elim. by rewrite Ascii.eqb_sym.
Qed.

Lemma one_of_absent (set : string) (c a : ascii) :
  one_of set c = false -> one_of set a = true -> Ascii.eqb c a = false.
Proof.
  induction set as [|x set IH]; [done|]. cbn [one_of].
  intros [H1 H2]%orb_false_elim [H|H]%orb_prop.
  - apply Ascii.eqb_eq in H as ->. by rewrite Ascii.eqb_sym.
  - by apply IH.
Qed.

Lemma host_bytes_absent (h : string) (a : ascii) :
  host_bytes h = true -> one_of "?#*:/@[]%+" a = true -> ContainsByte h a = false.
Proof.
  unfold ContainsByte. intros Hh Ha. induction h as [|c h IH]; [done|].
  cbn [host_bytes] in Hh. apply andb_prop in Hh as [Hc Hh].
  destruct (host_byte_facts c Hc) as (_ & _ & _ & Hset).
  cbn [one_of]. by rewrite (one_of_absent _ _ _ Hset Ha), IH.
Qed.

Lemma lower_letters_host (s : string) : lower_letters s = true -> host_bytes s = true.
Proof.
  induction s as [|c s IH]; [done|]. cbn [lower_letters host_bytes].
  intros [Hc Hs]%andb_prop. destruct (lower_byte c Hc) as (_ & -> & _). by apply IH.
Qed.

Lemma host_bytes_CTL (h : string) : host_bytes h = true -> stringContainsCTLByte h = false.
Proof.
  induction h as [|c h IH]; [done|]. cbn [host_bytes stringContainsCTLByte].
  intros [Hc Hh]%andb_prop. destruct (host_byte_facts c Hc) as (_ & -> & -> & _).
  by apply IH.
Qed.

Lemma CTL_app (a b : string) :
  stringContainsCTLByte (a ++ b) = stringContainsCTLByte a || stringContainsCTLByte b.
Proof.
  induction a as [|c a IH]; [done|]. rewrite append_String. cbn [stringContainsCTLByte].
  by rewrite IH, !orb_assoc.
Qed.

Lemma ToLower_lower (s : string) : lower_letters s = true -> ToLower s = s.
Proof.
  induction s as [|c s IH]; [done|]. cbn [lower_letters ToLower].
  intros [Hc Hs]%andb_prop. destruct (lower_byte c Hc) as (-> & _). by rewrite IH.
Qed.

Lemma escape_host (h : string) : host_bytes h = true -> escape h encodeHost = h.
Proof.
  induction h as [|c h IH]; [done|]. cbn [host_bytes escape is_query_mode].
  intros [Hc Hh]%andb_prop. destruct (host_byte_facts c Hc) as (-> & _).
  rewrite andb_false_r, IH by done. done.
Qed.

Lemma unescape_host (h : string) : host_bytes h = true -> unescape h encodeHost = inr h.
Proof.
  intros Hs. unfold unescape.
  assert (H : unescape_check h encodeHost = None /\ unescape_build h encodeHost = h).
  { induction h as [|c h IH]; [done|]. cbn [host_bytes] in Hs.
    apply andb_prop in Hs as [Hc Hs].
    destruct (host_byte_facts c Hc) as (Hesc & _ & _ & Hset). destruct (IH Hs) as [IH1 IH2].
    assert (Hp : is_byte "%" c = false).
    { unfold is_byte. rewrite Ascii.eqb_sym. by apply (one_of_absent _ _ _ Hset). }
    assert (Hplus : is_byte "+" c = false).
    { unfold is_byte. rewrite Ascii.eqb_sym. by apply (one_of_absent _ _ _ Hset). }
    cbn [unescape_check unescape_build is_host_mode is_query_mode].
    rewrite Hp, Hplus, Hesc, andb_false_r. cbn [andb]. by rewrite IH1, IH2. }
  by destruct H as [-> ->].
Qed.

Lemma FromLast_absent (s : string) (c : ascii) :
  ContainsByte s c = false -> FromLast s c = None.
Proof.
  unfold ContainsByte. induction s as [|x s IH]; [done|]. cbn [one_of FromLast].
  intros [Hx Hs]%orb_false_elim. by rewrite IH, Hx.
Qed.

Lemma LastIndex_absent (s : string) (c : ascii) (from : Z) :
  ContainsByte s c = false -> LastIndex_from s c from = (-1)%Z.
Proof.
  unfold ContainsByte. revert from. induction s as [|x s IH]; [done|]. cbn [one_of LastIndex_from].
  intros from [Hx Hs]%orb_false_elim. by rewrite IH, Hx.
Qed.

Lemma removeEmptyPort_host (h : string) : host_bytes h = true -> http.removeEmptyPort h = h.
Proof.
  intros Hh. unfold http.removeEmptyPort, LastIndex.
  rewrite !LastIndex_absent by (by apply host_bytes_absent). done.
Qed.

Lemma getScheme_from_lower (raw rest s : string) :
  lower_letters s = true ->
  forall acc, is_empty (acc ++ s) = false ->
  getScheme_from raw acc (s ++ String ":" rest) = inr (acc ++ s, rest).
Proof.
  induction s as [|c s IH]; intros Hs acc Hne.
  - rewrite append_nil_r in *. change ("" ++ String ":" rest) with (String ":" rest).
    cbn [getScheme_from]. change (between "a" "z" ":" || between "A" "Z" ":") with false.
    change (between "0" "9" ":" || one_of "+-." ":") with false.
    change (is_byte ":" ":") with true. cbn iota. by rewrite Hne.
  - cbn [lower_letters] in Hs. apply andb_prop in Hs as [Hc Hs].
    rewrite append_String. cbn [getScheme_from]. rewrite Hc. cbn [orb].
    rewrite (IH Hs (acc ++ String c "")).
    + by rewrite append_assoc.
    + by rewrite append_assoc.
Qed.

Lemma getScheme_lower (s rest : string) :
  is_empty s = false -> lower_letters s = true ->
  getScheme (s ++ String ":" rest) = inr (s, rest).
Proof.
  intros Hne Hs. unfold getScheme.
  by rewrite (getScheme_from_lower _ rest s Hs "" Hne).
Qed.

Lemma substring_all (s : string) (n : nat) :
  String.length s <= n -> String.substring 0 n s = s.
Proof.
  revert n. induction s as [|c s IH]; intros [|n] Hn; cbn in *; try done; try lia.
  rewrite IH by lia. done.
Qed.

Lemma drop_last_app (p : string) (c : ascii) : drop_last (p ++ String c "") = p.
Proof.
  induction p as [|x p IH]; [done|]. rewrite append_String. cbn [drop_last].
  destruct (p ++ String c "") eqn:Hp.
  - destruct p; [change ("" ++ String c "") with (String c "") in Hp
                |rewrite append_String in Hp]; discriminate.
  - by rewrite IH.
Qed.

(** The [?] split of [parse], on a text whose part before the query has
    no [?]. *)
Lemma split_query (p q : string) (hasq : bool) (url : URL) :
  ContainsByte p "?" = false ->
  (hasq = false -> q = "") ->
  let rest := p ++ query_text hasq q in
  (if bool_decide (last_byte rest = Some "?"%char) && (Count rest "?" =? 1)%nat
   then (drop_last rest, set_ForceQuery true url)
   else let '(r, q', _) := Cut rest "?" in (r, set_RawQuery q' url))
  = (p, if hasq && is_empty q then set_ForceQuery true url else set_RawQuery q url).
Proof.
  intros Hp Hq. cbn zeta. rewrite Count_app, (Count_absent p) by done.
  destruct hasq; cbn [query_text andb].
  - cbn [Count]. rewrite Ascii.eqb_refl. cbn [Nat.add].
    destruct q as [|c q].
    + rewrite last_byte_app_cons. cbn [last_byte Count is_empty].
      rewrite bool_decide_eq_true_2 by done. cbn [andb Nat.eqb Nat.add].
      by rewrite drop_last_app.
    + destruct (bool_decide _ && _) eqn:Hcond.
      * apply andb_prop in Hcond as [Hlast Hcount].
        apply bool_decide_eq_true in Hlast. apply Nat.eqb_eq in Hcount.
        exfalso. rewrite last_byte_app_cons in Hlast.
        change (last_byte (String "?" (String c q))) with (last_byte (String c q)) in Hlast.
        apply last_byte_Count in Hlast. lia.
      * rewrite Cut_app_absent, Cut_sep by done. cbn [is_empty]. by rewrite append_nil_r.
  - rewrite Hq by done. rewrite append_nil_r, andb_false_r.
    by rewrite Cut_absent.
Qed.

Lemma HasPrefix_cons (c : ascii) (s p : string) :
  HasPrefix (String c s) (String c p) = HasPrefix s p.
Proof.
  unfold HasPrefix. cbn [String.prefix]. by destruct (ascii_dec c c).
Qed.

Lemma HasPrefix_nil (s : string) : HasPrefix s "" = true.
Proof. by destruct s. Qed.

Lemma plain_path_CTL (p : string) : plain_path p = true -> stringContainsCTLByte p = false.
Proof. intros H. by destruct (plain_path_bytes p H) as (_ & _ & -> & _). Qed.

(** [parse] of the text of a scheme, a host, an absolute path and a
    query. *)
Lemma parse_hierarchical (s h p q : string) (hasq : bool) :
  is_empty s = false -> lower_letters s = true ->
  is_empty h = false -> host_bytes h = true ->
  HasPrefix p "/" = true -> plain_path p = true ->
  (hasq = false -> q = "") ->
  stringContainsCTLByte q = false ->
  parse (s ++ String ":" ("//" ++ h ++ p) ++ query_text hasq q)
  = Some (inr (mkURL s "" None h p "" false (hasq && is_empty q) q "" "")).
Proof.
  intros Hs1 Hs2 Hh1 Hh2 Hp1 Hp2 Hq Hctl. unfold parse.
  assert (Hc : stringContainsCTLByte (s ++ String ":" ("//" ++ h ++ p) ++ query_text hasq q)
               = false).
  { rewrite !CTL_app. rewrite (host_bytes_CTL s) by (by apply lower_letters_host).
    change ("//" ++ h ++ p) with (String "/" (String "/" (h ++ p))).
    cbn [stringContainsCTLByte orb]. change (code ":" <? 32)%nat with false.
    change (code "/" <? 32)%nat with false. change (code "/" =? 127)%nat with false.
    change (code ":" =? 127)%nat with false. cbn [orb].
    rewrite CTL_app, host_bytes_CTL, plain_path_CTL by done.
    destruct hasq; [|done]. cbn [query_text stringContainsCTLByte orb]. exact Hctl. }
  rewrite Hc.
  destruct (String.eqb_spec (s ++ String ":" ("//" ++ h ++ p) ++ query_text hasq q) "*")
    as [Hstar|_].
  { exfalso. destruct s as [|c [|c' s]]; try discriminate. }
  rewrite <- append_assoc.
  change ((s ++ String ":" ("//" ++ h ++ p)) ++ query_text hasq q)
    with ((s ++ String ":" ("//" ++ h ++ p)) ++ query_text hasq q).
  rewrite append_assoc. change (String ":" ("//" ++ h ++ p) ++ query_text hasq q)
    with (String ":" (("//" ++ h ++ p) ++ query_text hasq q)).
  rewrite getScheme_lower by done. rewrite ToLower_lower by done.
  assert (Hnoq : ContainsByte ("//" ++ h ++ p) "?" = false).
  { rewrite !ContainsByte_app. rewrite (host_bytes_absent h "?") by done.
    by destruct (plain_path_bytes p Hp2) as (_ & -> & _). }
  rewrite (split_query _ q hasq _ Hnoq Hq).
  change ("//" ++ h ++ p) with (String "/" (String "/" (h ++ p))).
  rewrite !HasPrefix_cons, !HasPrefix_nil.
  cbn [negb andb].
  assert (Hsch : is_empty (Scheme (if hasq && is_empty q
                                   then set_ForceQuery true (set_Scheme s zeroURL)
                                   else set_RawQuery q (set_Scheme s zeroURL))) = false).
  { by destruct (hasq && is_empty q). }
  rewrite Hsch. cbn [negb orb andb].
  change (String.length (String "/" (String "/" (h ++ p))))
    with (S (S (String.length (h ++ p)))).
  change (String.substring 2 (S (S (String.length (h ++ p))))
            (String "/" (String "/" (h ++ p))))
    with (String.substring 0 (S (S (String.length (h ++ p)))) (h ++ p)).
  rewrite substring_all by lia.
  rewrite Cut_app_absent by (by apply host_bytes_absent).
  destruct p as [|c p]; [discriminate|].
  assert (c = "/"%char) as ->.
  { rewrite HasPrefix_slash in Hp1. symmetry. by apply Ascii.eqb_eq. }
  rewrite Cut_sep. cbn [fst snd]. rewrite append_nil_r.
  rewrite (host_bytes_absent h "@") by done.
  assert (Hb : HasPrefix h "[" = false).
  { destruct h as [|x h]; [done|]. unfold HasPrefix. cbn [String.prefix].
    destruct (ascii_dec "[" x) as [<-|_]; [|done]. cbn in Hh2. discriminate. }
  rewrite Hb. cbn [orb]. unfold parseHost_name.
  rewrite FromLast_absent by (by apply host_bytes_absent).
  rewrite unescape_host by done.
  change ("/" ++ p) with (String "/" p). rewrite setPath_plain by done.
  by destruct hasq, q.
Qed.

End hierarchical_text.

Section hierarchical_url.
Import neturl strings.

Lemma CTL_before_hash (q : string) :
  stringContainsCTLByte q = false -> stringContainsCTLByte (before_hash q) = false.
Proof.
  unfold before_hash. induction q as [|c q IH]; [done|]. cbn [stringContainsCTLByte Cut].
  intros [Hc Hq]%orb_false_elim. destruct (Ascii.eqb c "#"); [done|].
  specialize (IH Hq). destruct (Cut q "#") as [[x y] f]. cbn in *. by rewrite Hc, IH.
Qed.

Lemma setFragment_fields (f : string) (u u' : URL) :
  setFragment f u = inr u' ->
  Scheme u' = Scheme u /\ Opaque u' = Opaque u /\ User u' = User u
  /\ Host u' = Host u /\ Path u' = Path u /\ RawQuery u' = RawQuery u.
Proof.
  unfold setFragment. destruct (unescape f encodeFragment) as [e|frag]; cbn; [done|].
  by intros [= <-].
Qed.

(** The text of a URL made of scheme, host, path and query. *)
Lemma URL_String_hierarchical (s h p q : string) :
  is_empty s = false -> is_empty h = false -> host_bytes h = true ->
  HasPrefix p "/" = true -> plain_path p = true ->
  URL_String (set_RawQuery q (hierarchical s None h p))
  = s ++ String ":" ("//" ++ h ++ p) ++ query_text (negb (is_empty q)) q.
Proof.
  intros Hs Hh1 Hh2 Hp1 Hp2. unfold URL_String.
  cbn [Scheme Opaque User Host Path OmitHost ForceQuery RawQuery Fragment
       set_RawQuery hierarchical is_empty negb orb andb].
  rewrite Hs, Hh1. cbn [negb orb andb].
  rewrite (EscapedPath_plain (set_RawQuery q (hierarchical s None h p))) by done.
  change (Path (set_RawQuery q (hierarchical s None h p))) with p.
  rewrite escape_host by done.
  destruct p as [|c p]; [discriminate|].
  rewrite HasPrefix_slash in Hp1. rewrite Hp1. cbn [negb andb].
  replace (is_empty ((s ++ ":") ++ ("//" ++ "" ++ h) ++ "")) with false
    by (by destruct s).
  cbn [andb].
  destruct q as [|cq q]; cbn [is_empty negb query_text];
    repeat (rewrite ?append_String, ?append_assoc, ?append_nil_r;
            repeat (change ("" ++ ?x) with x)).
  all: reflexivity.
Qed.

(** What [url.Parse] reads from such a text: never outside the model, and
    when it succeeds, the same scheme, host and path, and the query up to
    its first [#]. *)
Lemma Parse_hierarchical (s h p q : string) :
  is_empty s = false -> lower_letters s = true ->
  is_empty h = false -> host_bytes h = true ->
  HasPrefix p "/" = true -> plain_path p = true ->
  exists res,
    neturl.Parse (s ++ String ":" ("//" ++ h ++ p) ++ query_text (negb (is_empty q)) q)
    = Some res
    /\ forall u, res = inr u ->
         Scheme u = s /\ Opaque u = "" /\ User u = None /\ Host u = h /\ Path u = p
         /\ RawQuery u = before_hash q.
Proof.
  intros Hs1 Hs2 Hh1 Hh2 Hp1 Hp2. unfold neturl.Parse.
  set (pre := s ++ String ":" ("//" ++ h ++ p)).
  assert (Hpre : ContainsByte pre "#" = false /\ stringContainsCTLByte pre = false).
  { subst pre. rewrite ContainsByte_app, CTL_app.
    change (String ":" ("//" ++ h ++ p)) with (String ":" (String "/" (String "/" (h ++ p)))).
    unfold ContainsByte. cbn [one_of stringContainsCTLByte].
    fold (ContainsByte s "#"). fold (ContainsByte (h ++ p) "#").
    rewrite ContainsByte_app, CTL_app.
    rewrite (host_bytes_absent s "#"), (host_bytes_absent h "#"), !host_bytes_CTL,
      plain_path_CTL by (done || by apply lower_letters_host).
    by destruct (plain_path_bytes p Hp2) as (-> & _). }
  destruct Hpre as [Hhash Hctl].
  change (s ++ String ":" ("//" ++ h ++ p) ++ query_text (negb (is_empty q)) q)
    with (s ++ (String ":" ("//" ++ h ++ p)) ++ query_text (negb (is_empty q)) q).
  rewrite <- append_assoc. fold pre.
  rewrite Cut_app_absent by done.
  assert (Hqt : (Cut (query_text (negb (is_empty q)) q) "#").1.1
                = query_text (negb (is_empty q)) (before_hash q)).
  { destruct q as [|c q]; [done|]. cbn [is_empty negb query_text].
    unfold before_hash. change (Cut (String "?" (String c q)) "#")
      with (let '(b, a, f) := Cut (String c q) "#" in (String "?" b, a, f)).
    by destruct (Cut (String c q) "#") as [[x y] f]. }
  destruct (Cut (query_text (negb (is_empty q)) q) "#") as [[x frag] found].
  cbn [fst snd] in *. subst x.
  destruct (stringContainsCTLByte (before_hash q)) eqn:Hq.
  { exists (inl (url_Error "parse" (pre ++ query_text (negb (is_empty q)) (before_hash q))
                   (errorString "net/url: invalid control character in URL"))).
    split; [|done]. unfold parse. rewrite CTL_app, Hctl.
    destruct q as [|c q]; [done|]. cbn [is_empty negb query_text stringContainsCTLByte].
    change (code "?" <? 32)%nat with false. change (code "?" =? 127)%nat with false.
    cbn [orb]. by rewrite Hq. }
  subst pre. rewrite append_assoc.
  change (String ":" ("//" ++ h ++ p) ++ ?x) with (String ":" ("//" ++ h ++ p) ++ x).
  rewrite (parse_hierarchical s h p (before_hash q) (negb (is_empty q)))
    by (done || by destruct q).
  destruct (is_empty frag).
  { eexists. split; [reflexivity|]. by intros u [= <-]. }
  destruct (setFragment frag _) as [e|u'] eqn:Hf.
  { eexists. split; [reflexivity|]. done. }
  eexists. split; [reflexivity|]. intros u [= <-].
  apply setFragment_fields in Hf as (-> & -> & -> & -> & -> & ->). done.
Qed.

(** Without a query, the text is read back as the URL it was written
    from. *)
Lemma Parse_hierarchical_plain (s h p : string) :
  is_empty s = false -> lower_letters s = true ->
  is_empty h = false -> host_bytes h = true ->
  HasPrefix p "/" = true -> plain_path p = true ->
  neturl.Parse (URL_String (set_RawQuery "" (hierarchical s None h p)))
  = Some (inr (hierarchical s None h p)).
Proof.
  intros Hs1 Hs2 Hh1 Hh2 Hp1 Hp2. rewrite URL_String_hierarchical by done.
  cbn [is_empty negb query_text]. unfold neturl.Parse.
  rewrite Cut_absent.
  - pose proof (parse_hierarchical s h p "" false Hs1 Hs2 Hh1 Hh2 Hp1 Hp2
                  (fun _ => eq_refl) eq_refl) as H.
    cbn [query_text] in H. rewrite H. reflexivity.
  - rewrite ContainsByte_app.
    change (String ":" ("//" ++ h ++ p) ++ "")
      with (String ":" (String "/" (String "/" ((h ++ p) ++ "")))).
    unfold ContainsByte. cbn [one_of].
    fold (ContainsByte s "#"). fold (ContainsByte ((h ++ p) ++ "") "#").
    rewrite append_nil_r, ContainsByte_app.
    rewrite (host_bytes_absent s "#"), (host_bytes_absent h "#")
      by (done || by apply lower_letters_host).
    by destruct (plain_path_bytes p Hp2) as (-> & _).
Qed.

End hierarchical_url.

Section parsed.
Import neturl strings.

Lemma scheme_byte_no_mark (c : ascii) :
  between "a" "z" c || between "A" "Z" c || between "0" "9" c || one_of "+-." c = true ->
  one_of "?#" c = false.
Proof. destruct c as [[] [] [] [] [] [] [] []]; vm_compute; congruence. Qed.

Lemma ToLowerByte_no_mark (c : ascii) : one_of "?#" (ToLowerByte c) = one_of "?#" c.
Proof. destruct c as [[] [] [] [] [] [] [] []]; reflexivity. Qed.

Lemma no_marks_ToLower (s : string) : no_marks (ToLower s) = no_marks s.
Proof.
  induction s as [|c s IH]; [done|]. cbn [ToLower].
  by rewrite !no_marks_cons, ToLowerByte_no_mark, IH.
Qed.

Lemma no_marks_absent (s : string) :
  no_marks s = true <-> ContainsByte s "?" = false /\ ContainsByte s "#" = false.
Proof. unfold no_marks. rewrite andb_true_iff, !negb_true_iff. done. Qed.

(** What [getScheme] splits off: a scheme without [?] or [#], and a rest
    that holds no byte that the text did not hold. *)
Lemma getScheme_from_parts (raw : string) (s acc sch rest : string) :
  no_marks acc = true ->
  getScheme_from raw acc s = inr (sch, rest) ->
  no_marks sch = true
  /\ forall c, ContainsByte raw c = false -> ContainsByte s c = false ->
               ContainsByte rest c = false.
Proof.
  revert acc. induction s as [|x s IH]; intros acc Hacc.
  - cbn. intros [= <- <-]. done.
  - cbn [getScheme_from].
    assert (Hstep : between "a" "z" x || between "A" "Z" x || between "0" "9" x
                    || one_of "+-." x = true ->
                    getScheme_from raw (acc ++ String x "") s = inr (sch, rest) ->
                    no_marks sch = true
                    /\ forall c, ContainsByte raw c = false ->
                                 ContainsByte (String x s) c = false ->
                                 ContainsByte rest c = false).
    { intros Hx Hg. apply IH in Hg as [H1 H2].
      - split; [done|]. intros c Hraw Hs. apply H2; [done|].
        unfold ContainsByte in *. cbn [one_of] in Hs. by apply orb_false_elim in Hs as [_ ?].
      - rewrite no_marks_app, Hacc, no_marks_cons, (scheme_byte_no_mark x Hx). done. }
    destruct (between "a" "z" x || between "A" "Z" x) eqn:H1.
    { by apply Hstep. }
    destruct (between "0" "9" x || one_of "+-." x) eqn:H2.
    { destruct (is_empty acc); [by intros [= <- <-]|].
      apply Hstep. cbn [orb]. exact H2. }
    destruct (is_byte ":" x).
    { destruct (is_empty acc); [done|]. intros [= <- <-]. split; [done|].
      intros c _ Hs. unfold ContainsByte in *. cbn [one_of] in Hs.
      by apply orb_false_elim in Hs as [_ ?]. }
    by intros [= <- <-].
Qed.

Lemma ContainsByte_drop_last (s : string) (c : ascii) :
  ContainsByte s c = false -> ContainsByte (drop_last s) c = false.
Proof.
  unfold ContainsByte. induction s as [|x s IH]; [done|]. cbn [one_of drop_last].
  intros [Hx Hs]%orb_false_elim. destruct s as [|y s]; [done|].
  cbn [one_of]. rewrite Hx. by apply IH.
Qed.

Lemma drop_last_only (s : string) (c : ascii) :
  last_byte s = Some c -> Count s c = 1 -> ContainsByte (drop_last s) c = false.
Proof.
  unfold ContainsByte. induction s as [|x s IH]; [done|]. cbn [last_byte Count drop_last].
  destruct s as [|y s]; [done|]. intros Hlast Hcount.
  pose proof (last_byte_Count _ _ Hlast) as Hpos.
  destruct (Ascii.eqb x c) eqn:Hx; [lia|].
  cbn [one_of]. rewrite Hx. apply IH; [done|]. cbn [Nat.add] in Hcount. done.
Qed.

Lemma setPath_well_formed (p : string) (u u' : URL) :
  setPath p u = inr u' -> well_formed u' = well_formed u.
Proof.
  unfold setPath. destruct (unescape p encodePath) as [e|path]; cbn; [done|].
  by intros [= <-].
Qed.

Lemma parse_well_formed (x : string) (u : URL) :
  ContainsByte x "#" = false -> parse x = Some (inr u) -> well_formed u = true.
Proof.
  intros Hx. unfold parse.
  destruct (stringContainsCTLByte x); [discriminate|].
  destruct (String.eqb x "*"); [by intros [= <-]|].
  destruct (getScheme x) as [e|[sch rest]] eqn:Hg; [discriminate|].
  apply (getScheme_from_parts x x "" sch rest eq_refl) in Hg as [Hsch Hrest].
  specialize (Hrest "#"%char Hx Hx).
  set (url0 := set_Scheme (ToLower sch) zeroURL).
  assert (Hsplit : forall rest' url',
             (if bool_decide (last_byte rest = Some "?"%char) && (Count rest "?" =? 1)%nat
              then (drop_last rest, set_ForceQuery true url0)
              else let '(r, q, _) := Cut rest "?" in (r, set_RawQuery q url0))
             = (rest', url') ->
             no_marks rest' = true /\ Scheme url' = ToLower sch /\ Opaque url' = "").
  { intros rest' url'. destruct (bool_decide _ && _) eqn:Hc.
    - apply andb_prop in Hc as [Hl Hn]. apply bool_decide_eq_true in Hl.
      apply Nat.eqb_eq in Hn. intros [= <- <-]. split; [|done].
      apply no_marks_absent. split; [by apply drop_last_only|by apply ContainsByte_drop_last].
    - pose proof (Cut_fst_absent rest "?") as H1.
      pose proof (ContainsByte_Cut rest "?" "#" Hrest) as H2.
      destruct (Cut rest "?") as [[r q] f]. cbn [fst] in *. intros [= <- <-].
      split; [|done]. by apply no_marks_absent. }
  destruct (if bool_decide _ && _ then _ else _) as [rest' url'].
  destruct (Hsplit rest' url' eq_refl) as (Hr & Hs & Ho).
  assert (Hwf : well_formed url' = true).
  { unfold well_formed. by rewrite Hs, Ho, no_marks_ToLower, Hsch. }
  assert (Hwf' : forall f, well_formed (set_OmitHost f url') = true) by done.
  assert (Hwh : forall h, well_formed (set_Host h url') = true) by done.
  repeat case_match; intros; simplify_eq; try done;
    try (match goal with
         | H : setPath _ _ = inr _ |- _ => apply setPath_well_formed in H; by rewrite H
         end).
  unfold well_formed. cbn. by rewrite Hs, no_marks_ToLower, Hsch, Hr.
Qed.

(** Every URL that the model of [url.Parse] returns is well formed. *)
Lemma Parse_well_formed (s : string) (u : URL) :
  neturl.Parse s = Some (inr u) -> well_formed u = true.
Proof.
  unfold neturl.Parse. pose proof (Cut_fst_absent s "#") as Hx.
  destruct (Cut s "#") as [[x frag] f]. cbn [fst] in Hx.
  destruct (parse x) as [[e|url]|] eqn:Hp; try discriminate.
  apply parse_well_formed in Hp; [|done].
  destruct (is_empty frag); [by intros [= <-]|].
  destruct (setFragment frag url) as [e|url'] eqn:Hf; [discriminate|].
  intros [= <-]. apply setFragment_fields in Hf as (Hs & Ho & _).
  unfold well_formed in *. by rewrite Hs, Ho.
Qed.

End parsed.

Lemma merged_absolute (base ref : string) :
  strings.HasPrefix base "/" = true -> strings.HasPrefix (merged base ref) "/" = true.
Proof.
  intros Hb. unfold merged. destruct (strings.HasPrefix ref "/") eqn:Hr; [done|].
  destruct base as [|c base]; [discriminate|].
  rewrite HasPrefix_slash in Hb. apply Ascii.eqb_eq in Hb as <-.
  cbn [strings.UpToLast]. rewrite Ascii.eqb_refl.
  destruct (strings.ContainsByte base "/");
    [rewrite append_String|change ("/" ++ ref) with (String "/" ref)];
    by rewrite HasPrefix_slash.
Qed.

Lemma simple_base_fields (u : neturl.URL) :
  simple_base u = true ->
  strings.is_empty (neturl.Scheme u) = false /\ lower_letters (neturl.Scheme u) = true
  /\ neturl.User u = None
  /\ strings.is_empty (neturl.Host u) = false /\ host_bytes (neturl.Host u) = true
  /\ strings.HasPrefix (neturl.Path u) "/" = true /\ plain_path (neturl.Path u) = true
  /\ neturl.RawPath u = "".
Proof.
  unfold simple_base. rewrite !andb_true_iff, !negb_true_iff, bool_decide_eq_true.
  intros ((((((((H1 & H2) & H3) & H4) & H5) & H6) & H7) & H8) & H9).
  repeat split; try done. by destruct (neturl.RawPath u).
Qed.

Section simple_requests.
Context (E : Env) (HParse : Parse_as_modelled E).
Implicit Types r : Request E.

(** The reference of a simple call path, and its resolution. *)
Lemma simple_path_resolution r path :
  simple_base (url r) = true ->
  simple_path path = true ->
  dot_free (merged (neturl.Path (url r)) path) = true ->
  Parse E path = inr (neturl.set_Path path neturl.zeroURL)
  /\ neturl.ResolveReference (url r) (neturl.set_Path path neturl.zeroURL)
     = hierarchical (neturl.Scheme (url r)) None (neturl.Host (url r))
         (merged (neturl.Path (url r)) path)
  /\ strings.HasPrefix (merged (neturl.Path (url r)) path) "/" = true
  /\ plain_path (merged (neturl.Path (url r)) path) = true.
Proof.
  intros (Hs1 & Hs2 & Hu & Hh1 & Hh2 & Hp1 & Hp2 & Hraw)%simple_base_fields Hpath Hdots.
  split; [by apply HParse, Parse_simple_path|].
  unfold simple_path in Hpath. rewrite !andb_true_iff, !negb_true_iff in Hpath.
  destruct Hpath as (((Hne & Hplain) & Hcolon) & Hslash).
  pose proof (merged_absolute _ path Hp1) as Habs.
  split; [|split; [done|]].
  - rewrite ResolveReference_simple by done. by rewrite Hu.
  - unfold merged. destruct (strings.HasPrefix path "/"); [done|].
    by rewrite plain_path_app, plain_path_UpToLast, Hplain.
Qed.

(** The URL of the request for a simple call path, whatever the query
    parameters. *)
Lemma simple_path_request_URL r c method path req :
  simple_base (url r) = true ->
  simple_path path = true ->
  dot_free (merged (neturl.Path (url r)) path) = true ->
  Request_Request r c method path = inr req ->
  neturl.Scheme (http.URL req) = neturl.Scheme (url r)
  /\ neturl.Opaque (http.URL req) = ""
  /\ neturl.User (http.URL req) = None
  /\ neturl.Host (http.URL req) = neturl.Host (url r)
  /\ neturl.Path (http.URL req) = merged (neturl.Path (url r)) path
  /\ neturl.RawQuery (http.URL req) = before_hash (plain_query (queryParams r)).
Proof.
  intros Hbase Hpath Hdots Hreq.
  destruct (simple_path_resolution r path Hbase Hpath Hdots) as (Href & Hres & Habs & Hplain).
  apply simple_base_fields in Hbase as (Hs1 & Hs2 & Hu & Hh1 & Hh2 & Hp1 & Hp2 & Hraw).
  apply Request_Request_inr in Hreq as (ref & q & req0 & Href' & Hq & Hnew & ->).
  rewrite Href in Href'. injection Href' as <-.
  rewrite QueryUnescape_Values_Encode in Hq. injection Hq as <-.
  apply NewRequestWithContext_inr in Hnew as (cx & u & _ & Hparsed & ->).
  cbn [http.URL http.set_Header].
  unfold request_url in Hparsed. rewrite Hres in Hparsed.
  rewrite URL_String_hierarchical in Hparsed by done.
  destruct (Parse_hierarchical (neturl.Scheme (url r)) (neturl.Host (url r))
              (merged (neturl.Path (url r)) path) (plain_query (queryParams r))
              Hs1 Hs2 Hh1 Hh2 Habs Hplain) as (res & Hmodel & Hfields).
  rewrite (HParse _ _ Hmodel) in Hparsed. subst res.
  destruct (Hfields u eq_refl) as (Hf1 & Hf2 & Hf3 & Hf4 & Hf5 & Hf6).
  cbn [neturl.Scheme neturl.Opaque neturl.User neturl.Host neturl.Path neturl.RawQuery
       neturl.set_Host].
  by rewrite Hf4, removeEmptyPort_host.
Qed.

(** Without query parameters, a simple call path always gives a request,
    and its URL is the resolution. *)
Lemma simple_path_request r cx v path :
  simple_base (url r) = true ->
  simple_path path = true ->
  dot_free (merged (neturl.Path (url r)) path) = true ->
  queryParams r = ∅ ->
  exists req,
    Request_Request r (Some cx) (method_of v) path = inr req
    /\ http.URL req
       = hierarchical (neturl.Scheme (url r)) None (neturl.Host (url r))
           (merged (neturl.Path (url r)) path).
Proof.
  intros Hbase Hpath Hdots Hqs.
  destruct (simple_path_resolution r path Hbase Hpath Hdots) as (Href & Hres & Habs & Hplain).
  apply simple_base_fields in Hbase as (Hs1 & Hs2 & Hu & Hh1 & Hh2 & Hp1 & Hp2 & Hraw).
  pose proof (Parse_hierarchical_plain _ _ _ Hs1 Hs2 Hh1 Hh2 Habs Hplain) as Hmodel.
  apply HParse in Hmodel.
  unfold Request_Request. rewrite Href, Hqs. cbn [bind].
  change (neturl.QueryUnescape (neturl.Values_Encode ∅)) with (@inr error _ "").
  cbn [bind]. unfold request_url. rewrite Hres.
  unfold http.NewRequestWithContext.
  replace (negb (http.validMethod
                   (if strings.is_empty (method_of v) then "GET" else method_of v)))
    with false by (by destruct v).
  rewrite Hmodel. cbn [bind]. eexists. split; [reflexivity|].
  cbn [http.URL http.set_Header neturl.Host hierarchical].
  by rewrite removeEmptyPort_host.
Qed.

End simple_requests.




(** * Further properties *)

Section outcomes.
Context {E : Env}.
Implicit Types (r : Request E) (w : World E) (c : option (Ctx E)).

Lemma call_do v r w c path :
  marshal_fails v r = None ->
  call v r w c path = do (prepared v r) (prelogged v r w) c (method_of v) path.
Proof.
  unfold marshal_fails, prepared, prelogged.
  destruct (serializes v) eqn:Hv.
  - destruct (body r) as [b|] eqn:Hb.
    + destruct (Marshal E b) as [bytes err] eqn:Hm. cbn. intros ->.
      by rewrite (call_marshal_success v r w c path b bytes).
    + intros _. destruct v; try discriminate; cbn; unfold Post, Put, Patch; by rewrite Hb.
  - intros _. by apply call_not_serializing.
Qed.

Lemma foldl_Header_Set_unique (l : list (string * string)) (h : gmap string (list string))
    (k v : string) :
  (k, v) ∈ l ->
  (forall k' v', (k', v') ∈ l ->
     http.CanonicalMIMEHeaderKey k' = http.CanonicalMIMEHeaderKey k -> (k', v') = (k, v)) ->
  foldl (fun acc kv => http.Header_Set kv.1 kv.2 acc) h l !! http.CanonicalMIMEHeaderKey k
  = Some [v].
Proof.
  intros Hin Huniq.
  assert (Hkeep : forall l2 h2,
             (forall kv, kv ∈ l2 -> kv ∈ l) ->
             h2 !! http.CanonicalMIMEHeaderKey k = Some [v] ->
             foldl (fun acc kv => http.Header_Set kv.1 kv.2 acc) h2 l2
               !! http.CanonicalMIMEHeaderKey k = Some [v]).
  { induction l2 as [|[k' v'] l2 IH]; intros h2 Hsub Hh2; [done|].
    cbn [foldl]. apply IH.
    - intros kv Hkv. apply Hsub. by apply list_elem_of_further.
    - unfold http.Header_Set. cbn [fst snd].
      destruct (decide (http.CanonicalMIMEHeaderKey k' = http.CanonicalMIMEHeaderKey k))
        as [Heq|Hne].
      + specialize (Huniq k' v' (Hsub _ (list_elem_of_here _ _)) Heq).
        injection Huniq as -> ->. by rewrite lookup_insert_eq.
      + by rewrite lookup_insert_ne. }
  apply list_elem_of_split in Hin as (l1 & l2 & ->).
  rewrite foldl_app. cbn [foldl]. apply Hkeep.
  - intros kv Hkv. apply elem_of_app. right. by apply list_elem_of_further.
  - unfold http.Header_Set. cbn [fst snd]. by rewrite lookup_insert_eq.
Qed.

Lemma apply_headers_unique (hs : gmap string string) (k v : string) :
  range_visits_all E ->
  hs !! k = Some v ->
  (forall k', is_Some (hs !! k') ->
     http.CanonicalMIMEHeaderKey k' = http.CanonicalMIMEHeaderKey k -> k' = k) ->
  apply_headers E hs ∅ !! http.CanonicalMIMEHeaderKey k = Some [v].
Proof.
  intros Hr Hk Huniq. unfold apply_headers. apply foldl_Header_Set_unique.
  - rewrite (Hr _ hs). by apply elem_of_map_to_list.
  - intros k' v' Hin Hc. rewrite (Hr _ hs) in Hin. apply elem_of_map_to_list in Hin.
    assert (k' = k) as -> by (apply Huniq; [by exists v'|done]).
    congruence.
Qed.

Lemma request_header_lookup_other r (h : gmap string (list string)) (K : string) :
  K <> "Content-Length" ->
  request_header r h !! K = apply_headers E (headers r) h !! K.
Proof.
  intros HK. unfold request_header.
  destruct (0 <? _)%Z; [|done].
  unfold http.Header_Add. by rewrite lookup_insert_ne.
Qed.

End outcomes.

(** ** Headers of the request *)

Lemma New_headers_applied (E : Env) (accepts : string) :
  range_visits_all E ->
  apply_headers E {["Accept" := accepts]} ∅ = {["Accept" := [accepts]]}.
Proof.
  intros Hr. unfold apply_headers.
  pose proof (Hr _ ({["Accept" := accepts]} : gmap string string)) as Hp.
  rewrite map_to_list_singleton in Hp. apply Permutation_singleton_r in Hp.
  rewrite Hp. reflexivity.
Qed.

(** X1. A request built from a new builder carries exactly one header,
    [Accept] with the value given to [New], has an empty body and content
    length 0, and its URL is made from the text of the resolved reference
    with an empty query. *)
Theorem new_builder_request_is_bare (E : Env) (u : neturl.URL) (cl : Client E)
    (accepts : string) (c : option (Ctx E)) (method path : string)
    (req : http.Request (Ctx E))
    (Hrange : range_visits_all E)
    (Hreq : Request_Request (New E u cl accepts) c method path = inr req) :
  http.Header req = {["Accept" := [accepts]]}
  /\ http.Body req = []
  /\ http.ContentLength req = 0%Z
  /\ exists ref req0,
       Parse E path = inr ref
       /\ http.NewRequestWithContext (Parse E) c method
            (neturl.URL_String (neturl.set_RawQuery "" (neturl.ResolveReference u ref)))
            [] = inr req0
       /\ http.URL req = http.URL req0.
Proof.
  pose proof Hreq as [Hb Hh]%Request_Request_Body.
  apply Request_Request_inr in Hreq as (ref & q & req0 & Href & Hq & Hnew & ->).
  cbn in Hq. injection Hq as <-.
  split; [|split; [done|split]].
  - rewrite Hh. cbn. by apply New_headers_applied.
  - apply NewRequestWithContext_inr in Hnew as (cx & u' & _ & _ & ->). done.
  - exists ref, req0. done.
Qed.

(** X2. [WithHeaders] merges by key: a name of the incoming map gets the
    incoming value, a name it lacks keeps its value, and no other field of
    the builder changes. *)
Theorem WithHeaders_overwrites_by_key (E : Env) (r : Request E)
    (hs : gmap string string) (Hrange : range_visits_all E) :
  headers (WithHeaders hs r) = hs ∪ headers r
  /\ (forall k, headers (WithHeaders hs r) !! k
        = match hs !! k with
          | Some v => Some v
          | None => headers r !! k
          end)
  /\ WithHeaders hs r = set_headers (hs ∪ headers r) r.
Proof.
  assert (Heq : WithHeaders hs r = set_headers (hs ∪ headers r) r).
  { unfold WithHeaders. by rewrite assign_all_union. }
  rewrite Heq. cbn. split; [done|]. split; [|done].
  intros k. rewrite lookup_union. destruct (hs !! k), (headers r !! k); reflexivity.
Qed.

(** X3. A header of the builder reaches the request under its canonical
    name with exactly its value, when no other header of the builder is a
    different spelling of the same name and the name is not
    [Content-Length]. *)
Theorem header_reaches_request (E : Env) (r : Request E) (c : option (Ctx E))
    (method path : string) (req : http.Request (Ctx E)) (k v : string)
    (Hrange : range_visits_all E)
    (Hreq : Request_Request r c method path = inr req)
    (Hk : headers r !! k = Some v)
    (Hspelling : forall k', is_Some (headers r !! k') ->
       http.CanonicalMIMEHeaderKey k' = http.CanonicalMIMEHeaderKey k -> k' = k)
    (Hcl : http.CanonicalMIMEHeaderKey k <> "Content-Length") :
  http.Header_Values (http.Header req) k = [v].
Proof.
  apply Request_Request_Body in Hreq as [_ ->]. unfold http.Header_Values.
  rewrite request_header_lookup_other by done.
  by rewrite (apply_headers_unique (headers r) k v).
Qed.

Lemma foldl_Header_Set_origin (l : list (string * string)) (h : gmap string (list string))
    (K : string) (vs : list string) :
  foldl (fun acc kv => http.Header_Set kv.1 kv.2 acc) h l !! K = Some vs ->
  h !! K = Some vs
  \/ exists k v, (k, v) ∈ l /\ http.CanonicalMIMEHeaderKey k = K /\ vs = [v].
Proof.
  revert h. induction l as [|[k v] l IH]; intros h Hl; [by left|].
  cbn [foldl] in Hl. apply IH in Hl as [Hl|(k' & v' & Hin & Hk & ->)].
  - unfold http.Header_Set in Hl. cbn [fst snd] in Hl.
    destruct (decide (http.CanonicalMIMEHeaderKey k = K)) as [<-|Hne].
    + rewrite lookup_insert_eq in Hl. injection Hl as <-.
      right. exists k, v. split; [apply list_elem_of_here|done].
    + rewrite lookup_insert_ne in Hl by done. by left.
  - right. exists k', v'. split; [by apply list_elem_of_further|done].
Qed.

(** X4. The request carries nothing of its own making but
    [Content-Length]: every other header entry is the single value of a
    builder header whose canonical name is the entry's key, and
    [Content-Length] without a builder header of that name appears only
    with a non-empty body. *)
Theorem request_headers_come_from_builder (E : Env) (r : Request E) (c : option (Ctx E))
    (method path : string) (req : http.Request (Ctx E)) (K : string) (vs : list string)
    (Hrange : range_visits_all E)
    (Hreq : Request_Request r c method path = inr req)
    (HK : http.Header req !! K = Some vs) :
  (K = "Content-Length" /\ bodyBytes r <> [])
  \/ exists k v, headers r !! k = Some v /\ http.CanonicalMIMEHeaderKey k = K /\ vs = [v].
Proof.
  apply Request_Request_Body in Hreq as [_ Hh]. rewrite Hh in HK.
  destruct (decide (K = "Content-Length" /\ bodyBytes r <> [])) as [?|Hno]; [by left|].
  right.
  assert (Happ : apply_headers E (headers r) ∅ !! K = Some vs).
  { destruct (decide (bodyBytes r = [])) as [Hb|Hb].
    - by rewrite request_header_nil in HK.
    - rewrite <- request_header_lookup_other; [done|]. intros ->. by apply Hno. }
  unfold apply_headers in Happ.
  apply foldl_Header_Set_origin in Happ as [Happ|(k & v & Hin & Hk & ->)]; [done|].
  exists k, v. rewrite (Hrange _ (headers r)) in Hin.
  by apply elem_of_map_to_list in Hin.
Qed.

(** X5. After [WithAuthorization token] the request carries [Authorization]
    with the one value ["Bearer " ++ token] (no other spelling of the name
    being among the builder's headers), and a later token replaces an
    earlier one. *)
Theorem WithAuthorization_bearer (E : Env) (r : Request E) (token : string)
    (c : option (Ctx E)) (method path : string) (req : http.Request (Ctx E))
    (Hrange : range_visits_all E)
    (Hspelling : forall k', is_Some (headers r !! k') ->
       http.CanonicalMIMEHeaderKey k' = "Authorization" -> k' = "Authorization")
    (Hreq : Request_Request (WithAuthorization token r) c method path = inr req) :
  http.Header_Values (http.Header req) "Authorization" = ["Bearer " ++ token]
  /\ forall earlier, WithAuthorization token (WithAuthorization earlier r)
                     = WithAuthorization token r.
Proof.
  split.
  - apply Request_Request_Body in Hreq as [_ ->]. unfold http.Header_Values.
    rewrite request_header_lookup_other by done.
    rewrite (apply_headers_unique _ "Authorization" ("Bearer " ++ token));
      [done|done|apply lookup_insert_eq|].
    intros k' [v' Hk'] Hc. cbn in Hk'.
    destruct (decide ("Authorization" = k')) as [<-|Hne]; [done|].
    rewrite lookup_insert_ne in Hk' by done. apply Hspelling; [by exists v'|done].
  - intros earlier. unfold WithAuthorization. cbn. by rewrite insert_insert_eq.
Qed.

Section spellings.
Context {E : Env}.
Implicit Types (r : Request E).

(** A header name that has been set stays set. *)
Lemma foldl_Header_Set_present (l : list (string * string))
    (h : gmap string (list string)) (K : string) :
  is_Some (h !! K)
  \/ (exists k v, (k, v) ∈ l /\ http.CanonicalMIMEHeaderKey k = K) ->
  is_Some (foldl (fun acc kv => http.Header_Set kv.1 kv.2 acc) h l !! K).
Proof.
  revert h. induction l as [|[k v] l IH]; intros h Hsrc.
  - destruct Hsrc as [Hh|(k & v & Hin & _)]; [done|]. by apply elem_of_nil in Hin.
  - cbn [foldl fst snd]. apply IH. unfold http.Header_Set.
    destruct (decide (http.CanonicalMIMEHeaderKey k = K)) as [<-|Hne].
    + left. by rewrite lookup_insert_eq.
    + rewrite lookup_insert_ne by done.
      destruct Hsrc as [Hh|(k' & v' & Hin & Hk')]; [by left|].
      apply elem_of_cons in Hin as [[= -> ->]|Hin]; [done|].
      right. by exists k', v'.
Qed.

(** A header name with a spelling among the builder's headers carries, in
    the request, the value of one of its spellings. *)
Lemma apply_headers_some_spelling (hs : gmap string string) (k v : string) :
  range_visits_all E ->
  hs !! k = Some v ->
  exists k' v',
    hs !! k' = Some v'
    /\ http.CanonicalMIMEHeaderKey k' = http.CanonicalMIMEHeaderKey k
    /\ apply_headers E hs ∅ !! http.CanonicalMIMEHeaderKey k = Some [v'].
Proof.
  intros Hr Hk. unfold apply_headers.
  assert (Hin : (k, v) ∈ range E hs).
  { rewrite (Hr _ hs). by apply elem_of_map_to_list. }
  destruct (foldl_Header_Set_present (range E hs) ∅ (http.CanonicalMIMEHeaderKey k))
    as [vs Hvs]; [right; by exists k, v|].
  pose proof Hvs as [Hempty|(k' & v' & Hin' & Hk' & ->)]%foldl_Header_Set_origin;
    [by rewrite lookup_empty in Hempty|].
  exists k', v'. rewrite (Hr _ hs) in Hin'. apply elem_of_map_to_list in Hin'. done.
Qed.

End spellings.

(** X6. A [Content-Length] header set by the caller, under any spelling of
    the name, is kept and not replaced by the computed length. The request
    carries as first value the value of one of the spellings of the name
    among the builder's headers (the caller's own value when the name is
    spelled in one way only), and the length of the body follows as a
    second value when there are body bytes. *)
Theorem caller_Content_Length_is_kept (E : Env) (r : Request E)
    (c : option (Ctx E)) (method path : string) (req : http.Request (Ctx E))
    (k v : string)
    (Hrange : range_visits_all E)
    (Hreq : Request_Request r c method path = inr req)
    (Hk : headers r !! k = Some v)
    (Hcanon : http.CanonicalMIMEHeaderKey k = "Content-Length") :
  exists k' v',
    headers r !! k' = Some v'
    /\ http.CanonicalMIMEHeaderKey k' = "Content-Length"
    /\ ((forall k2, is_Some (headers r !! k2) ->
           http.CanonicalMIMEHeaderKey k2 = "Content-Length" -> k2 = k) ->
        v' = v)
    /\ http.Header_Values (http.Header req) "Content-Length"
       = match bodyBytes r with
         | [] => [v']
         | _ => [v'; strconv.Itoa (Z.of_nat (List.length (bodyBytes r)))]
         end.
Proof.
  apply Request_Request_Body in Hreq as [_ ->].
  destruct (apply_headers_some_spelling (headers r) k v Hrange Hk)
    as (k' & v' & Hk' & Hc' & Hown).
  rewrite Hcanon in Hc', Hown.
  exists k', v'. split; [done|]. split; [done|]. split.
  { intros Honly. assert (k' = k) as -> by (apply Honly; [by exists v'|done]).
    congruence. }
  assert (Hvals : http.Header_Values (apply_headers E (headers r) ∅) "Content-Length"
                  = [v']).
  { unfold http.Header_Values.
    change (http.CanonicalMIMEHeaderKey "Content-Length") with "Content-Length".
    by rewrite Hown. }
  destruct (bodyBytes r) as [|x l] eqn:Hb.
  - by rewrite request_header_nil.
  - rewrite <- Hb. rewrite request_header_cons by (by rewrite Hb).
    by rewrite Header_Values_Add, Hvals.
Qed.

(** ** What a call does *)

Lemma call_unfold {E : Env} (v : Verb) (r : Request E) (w : World E)
    (c : option (Ctx E)) (path : string) :
  call v r w c path
  = match marshal_fails v r with
    | Some e => (prepared v r, prelogged v r w, inl e)
    | None => do (prepared v r) (prelogged v r w) c (method_of v) path
    end.
Proof.
  destruct (marshal_fails v r) as [e|] eqn:Hm; [|exact (call_do v r w c path Hm)].
  unfold marshal_fails, prepared, prelogged in *.
  destruct (serializes v) eqn:Hv; [|discriminate].
  destruct (body r) as [b|] eqn:Hb; [|discriminate].
  destruct (Marshal E b) as [bytes err] eqn:HM. cbn in Hm. subst err.
  by apply call_marshal_failure.
Qed.

Lemma prepared_fields {E : Env} (v : Verb) (r : Request E) :
  client (prepared v r) = client r /\ url (prepared v r) = url r
  /\ headers (prepared v r) = headers r /\ queryParams (prepared v r) = queryParams r
  /\ body (prepared v r) = body r /\ result (prepared v r) = result r.
Proof.
  unfold prepared. destruct (serializes v); [|done].
  destruct (body r) as [b|] eqn:Hb; [|done]. cbn. by rewrite Hb.
Qed.

Lemma sent_prelogged {E : Env} (v : Verb) (r : Request E) (n : Net E) :
  sent (trace (prelogged v r (mkWorld n []))) = []
  /\ closes (trace (prelogged v r (mkWorld n []))) = 0
  /\ decoded (trace (prelogged v r (mkWorld n []))) = []
  /\ net (prelogged v r (mkWorld n [])) = n.
Proof. unfold prelogged. by destruct (serializes v), (body r). Qed.

Lemma closes_app {E : Env} (l1 l2 : list (Event E)) :
  closes (l1 ++ l2) = closes l1 + closes l2.
Proof. induction l1 as [|ev l1 IH]; [done|]. destruct ev; cbn; by rewrite ?IH. Qed.

Lemma decoded_app {E : Env} (l1 l2 : list (Event E)) :
  decoded (l1 ++ l2) = (decoded l1 ++ decoded l2)%list.
Proof. induction l1 as [|ev l1 IH]; [done|]. destruct ev; cbn; by rewrite ?IH. Qed.

(** What [do] appends to the log. *)
Lemma do_trace {E : Env} (r : Request E) (w : World E) (c : option (Ctx E))
    (method path : string) :
  trace (do r w c method path).1.2
  = (trace w ++
     match Request_Request r c method path with
     | inl _ => []
     | inr req =>
         match (client r (net w) req).2, result r with
         | inl _, _ => [EvDo req]
         | inr _, Some t => [EvDo req; EvDecode t; EvClose]
         | inr _, None => [EvDo req; EvClose]
         end
     end)%list.
Proof.
  unfold do. destruct (Request_Request r c method path) as [e|req]; cbn.
  { by rewrite app_nil_r. }
  destruct (client r (net w) req) as [n [e|resp]]; cbn; [done|].
  destruct (result r) as [t|]; cbn.
  - destruct (Decode E _ t) as [t' [e|]]; cbn; by rewrite <- !(assoc_L (++)).
  - by rewrite <- !(assoc_L (++)).
Qed.

Lemma sent_events {E : Env} (v : Verb) (r : Request E) (n : Net E)
    (c : option (Ctx E)) (path : string) :
  sent (events v r n c path)
  = match marshal_fails v r, Request_Request (prepared v r) c (method_of v) path with
    | None, inr req => [req]
    | _, _ => []
    end.
Proof.
  unfold events. rewrite call_unfold.
  destruct (sent_prelogged v r n) as (Hs & _ & _ & Hn).
  destruct (marshal_fails v r) as [e|]; [done|].
  rewrite do_trace, sent_app, Hs.
  destruct (Request_Request _ c (method_of v) path) as [e|req]; [done|].
  destruct (client _ _ req) as [n' [e|resp]]; cbn; [done|].
  by destruct (result (prepared v r)).
Qed.

(** X7. A verb call hands at most one request to the transport: exactly
    the one that [Request.Request] built for the prepared builder, when
    serialization and building both succeeded, and none otherwise. *)
Theorem transport_called_at_most_once (E : Env) (v : Verb) (r : Request E) (n : Net E)
    (c : option (Ctx E)) (path : string) :
  (exists req,
     sent (events v r n c path) = [req]
     /\ marshal_fails v r = None
     /\ Request_Request (prepared v r) c (method_of v) path = inr req)
  \/ (sent (events v r n c path) = []
      /\ (is_Some (marshal_fails v r)
          \/ exists e, Request_Request (prepared v r) c (method_of v) path = inl e)).
Proof.
  rewrite sent_events.
  destruct (marshal_fails v r) as [e|]; [right; split; [done|]; left; by exists e|].
  destruct (Request_Request _ c (method_of v) path) as [e|req].
  - right. split; [done|]. right. by exists e.
  - left. by exists req.
Qed.

(** X8. The response body is closed exactly once when the transport
    returned a response, whether or not decoding was asked for or failed,
    and never when nothing was sent or the transport failed. *)
Theorem response_body_closed_once (E : Env) (v : Verb) (r : Request E) (n : Net E)
    (c : option (Ctx E)) (path : string) :
  closes (events v r n c path)
  = match sent (events v r n c path) with
    | [req] => match (client r n req).2 with inr _ => 1 | inl _ => 0 end
    | _ => 0
    end.
Proof.
  rewrite sent_events.
  unfold events. rewrite call_unfold.
  destruct (sent_prelogged v r n) as (_ & Hc & _ & Hn).
  destruct (prepared_fields v r) as (Hcl & _).
  destruct (marshal_fails v r) as [e|]; [done|].
  rewrite do_trace, closes_app, Hc, Hn, Hcl.
  destruct (Request_Request _ c (method_of v) path) as [e|req]; [done|].
  destruct (client r n req) as [n' [e|resp]]; cbn; [done|].
  by destruct (result (prepared v r)).
Qed.

(** X9. The request that a verb sends has the method of that verb, the
    context of the call, the stored byte body as its body and the length
    of that body as its content length. *)
Theorem sent_request_has_verb_method (E : Env) (v : Verb) (r : Request E) (n : Net E)
    (c : option (Ctx E)) (path : string) (req : http.Request (Ctx E))
    (Hsent : req ∈ sent (events v r n c path)) :
  http.Method req = method_of v
  /\ c = Some (http.ctx req)
  /\ http.Body req = bodyBytes (prepared v r)
  /\ http.ContentLength req = Z.of_nat (List.length (bodyBytes (prepared v r))).
Proof.
  rewrite sent_events in Hsent.
  destruct (marshal_fails v r) as [e|]; [by apply elem_of_nil in Hsent|].
  destruct (Request_Request _ c (method_of v) path) as [e|req'] eqn:Hreq;
    [by apply elem_of_nil in Hsent|].
  apply list_elem_of_singleton in Hsent as ->.
  apply Request_Request_inr in Hreq as (ref & q & req0 & _ & _ & Hnew & ->).
  apply NewRequestWithContext_inr in Hnew as (cx & u & -> & _ & ->).
  cbn. split; [by destruct v|done].
Qed.

(** X10. With a nil context every verb call fails, and fails before the
    transport: nothing is sent and the network is as it was. *)
Theorem nil_context_is_refused (E : Env) (v : Verb) (r : Request E) (w : World E)
    (path : string) :
  exists e,
    (call v r w None path).2 = inl e
    /\ sent (trace (call v r w None path).1.2) = sent (trace w)
    /\ net (call v r w None path).1.2 = net w.
Proof.
  assert (Hreq : forall r0 : Request E, forall m,
             exists e, Request_Request r0 None m path = inl e).
  { intros r0 m. unfold Request_Request.
    destruct (Parse E path) as [e|ref]; cbn; [by exists e|].
    destruct (neturl.QueryUnescape _) as [e|q]; cbn; [by exists e|].
    unfold http.NewRequestWithContext. destruct (negb _); cbn; eauto. }
  rewrite call_unfold.
  assert (Hp : sent (trace (prelogged v r w)) = sent (trace w)
               /\ net (prelogged v r w) = net w).
  { unfold prelogged. destruct (serializes v), (body r); cbn; rewrite ?sent_app; cbn;
      by rewrite ?app_nil_r. }
  destruct Hp as [Hp1 Hp2].
  destruct (marshal_fails v r) as [e|]; [by exists e|].
  destruct (Hreq (prepared v r) (method_of v)) as [e He].
  unfold do. rewrite He. by exists e.
Qed.

(** ** Outcomes, bodies and the query *)

(** X11. A call that succeeds returns the decode target of the builder:
    nil when none is set, else the target as the decoder left it after
    decoding the body of the response without error. *)
Theorem successful_call_returns_target (E : Env) (v : Verb) (r r' : Request E)
    (w w' : World E) (c : option (Ctx E)) (path : string) (res : option (Any E))
    (Hcall : call v r w c path = (r', w', inr res)) :
  res = result r'
  /\ match result r with
     | None => res = None
     | Some t =>
         exists req n' resp,
           Request_Request (prepared v r) c (method_of v) path = inr req
           /\ client r (net w) req = (n', inr resp)
           /\ Decode E (http.RespBody resp) t = (default t res, None)
           /\ is_Some res
     end.
Proof.
  rewrite call_unfold in Hcall.
  destruct (prepared_fields v r) as (Hcl & _ & _ & _ & _ & Hres).
  assert (Hn : net (prelogged v r w) = net w).
  { unfold prelogged. by destruct (serializes v), (body r). }
  destruct (marshal_fails v r) as [e|]; [discriminate|].
  unfold do in Hcall. rewrite Hn, Hcl, Hres in Hcall.
  destruct (Request_Request _ c (method_of v) path) as [e|req]; [discriminate|].
  destruct (client r (net w) req) as [n' [e|resp]] eqn:Hdo; [discriminate|].
  destruct (result r) as [t|].
  - destruct (Decode E _ t) as [t' [e|]] eqn:Hd; [discriminate|].
    injection Hcall as <- <- <-. split; [done|].
    exists req, n', resp. cbn. rewrite Hd. eauto.
  - injection Hcall as <- <- <-. by rewrite Hres.
Qed.

(** X12. An error of the transport is returned as it is; the builder is
    left as prepared, the target is not decoded into and nothing is
    closed. *)
Theorem transport_error_is_returned (E : Env) (v : Verb) (r : Request E) (w : World E)
    (c : option (Ctx E)) (path : string) (req : http.Request (Ctx E)) (n' : Net E)
    (e : error)
    (Hmarshal : marshal_fails v r = None)
    (Hreq : Request_Request (prepared v r) c (method_of v) path = inr req)
    (Hdo : client r (net w) req = (n', inl e)) :
  let '(r', w', res) := call v r w c path in
  res = inl e
  /\ r' = prepared v r
  /\ trace w' = (trace (prelogged v r w) ++ [EvDo req])%list
  /\ net w' = n'.
Proof.
  rewrite call_unfold, Hmarshal.
  destruct (prepared_fields v r) as (Hcl & _).
  assert (Hn : net (prelogged v r w) = net w).
  { unfold prelogged. by destruct (serializes v), (body r). }
  unfold do. by rewrite Hreq, Hcl, Hn, Hdo.
Qed.

(** X13. A decoding error is returned as it is; the target keeps what the
    decoder left in it, and the response body has been closed. *)
Theorem decode_error_is_returned (E : Env) (v : Verb) (r : Request E) (w : World E)
    (c : option (Ctx E)) (path : string) (req : http.Request (Ctx E)) (n' : Net E)
    (resp : http.Response) (t t' : Any E) (e : error)
    (Hmarshal : marshal_fails v r = None)
    (Hreq : Request_Request (prepared v r) c (method_of v) path = inr req)
    (Hdo : client r (net w) req = (n', inr resp))
    (Htarget : result r = Some t)
    (Hdecode : Decode E (http.RespBody resp) t = (t', Some e)) :
  let '(r', w', res) := call v r w c path in
  res = inl e
  /\ r' = set_result (Some t') (prepared v r)
  /\ trace w' = (trace (prelogged v r w) ++ [EvDo req; EvDecode t; EvClose])%list.
Proof.
  rewrite call_unfold, Hmarshal.
  destruct (prepared_fields v r) as (Hcl & _ & _ & _ & _ & Hres).
  assert (Hn : net (prelogged v r w) = net w).
  { unfold prelogged. by destruct (serializes v), (body r). }
  unfold do. rewrite Hreq, Hcl, Hn, Hdo, Hres, Htarget, Hdecode. cbn.
  by rewrite <- !(assoc_L (++)).
Qed.

(** X14. With a JSON value pending, [Post], [Put] and [Patch] ignore a raw
    body set with [WithBodyBytes], whether it was set before or after the
    JSON value: the call is the same without it. *)
Theorem pending_JSON_overrides_raw_body (E : Env) (v : Verb) (r : Request E)
    (w : World E) (c : option (Ctx E)) (path : string) (b : Any E)
    (raw : list Byte.byte)
    (Hverb : serializes v = true)
    (Hbody : body r = Some b) :
  call v (WithBodyBytes raw r) w c path = call v r w c path
  /\ call v (WithBodyBytes raw (@WithJSONBody E (Some b) r)) w c path
     = call v (@WithJSONBody E (Some b) (WithBodyBytes raw r)) w c path.
Proof.
  assert (H : forall r0 : Request E, body r0 = Some b ->
            call v (WithBodyBytes raw r0) w c path = call v r0 w c path).
  { intros r0 Hb. rewrite !call_unfold.
    unfold marshal_fails, prepared, prelogged. rewrite Hverb. cbn. by rewrite Hb. }
  split; [by apply H|]. rewrite H by done.
  rewrite !call_unfold. unfold marshal_fails, prepared, prelogged.
  rewrite Hverb. cbn. by destruct (Marshal E b) as [bytes [e|]].
Qed.

(** X15. A raw body set with [WithBodyBytes] is what the next call sends,
    unserialized, when the verb is [Get] or [Delete] or no JSON value is
    pending. *)
Theorem raw_body_is_sent (E : Env) (v : Verb) (r : Request E) (n : Net E)
    (c : option (Ctx E)) (path : string) (raw : list Byte.byte)
    (req : http.Request (Ctx E))
    (Hraw : serializes v = false \/ body r = None)
    (Hsent : req ∈ sent (events v (WithBodyBytes raw r) n c path)) :
  http.Body req = raw
  /\ marshalled (events v (WithBodyBytes raw r) n c path) = [].
Proof.
  assert (Hp : prepared v (WithBodyBytes raw r) = WithBodyBytes raw r
               /\ marshal_fails v (WithBodyBytes raw r) = None
               /\ prelogged v (WithBodyBytes raw r) (mkWorld n []) = mkWorld n []).
  { unfold prepared, marshal_fails, prelogged. cbn.
    destruct Hraw as [-> | ->]; [done|]. by destruct (serializes v). }
  destruct Hp as (Hp1 & Hp2 & Hp3). split.
  - rewrite sent_events, Hp1, Hp2 in Hsent.
    destruct (Request_Request _ c (method_of v) path) as [e|req'] eqn:Hreq;
      [by apply elem_of_nil in Hsent|].
    apply list_elem_of_singleton in Hsent as ->.
    by apply Request_Request_Body in Hreq as [-> _].
  - unfold events. rewrite call_unfold, Hp1, Hp2, Hp3, do_trace. cbn.
    destruct (Request_Request _ c (method_of v) path) as [e|req']; [done|].
    destruct (client _ _ req') as [n' [e|resp]]; cbn; [done|].
    by destruct (result r).
Qed.

(** X16. After [WithJSONBody], a [Post], [Put] or [Patch] whose
    serialization succeeds sends the serialized bytes as body, with the
    method of the verb, and serializes once. The request carries
    [Content-Type: application/json] provided that the builder's headers
    hold no other spelling of that name, such as [content-type]. *)
Theorem JSON_body_is_sent_as_JSON (E : Env) (v : Verb) (r : Request E) (n : Net E)
    (c : option (Ctx E)) (path : string) (b : Any E) (bytes : list Byte.byte)
    (req : http.Request (Ctx E))
    (Hrange : range_visits_all E)
    (Hverb : serializes v = true)
    (Hmarshal : Marshal E b = (bytes, None))
    (Hspelling : forall k', is_Some (headers r !! k') ->
       http.CanonicalMIMEHeaderKey k' = "Content-Type" -> k' = "Content-Type")
    (Hsent : req ∈ sent (events v (@WithJSONBody E (Some b) r) n c path)) :
  http.Body req = bytes
  /\ http.Method req = method_of v
  /\ http.Header_Values (http.Header req) "Content-Type" = ["application/json"]
  /\ marshalled (events v (@WithJSONBody E (Some b) r) n c path) = [b].
Proof.
  set (r1 := @WithJSONBody E (Some b) r) in *.
  assert (Hp : prepared v r1 = set_bodyBytes bytes r1
               /\ marshal_fails v r1 = None
               /\ prelogged v r1 (mkWorld n []) = log (EvMarshal b) (mkWorld n [])).
  { unfold prepared, marshal_fails, prelogged. cbn. by rewrite Hverb, Hmarshal. }
  destruct Hp as (Hp1 & Hp2 & Hp3).
  assert (Hm : marshalled (events v r1 n c path) = [b]).
  { unfold events. rewrite call_unfold, Hp1, Hp2, Hp3, do_trace, marshalled_app. cbn.
    destruct (Request_Request _ c (method_of v) path) as [e|req']; [done|].
    destruct (client _ _ req') as [n' [e|resp]]; cbn; [done|].
    by destruct (result r). }
  rewrite sent_events, Hp1, Hp2 in Hsent.
  destruct (Request_Request _ c (method_of v) path) as [e|req'] eqn:Hreq;
    [by apply elem_of_nil in Hsent|].
  apply list_elem_of_singleton in Hsent as ->.
  pose proof Hreq as [Hb Hh]%Request_Request_Body.
  split; [done|]. split; [|split; [|done]].
  - apply Request_Request_inr in Hreq as (ref & q & req0 & _ & _ & Hnew & ->).
    apply NewRequestWithContext_inr in Hnew as (cx & u & _ & _ & ->).
    cbn. by destruct v.
  - rewrite Hh. unfold http.Header_Values.
    rewrite request_header_lookup_other by done.
    rewrite (apply_headers_unique _ "Content-Type" "application/json");
      [done|done|apply lookup_insert_eq|].
    intros k' [v' Hk'] Hc. cbn in Hk'.
    destruct (decide ("Content-Type" = k')) as [<-|Hne]; [done|].
    rewrite lookup_insert_ne in Hk' by done. apply Hspelling; [by exists v'|done].
Qed.

(** X17. [Request.Request] never fails at the query: when it fails, either
    the call path did not parse or [http.NewRequestWithContext] refused
    the method, the context or the text of the URL. *)
Theorem query_unescape_never_fails (E : Env) (r : Request E) (c : option (Ctx E))
    (method path : string) (e : error)
    (Hfail : Request_Request r c method path = inl e) :
  Parse E path = inl e
  \/ exists ref,
       Parse E path = inr ref
       /\ http.NewRequestWithContext (Parse E) c method
            (neturl.URL_String (request_url r ref (plain_query (queryParams r))))
            (bodyBytes r) = inl e.
Proof.
  unfold Request_Request in Hfail.
  destruct (Parse E path) as [e'|ref]; cbn in Hfail; [left; congruence|].
  rewrite QueryUnescape_Values_Encode in Hfail. cbn in Hfail.
  destruct (http.NewRequestWithContext _ _ _ _ _) as [e'|req0] eqn:Hnew;
    cbn in Hfail; [|discriminate].
  right. exists ref. split; [done|congruence].
Qed.

(** ** Histories of use *)

Lemma only_spelling_correct (hs : gmap string string) (k : string) :
  only_spelling hs k = true ->
  forall k', is_Some (hs !! k') ->
    http.CanonicalMIMEHeaderKey k' = http.CanonicalMIMEHeaderKey k -> k' = k.
Proof.
  unfold only_spelling. rewrite forallb_forall. intros H k' [v Hk] Hc.
  assert (Hin : In k' (map_to_list hs).*1).
  { apply list_elem_of_In, list_elem_of_fmap. exists (k', v).
    split; [done|]. by apply elem_of_map_to_list. }
  specialize (H k' Hin). cbn beta in H.
  destruct (String.eqb_spec (http.CanonicalMIMEHeaderKey k')
              (http.CanonicalMIMEHeaderKey k)) as [_|Hne]; [|done].
  cbn in H. by apply String.eqb_eq in H.
Qed.

Lemma foldl_assign_dom {V : Type} (l : list (string * V)) (dst : gmap string V) (k : string) :
  is_Some (dst !! k) ->
  is_Some (foldl (fun acc kv => <[kv.1 := kv.2]> acc) dst l !! k).
Proof.
  revert dst. induction l as [|[k' v'] l IH]; intros dst Hk; [done|].
  cbn [foldl]. apply IH. cbn. rewrite lookup_insert.
  by destruct (decide (k' = k)).
Qed.

Lemma call_keeps_fields {E : Env} (v : Verb) (r : Request E) (w : World E)
    (c : option (Ctx E)) (path : string) :
  let r' := (call v r w c path).1.1 in
  url r' = url r /\ client r' = client r /\ headers r' = headers r
  /\ queryParams r' = queryParams r /\ body r' = body r.
Proof.
  cbn zeta. destruct (call v r w c path) as [[r' w'] res] eqn:Hcall.
  apply call_frame in Hcall as [-> _]. cbn.
  destruct (prepared_fields v r) as (? & ? & ? & ? & ? & _). done.
Qed.

Lemma step_keeps {E : Env} (s : Step E) (st : Request E * World E) :
  url (step s st).1 = url st.1
  /\ client (step s st).1 = client st.1
  /\ (forall k, is_Some (headers st.1 !! k) -> is_Some (headers (step s st).1 !! k))
  /\ (forall k, is_Some (queryParams st.1 !! k) ->
                is_Some (queryParams (step s st).1 !! k)).
Proof.
  destruct st as [r w]. destruct s; cbn [step fst snd].
  9: { destruct (call_keeps_fields v r w c path) as (-> & -> & -> & -> & _). done. }
  all: cbn; split; [done|]; split; [done|]; split; intros k Hk; try done.
  - rewrite lookup_insert. by destruct (decide (key = k)).
  - unfold neturl.Values_Add. rewrite lookup_insert. by destruct (decide (key = k)).
  - rewrite lookup_insert. by destruct (decide ("Content-Type" = k)).
  - rewrite lookup_insert. by destruct (decide ("Authorization" = k)).
  - by apply foldl_assign_dom.
  - by apply foldl_assign_dom.
Qed.

(** X18. Whatever the history of configuration methods and verb calls, the
    base URL and the transport of the builder stay as they were, and no
    header name or query key is ever removed: a builder made by [New]
    always has an [Accept] header. *)
Theorem base_URL_and_header_names_persist (E : Env) (steps : list (Step E))
    (r : Request E) (w : World E) :
  url (run steps (r, w)).1 = url r
  /\ client (run steps (r, w)).1 = client r
  /\ (forall k, is_Some (headers r !! k) ->
                is_Some (headers (run steps (r, w)).1 !! k))
  /\ (forall k, is_Some (queryParams r !! k) ->
                is_Some (queryParams (run steps (r, w)).1 !! k))
  /\ forall u cl accepts,
       is_Some (headers (run steps (New E u cl accepts, w)).1 !! "Accept").
Proof.
  assert (H : forall st : Request E * World E,
             url (run steps st).1 = url st.1
             /\ client (run steps st).1 = client st.1
             /\ (forall k, is_Some (headers st.1 !! k) ->
                           is_Some (headers (run steps st).1 !! k))
             /\ (forall k, is_Some (queryParams st.1 !! k) ->
                           is_Some (queryParams (run steps st).1 !! k))).
  { unfold run. induction steps as [|s steps IH]; intros st; [done|].
    cbn [foldl]. destruct (IH (step s st)) as (-> & -> & Hh & Hq).
    destruct (step_keeps s st) as (-> & -> & Hh' & Hq').
    split; [done|]. split; [done|].
    split; intros k Hk; [apply Hh, Hh'|apply Hq, Hq']; done. }
  destruct (H (r, w)) as (Hu & Hc & Hh & Hq).
  split; [done|]. split; [done|]. split; [done|]. split; [done|].
  intros u cl accepts. destruct (H (New E u cl accepts, w)) as (_ & _ & Hh2 & _).
  apply Hh2. cbn. by rewrite lookup_singleton_eq.
Qed.

Lemma plain_query_singleton (k : string) (vs : list string) :
  plain_query {[k := vs]} = strings.Join (List.map (fun x => k ++ "=" ++ x) vs) "&".
Proof.
  unfold plain_query, neturl.sorted_keys. rewrite map_to_list_singleton. cbn.
  by rewrite lookup_singleton_eq, app_nil_r.
Qed.

(** X19. The values added to one key of a new builder reach the query of
    the request as plain [key=value] pairs joined by [&], in the order
    added, with nothing escaped: all of them when neither the key nor a
    value holds a [#], and up to the first [#] otherwise. (The URL parser
    is one that agrees with the model of [url.Parse], the text of the URL
    is one that the model reads, and the base URL and the reference have
    no [?] or [#] in their scheme and opaque part.) *)
Theorem values_of_one_key_are_written_plain (E : Env) (u : neturl.URL) (cl : Client E)
    (accepts key v : string) (vs : list string) (c : option (Ctx E))
    (method path : string) (req : http.Request (Ctx E)) (ref : neturl.URL)
    (Hmodel : Parse_as_modelled E)
    (Hreq : Request_Request (add_each key (v :: vs) (New E u cl accepts)) c method path
            = inr req)
    (Href : Parse E path = inr ref)
    (Hbase : well_formed u = true)
    (Hwf : well_formed ref = true)
    (Hread : is_Some (neturl.Parse
                        (neturl.URL_String
                           (neturl.set_RawQuery
                              (strings.Join (List.map (fun x => key ++ "=" ++ x) (v :: vs)) "&")
                              (neturl.ResolveReference u ref))))) :
  let q := strings.Join (List.map (fun x => key ++ "=" ++ x) (v :: vs)) "&" in
  neturl.RawQuery (http.URL req) = before_hash q
  /\ (strings.ContainsByte q "#" = false -> neturl.RawQuery (http.URL req) = q).
Proof.
  cbn zeta.
  assert (Hqp : queryParams (add_each key (v :: vs) (New E u cl accepts))
                = {[key := v :: vs]}).
  { rewrite add_each_queryParams. cbn. rewrite lookup_empty. cbn. apply insert_empty. }
  assert (Hu : url (add_each key (v :: vs) (New E u cl accepts)) = u).
  { unfold add_each.
    assert (H : forall l (r0 : Request E),
               url (foldl (fun r1 x => WithQueryParam key x r1) r0 l) = url r0).
    { induction l as [|x l IH]; intros r0; [done|]. cbn [foldl]. by rewrite IH. }
    apply H. }
  assert (Hq : neturl.RawQuery (http.URL req)
               = before_hash
                   (strings.Join (List.map (fun x => key ++ "=" ++ x) (v :: vs)) "&")).
  { rewrite <- plain_query_singleton, <- Hqp.
    apply (Request_RawQuery E _ c method path req ref Hmodel Hreq Href).
    - by rewrite Hu.
    - done.
    - unfold request_url. by rewrite Hu, Hqp, plain_query_singleton. }
  split; [done|]. intros Hno. by rewrite Hq, before_hash_absent.
Qed.

(** ** Examples *)

Lemma canonical_name_differs (a b : string) :
  String.eqb (http.CanonicalMIMEHeaderKey a) b = false ->
  http.CanonicalMIMEHeaderKey a <> b.
Proof. by intros H%String.eqb_neq. Qed.

Lemma new_builder_request_is_bare_witness :
  exists req,
    Request_Request sample.fresh stub.background "GET" "widgets" = inr req
    /\ http.Header req = {["Accept" := ["application/json"]]}
    /\ http.Body req = [].
Proof.
  destruct (Request_Request sample.fresh stub.background "GET" "widgets")
    as [e|req] eqn:Hreq; [vm_compute in Hreq; discriminate|].
  destruct (new_builder_request_is_bare stub.env stub.base stub.transport
              "application/json" stub.background "GET" "widgets" req
              stub_range_visits_all Hreq) as (Hh & Hb & _).
  exists req. split; [reflexivity|]. split; [exact Hh|exact Hb].
Defined.

Lemma WithHeaders_overwrites_by_key_witness :
  let r' := WithHeaders {["Accept" := "text/xml"]} sample.traced in
  range_visits_all stub.env
  /\ headers r' !! "Accept" = Some "text/xml"
  /\ headers r' !! "x-trace-id" = Some "7".
Proof.
  cbn zeta. split; [exact stub_range_visits_all|].
  destruct (WithHeaders_overwrites_by_key stub.env sample.traced
              {["Accept" := "text/xml"]} stub_range_visits_all) as (_ & H & _).
  split; rewrite H; reflexivity.
Defined.

Lemma header_reaches_request_witness :
  exists req,
    Request_Request sample.traced stub.background "GET" "widgets" = inr req
    /\ http.Header_Values (http.Header req) "x-trace-id" = ["7"]
    /\ http.CanonicalMIMEHeaderKey "x-trace-id" = "X-Trace-Id".
Proof.
  destruct (Request_Request sample.traced stub.background "GET" "widgets")
    as [e|req] eqn:Hreq; [vm_compute in Hreq; discriminate|].
  exists req. split; [reflexivity|]. split; [|reflexivity].
  exact (header_reaches_request stub.env sample.traced
           stub.background "GET" "widgets" req "x-trace-id" "7"
           stub_range_visits_all Hreq eq_refl
           (only_spelling_correct (headers sample.traced) "x-trace-id" eq_refl)
           (canonical_name_differs "x-trace-id" "Content-Length" eq_refl)).
Defined.

Lemma request_headers_come_from_builder_witness :
  exists req,
    Request_Request sample.traced stub.background "GET" "widgets" = inr req
    /\ http.Header req !! "X-Trace-Id" = Some ["7"]
    /\ exists k v, headers sample.traced !! k = Some v
         /\ http.CanonicalMIMEHeaderKey k = "X-Trace-Id" /\ ["7"] = [v].
Proof.
  destruct (Request_Request sample.traced stub.background "GET" "widgets")
    as [e|req] eqn:Hreq; [vm_compute in Hreq; discriminate|].
  assert (HK : http.Header req !! "X-Trace-Id" = Some ["7"]).
  { vm_compute in Hreq. injection Hreq as <-. reflexivity. }
  exists req. split; [reflexivity|]. split; [exact HK|].
  destruct (request_headers_come_from_builder stub.env sample.traced
              stub.background "GET" "widgets" req "X-Trace-Id" ["7"]
              stub_range_visits_all Hreq HK) as [[Hcl _]|H].
  - discriminate Hcl.
  - exact H.
Defined.

Lemma WithAuthorization_bearer_witness :
  exists req,
    Request_Request sample.authorized stub.background "GET" "widgets" = inr req
    /\ http.Header_Values (http.Header req) "Authorization" = ["Bearer abc"].
Proof.
  destruct (Request_Request sample.authorized stub.background "GET" "widgets")
    as [e|req] eqn:Hreq; [vm_compute in Hreq; discriminate|].
  exists req. split; [reflexivity|].
  exact (proj1 (WithAuthorization_bearer stub.env sample.fresh "abc"
           stub.background "GET" "widgets" req stub_range_visits_all
           (only_spelling_correct (headers sample.fresh) "Authorization" eq_refl) Hreq)).
Defined.

(** The caller writes [content-length: 5] and a body of 17 bytes: the
    request carries [5] and then [17]. *)
Lemma caller_Content_Length_is_kept_witness :
  let r := WithBodyBytes sample.seventeen (WithHeader "content-length" "5" sample.fresh) in
  exists req,
    Request_Request r stub.background "POST" "widgets" = inr req
    /\ http.Header_Values (http.Header req) "Content-Length" = ["5"; "17"].
Proof.
  cbn zeta.
  destruct (Request_Request
              (WithBodyBytes sample.seventeen
                 (WithHeader "content-length" "5" sample.fresh))
              stub.background "POST" "widgets")
    as [e|req] eqn:Hreq; [vm_compute in Hreq; discriminate|].
  exists req. split; [reflexivity|].
  destruct (caller_Content_Length_is_kept stub.env
              (WithBodyBytes sample.seventeen
                 (WithHeader "content-length" "5" sample.fresh))
              stub.background "POST" "widgets" req "content-length" "5"
              stub_range_visits_all Hreq eq_refl eq_refl)
    as (k' & v' & _ & _ & Hv & Hvals).
  rewrite (Hv (only_spelling_correct
                 (headers (WithBodyBytes sample.seventeen
                             (WithHeader "content-length" "5" sample.fresh)))
                 "content-length" eq_refl)) in Hvals.
  exact Hvals.
Defined.

Lemma sent_request_has_verb_method_witness :
  exists req,
    sent (events VPut sample.fresh 0%nat stub.background "widgets") = [req]
    /\ http.Method req = "PUT"
    /\ stub.background = Some (http.ctx req).
Proof.
  destruct (sent (events VPut sample.fresh 0%nat stub.background "widgets"))
    as [|req l] eqn:Hs; [vm_compute in Hs; discriminate|].
  assert (Hl : l = []).
  { apply (f_equal (@List.length _)) in Hs. vm_compute in Hs. by destruct l. }
  subst l. exists req. split; [reflexivity|].
  destruct (sent_request_has_verb_method stub.env VPut sample.fresh
              0%nat stub.background "widgets" req) as (Hm & Hc & _).
  - rewrite Hs. apply list_elem_of_here.
  - split; [exact Hm|exact Hc].
Defined.

(** X20. A [Post], [Put] or [Patch] whose serialization fails has already
    replaced the stored byte body by what [json.Marshal] returned beside
    the error, so a raw body set before is gone and a later [Get] or
    [Delete] does not send it. *)
Theorem failed_serialization_discards_raw_body (E : Env) (v : Verb) (r : Request E)
    (w : World E) (c : option (Ctx E)) (path : string) (b : Any E)
    (bytes raw : list Byte.byte) (e : error)
    (Hverb : serializes v = true)
    (Hbody : body r = Some b)
    (Hfail : Marshal E b = (bytes, Some e)) :
  let r' := (call v (WithBodyBytes raw r) w c path).1.1 in
  bodyBytes r' = bytes
  /\ forall v2 n c2 path2 req,
       serializes v2 = false ->
       req ∈ sent (events v2 r' n c2 path2) -> http.Body req = bytes.
Proof.
  cbn zeta.
  rewrite (call_marshal_failure v (WithBodyBytes raw r) w c path b bytes e) by done.
  cbn [fst]. split; [done|].
  intros v2 n c2 path2 req Hv2 Hin. rewrite sent_events in Hin.
  assert (Hp : prepared v2 (set_bodyBytes bytes (WithBodyBytes raw r))
               = set_bodyBytes bytes (WithBodyBytes raw r)).
  { unfold prepared. by rewrite Hv2. }
  rewrite Hp in Hin.
  destruct (marshal_fails v2 _); [by apply elem_of_nil in Hin|].
  destruct (Request_Request _ c2 (method_of v2) path2) as [e'|req'] eqn:Hreq;
    [by apply elem_of_nil in Hin|].
  apply list_elem_of_singleton in Hin as ->.
  by apply Request_Request_Body in Hreq as [-> _].
Qed.

Lemma failed_serialization_discards_raw_body_witness :
  let r := @WithJSONBody stub.env (Some stub.Chan) sample.fresh in
  let r' := (call VPost (WithBodyBytes sample.seventeen r) stub.world0
               stub.background "widgets").1.1 in
  bodyBytes (WithBodyBytes sample.seventeen r) = sample.seventeen
  /\ bodyBytes r' = [].
Proof.
  cbn zeta. split; [reflexivity|].
  exact (proj1 (failed_serialization_discards_raw_body stub.env VPost
           (@WithJSONBody stub.env (Some stub.Chan) sample.fresh)
           stub.world0 stub.background "widgets" stub.Chan [] sample.seventeen
           (errorString "json: unsupported type: chan int")
           eq_refl eq_refl eq_refl)).
Defined.

Lemma successful_call_returns_target_witness :
  let '(r', w', res) := call VGet sample.with_target stub.world0 stub.background "widgets" in
  res = inr (Some (stub.Bool true))
  /\ result r' = Some (stub.Bool true).
Proof.
  destruct (call VGet sample.with_target stub.world0 stub.background "widgets")
    as [[r' w'] res] eqn:Hcall.
  assert (Hres : res = inr (Some (stub.Bool true))).
  { apply (f_equal snd) in Hcall. cbn [snd] in Hcall. rewrite <- Hcall. reflexivity. }
  subst res. split; [reflexivity|].
  destruct (successful_call_returns_target stub.env VGet sample.with_target r'
              stub.world0 w' stub.background "widgets" _ Hcall) as [H _].
  symmetry. exact H.
Defined.

Lemma transport_error_is_returned_witness :
  let '(r', w', res) := call VDelete sample.unreachable stub.world0 stub.background
                          "widgets/42" in
  res = inl (errorString "dial tcp: connection refused")
  /\ closes (trace w') = 0%nat
  /\ List.length (sent (trace w')) = 1%nat.
Proof.
  destruct (Request_Request (prepared VDelete sample.unreachable) stub.background
              (method_of VDelete) "widgets/42") as [e|req] eqn:Hreq;
    [vm_compute in Hreq; discriminate|].
  pose proof (transport_error_is_returned stub.env VDelete sample.unreachable
                stub.world0 stub.background "widgets/42" req 1%nat
                (errorString "dial tcp: connection refused")
                eq_refl Hreq eq_refl) as H.
  destruct (call VDelete sample.unreachable stub.world0 stub.background "widgets/42")
    as [[r' w'] res].
  destruct H as (Hres & _ & Htr & _). split; [exact Hres|].
  rewrite Htr. split; reflexivity.
Defined.

Lemma decode_error_is_returned_witness :
  let '(r', w', res) := call VGet sample.misanswered stub.world0 stub.background
                          "widgets" in
  res = inl (errorString "invalid character looking for beginning of value")
  /\ closes (trace w') = 1%nat.
Proof.
  destruct (Request_Request (prepared VGet sample.misanswered) stub.background
              (method_of VGet) "widgets") as [e|req] eqn:Hreq;
    [vm_compute in Hreq; discriminate|].
  pose proof (decode_error_is_returned stub.env VGet sample.misanswered
                stub.world0 stub.background "widgets" req 1%nat
                (http.mkResponse 200 (stub.text "tru")) stub.Null stub.Null
                (errorString "invalid character looking for beginning of value")
                eq_refl Hreq eq_refl eq_refl eq_refl) as H.
  destruct (call VGet sample.misanswered stub.world0 stub.background "widgets")
    as [[r' w'] res].
  destruct H as (Hres & _ & Htr). split; [exact Hres|].
  rewrite Htr. reflexivity.
Defined.

Lemma pending_JSON_overrides_raw_body_witness :
  call VPost (WithBodyBytes sample.seventeen sample.with_JSON) stub.world0
    stub.background "widgets"
  = call VPost sample.with_JSON stub.world0 stub.background "widgets"
  /\ List.map http.Body
       (sent (events VPost (WithBodyBytes sample.seventeen sample.with_JSON) 0%nat
                stub.background "widgets"))
     = [stub.text "42"].
Proof.
  split; [|reflexivity].
  exact (proj1 (pending_JSON_overrides_raw_body stub.env VPost sample.with_JSON
           stub.world0 stub.background "widgets" (stub.Number 42) sample.seventeen
           eq_refl eq_refl)).
Defined.

Lemma raw_body_is_sent_witness :
  exists req,
    sent (events VPost (WithBodyBytes sample.seventeen sample.fresh) 0%nat
            stub.background "widgets") = [req]
    /\ http.Body req = sample.seventeen.
Proof.
  destruct (sent (events VPost (WithBodyBytes sample.seventeen sample.fresh) 0%nat
                    stub.background "widgets")) as [|req l] eqn:Hs;
    [vm_compute in Hs; discriminate|].
  assert (Hl : l = []).
  { apply (f_equal (@List.length _)) in Hs. vm_compute in Hs. by destruct l. }
  subst l. exists req. split; [reflexivity|].
  refine (proj1 (raw_body_is_sent stub.env VPost sample.fresh 0%nat stub.background
                   "widgets" sample.seventeen req (or_intror eq_refl) _)).
  rewrite Hs. apply list_elem_of_here.
Defined.

Lemma JSON_body_is_sent_as_JSON_witness :
  exists req,
    sent (events VPatch sample.with_JSON 0%nat stub.background "widgets") = [req]
    /\ http.Body req = stub.text "42"
    /\ http.Method req = "PATCH"
    /\ http.Header_Values (http.Header req) "Content-Type" = ["application/json"].
Proof.
  destruct (sent (events VPatch sample.with_JSON 0%nat stub.background "widgets"))
    as [|req l] eqn:Hs; [vm_compute in Hs; discriminate|].
  assert (Hl : l = []).
  { apply (f_equal (@List.length _)) in Hs. vm_compute in Hs. by destruct l. }
  subst l. exists req. split; [reflexivity|].
  destruct (JSON_body_is_sent_as_JSON stub.env VPatch sample.fresh 0%nat
              stub.background "widgets" (stub.Number 42) (stub.text "42") req
              stub_range_visits_all eq_refl eq_refl
              (only_spelling_correct (headers sample.fresh) "Content-Type" eq_refl))
    as (Hb & Hm & Hct & _).
  - change (@WithJSONBody stub.env (Some (stub.Number 42)) sample.fresh)
      with sample.with_JSON. rewrite Hs. apply list_elem_of_here.
  - split; [exact Hb|]. split; [exact Hm|exact Hct].
Defined.

Lemma query_unescape_never_fails_witness :
  Request_Request sample.fresh stub.background "GET" "%zz"
  = inl (url_Error "parse" "%zz" (EscapeError "%zz"))
  /\ Parse stub.env "%zz" = inl (url_Error "parse" "%zz" (EscapeError "%zz")).
Proof.
  assert (Hfail : Request_Request sample.fresh stub.background "GET" "%zz"
                  = inl (url_Error "parse" "%zz" (EscapeError "%zz")))
    by reflexivity.
  split; [exact Hfail|].
  destruct (query_unescape_never_fails stub.env sample.fresh stub.background
              "GET" "%zz" _ Hfail) as [H|(ref & Href & _)].
  - exact H.
  - vm_compute in Href. discriminate.
Defined.

(** Two values for [q], one with a space and one with a percent sign. *)
Lemma values_of_one_key_are_written_plain_witness :
  exists req,
    Request_Request (add_each "q" ["x y"; "50%"] sample.fresh)
      stub.background "GET" "widgets" = inr req
    /\ neturl.RawQuery (http.URL req) = "q=x y&q=50%".
Proof.
  destruct (Request_Request (add_each "q" ["x y"; "50%"] sample.fresh)
              stub.background "GET" "widgets") as [e|req] eqn:Hreq;
    [vm_compute in Hreq; discriminate|].
  exists req. split; [reflexivity|].
  refine (proj2 (values_of_one_key_are_written_plain stub.env stub.base stub.transport
                   "application/json" "q" "x y" ["50%"] stub.background "GET" "widgets"
                   req (neturl.set_Path "widgets" neturl.zeroURL)
                   stub_Parse_as_modelled Hreq eq_refl eq_refl eq_refl _) eq_refl).
  vm_compute. eauto.
Defined.

Lemma base_URL_and_header_names_persist_witness :
  let r' := (run sample.history (sample.fresh, stub.world0)).1 in
  url r' = stub.base
  /\ headers r' !! "Accept" = Some "text/xml"
  /\ is_Some (headers r' !! "Accept").
Proof.
  cbn zeta. split; [|split; [reflexivity|]].
  - exact (proj1 (base_URL_and_header_names_persist stub.env sample.history
                    sample.fresh stub.world0)).
  - exact (proj2 (proj2 (proj2 (proj2
             (base_URL_and_header_names_persist stub.env sample.history
                sample.fresh stub.world0))))
           stub.base stub.transport "application/json").
Defined.
